(** * Bank assignment form: assignment selector, outcome form engine and
    submission coordinator

    A shallow embedding of the [BankAssignment] component (the form schema
    [formSchema] and the handlers [fetchUnassignedBank], [handleCancel] and
    [onSubmit]) together with the properties its specification states.

    Modelling conventions.
    - A JavaScript object is a finite map from property names to values
      ([gmap string Val]); reading a missing property gives [VUndefined].
    - A JavaScript string is a [string]; only code units below 256 are
      representable, and [length] counts code units.
    - A handler is a command tree ([Prog]): the state setters, the network
      calls, the random draw and the timer are events, and [try]/[catch]/
      [finally] and [return] are combinators on trees.  The values a handler
      reads from the component state ([userName], [currentBank]) are the ones
      captured by the closure of the render that created it, so they are
      arguments of the handler.
    - The environment (store replies, random draws) is an oracle indexed by
      the sequence number of the request.
    - [Math.random() * n] is IEEE 754 binary64 multiplication ([SFmul] of the
      standard library's [SpecFloat]). *)

From Stdlib Require Import ZArith Lia Bool List Ascii String.
From Stdlib Require Import Floats.SpecFloat.
From stdpp Require Import base option list gmap strings pretty.

Local Open Scope string_scope.
Local Open Scope list_scope.

(** ** JavaScript values and objects *)

Inductive Val : Type :=
| VUndefined
| VString (s : string)
| VNumber (n : Z).

#[global] Instance Val_eq_dec : EqDecision Val.
Proof. solve_decision. Defined.

(** An object: property name to value. *)
Abbreviation Obj := (gmap string Val).

(** [o.k] *)
Definition get (o : Obj) (k : string) : Val := default VUndefined (o !! k).

(** [!v]: [undefined], the empty string and zero are falsy. *)
Definition falsy (v : Val) : bool :=
  match v with
  | VUndefined => true
  | VString s => bool_decide (s = "")
  | VNumber n => bool_decide (n = 0%Z)
  end.

(** [v === VString s] *)
Definition is_str (v : Val) (s : string) : bool := bool_decide (v = VString s).

(** [{ ...a, ...b }]: the properties of [b] override those of [a]. *)
Definition spread2 (a b : Obj) : Obj := b ∪ a.

(** ** String helpers used by the schema *)

Module Str.

Definition code (c : ascii) : nat := nat_of_ascii c.

(** [[0-9]] *)
Definition is_digit (c : ascii) : bool := (48 <=? code c)%nat && (code c <=? 57)%nat.
(** [[A-Z]] *)
Definition is_upper (c : ascii) : bool := (65 <=? code c)%nat && (code c <=? 90)%nat.
(** [[a-z]] *)
Definition is_lower (c : ascii) : bool := (97 <=? code c)%nat && (code c <=? 122)%nat.
(** [\s] restricted to code units below 256: TAB, LF, VT, FF, CR, SPACE,
    NBSP. *)
Definition is_space (c : ascii) : bool :=
  ((9 <=? code c)%nat && (code c <=? 13)%nat) || (code c =? 32)%nat || (code c =? 160)%nat.
Definition is_char (x : ascii) (c : ascii) : bool := (code c =? code x)%nat.

(** [[a-zA-Z0-9\s,.-]] *)
Definition address_class (c : ascii) : bool :=
  is_lower c || is_upper c || is_digit c || is_space c
  || is_char "," c || is_char "." c || is_char "-" c.

(** [[a-zA-Z0-9\s-]] *)
Definition branch_class (c : ascii) : bool :=
  is_lower c || is_upper c || is_digit c || is_space c || is_char "-" c.

Definition chars (s : string) : list ascii := list_ascii_of_string s.

(** [/^[cls]+$/.test(s)]: one or more characters, all of the class. *)
Definition matches_plus (cls : ascii -> bool) (s : string) : bool :=
  match chars s with
  | [] => false
  | cs => forallb cls cs
  end.

(** [/^[cls]/.test(s)]: the first character is of the class. *)
Definition matches_head (cls : ascii -> bool) (s : string) : bool :=
  match chars s with
  | [] => false
  | c :: _ => cls c
  end.

(** [s.startsWith(p)] *)
Definition startsWith (s p : string) : bool := String.prefix p s.

Definition length (s : string) : Z := Z.of_nat (String.length s).

Fixpoint trimStart (cs : list ascii) : list ascii :=
  match cs with
  | c :: cs' => if is_space c then trimStart cs' else cs
  | [] => []
  end.

(** [s.trim()] on the character list. *)
Definition trim (cs : list ascii) : list ascii :=
  rev (trimStart (rev (trimStart cs))).

(** [s.split(' ')]: the pieces between single spaces; [cur] is the piece
    being read, reversed. *)
Fixpoint split_go (cur : list ascii) (cs : list ascii) : list (list ascii) :=
  match cs with
  | [] => [rev cur]
  | c :: cs' =>
      if is_char " " c then rev cur :: split_go [] cs' else split_go (c :: cur) cs'
  end.

Definition split_space (cs : list ascii) : list (list ascii) := split_go [] cs.

(** [val.trim().split(' ').length] *)
Definition word_count (s : string) : Z :=
  Z.of_nat (List.length (split_space (trim (chars s)))).

End Str.

(** ** The form schema ([formSchema])

    A field parser returns the output value and the issues raised, in the
    order of the checks; a value is accepted when no issue is raised.  The
    messages of the schema are the ones it declares; an issue the validation
    library raises by itself (a value of the wrong type, a string outside an
    enumeration) carries a short form of the library's message. *)

Module Schema.

Record Parsed := { out : Val ; issues : list string }.

Definition ok (v : Val) : Parsed := {| out := v ; issues := [] |}.
Definition bad (v : Val) (msg : string) : Parsed := {| out := v ; issues := [msg] |}.

(** [util.joinValues(options)]: the options quoted and joined by [" | "]. *)
Definition joinValues (options : list string) : string :=
  String.concat " | " (map (fun o => "'" ++ o ++ "'")%string options).

(** The messages of the default error map of zod 3 for an [invalid_type]
    issue on a value that is not [undefined] and for an
    [invalid_enum_value] issue. *)
Definition invalid_type (expected received : string) : string :=
  ("Expected " ++ expected ++ ", received " ++ received)%string.
Definition invalid_enum_value (options : list string) (received : string) : string :=
  ("Invalid enum value. Expected " ++ joinValues options
   ++ ", received '" ++ received ++ "'")%string.

(** One check of a string schema: the message when the test fails. *)
Definition check (test : bool) (msg : string) : list string :=
  if test then [] else [msg].

(** [z.string().min(10, ..).max(15, ..).regex(/^[0-9]+$/, ..)
      .refine((val) => !val.startsWith('0'), ..)] *)
Definition phoneNumber (v : Val) : Parsed :=
  match v with
  | VString s =>
      {| out := v ;
         issues :=
           check (10 <=? Str.length s)%Z "Phone number must be at least 10 digits"
           ++ check (Str.length s <=? 15)%Z "Phone number must not exceed 15 digits"
           ++ check (Str.matches_plus Str.is_digit s) "Phone number must contain only digits"
           ++ check (negb (Str.startsWith s "0")) "Phone number should not start with 0" |}
  | VUndefined => bad v "Required"
  | VNumber _ => bad v "Expected string, received number"
  end.

Definition phoneResponse_options : list string :=
  ["toll_free"; "registered_only"; "invalid_number"; "no_response";
   "switched_off"; "number_not_found"].

(** [z.enum([...], { required_error: .. })] *)
Definition phoneResponse (v : Val) : Parsed :=
  match v with
  | VString s =>
      if bool_decide (s ∈ phoneResponse_options) then ok v
      else bad v (invalid_enum_value phoneResponse_options s)
  | VUndefined => bad v "Please select a phone response type"
  | VNumber _ => bad v (invalid_type (joinValues phoneResponse_options) "number")
  end.

Definition response_options : list string :=
  ["address_change"; "branch_name_change"; "no_change_in_address"; "bank_shift"].

(** [z.enum([...]).optional()] *)
Definition response (v : Val) : Parsed :=
  match v with
  | VUndefined => ok v
  | VString s =>
      if bool_decide (s ∈ response_options) then ok v
      else bad v (invalid_enum_value response_options s)
  | VNumber _ => bad v (invalid_type (joinValues response_options) "number")
  end.

(** [z.string().min(10, ..).max(200, ..).regex(/^[a-zA-Z0-9\s,.-]+$/, ..)
      .optional()
      .refine((val) => { if (!val) return true;
                         return val.trim().split(' ').length >= 3; }, ..)] *)
Definition updateAddress (v : Val) : Parsed :=
  match v with
  | VUndefined => ok v
  | VString s =>
      {| out := v ;
         issues :=
           check (10 <=? Str.length s)%Z "Address must be at least 10 characters"
           ++ check (Str.length s <=? 200)%Z "Address must not exceed 200 characters"
           ++ check (Str.matches_plus Str.address_class s)
                "Address can only contain letters, numbers, spaces, commas, dots, and hyphens"
           ++ check (if falsy v then true else (3 <=? Str.word_count s)%Z)
                "Address should contain at least 3 words" |}
  | VNumber _ => bad v "Expected string, received number"
  end.

(** [z.string().min(3, ..).max(100, ..).regex(/^[a-zA-Z0-9\s-]+$/, ..)
      .optional()
      .refine((val) => { if (!val) return true; return /^[A-Z]/.test(val); }, ..)] *)
Definition updatedBranchName (v : Val) : Parsed :=
  match v with
  | VUndefined => ok v
  | VString s =>
      {| out := v ;
         issues :=
           check (3 <=? Str.length s)%Z "Branch name must be at least 3 characters"
           ++ check (Str.length s <=? 100)%Z "Branch name must not exceed 100 characters"
           ++ check (Str.matches_plus Str.branch_class s)
                "Branch name can only contain letters, numbers, spaces, and hyphens"
           ++ check (if falsy v then true else Str.matches_head Str.is_upper s)
                "Branch name should start with a capital letter" |}
  | VNumber _ => bad v "Expected string, received number"
  end.

(** [z.string().max(500, ..).optional().transform(val => val || "")] *)
Definition remarks (v : Val) : Parsed :=
  match v with
  | VUndefined => ok (VString "")
  | VString s =>
      {| out := (if falsy v then VString "" else v) ;
         issues := check (Str.length s <=? 500)%Z "Remarks must not exceed 500 characters" |}
  | VNumber _ => bad v "Expected string, received number"
  end.

(** The shape of [z.object({...})], in declaration order. *)
Definition shape : list (string * (Val -> Parsed)) :=
  [ ("phoneNumber", phoneNumber) ;
    ("phoneResponse", phoneResponse) ;
    ("response", response) ;
    ("updateAddress", updateAddress) ;
    ("updatedBranchName", updatedBranchName) ;
    ("remarks", remarks) ].

(** Parsing an object: each key of the shape is parsed from the input
    property (a missing one reads as [undefined]); keys outside the shape
    are dropped; a key whose output is [undefined] is set only when the
    input had the key.  The result carries the issues of all fields,
    tagged with the field. *)
Definition set_field (input : Obj) (k : string) (v : Val) (acc : Obj) : Obj :=
  match v, input !! k with
  | VUndefined, None => acc
  | _, _ => <[k := v]> acc
  end.

Fixpoint parse_fields (fields : list (string * (Val -> Parsed))) (input : Obj)
  : Obj * list (string * string) :=
  match fields with
  | [] => (∅, [])
  | (k, p) :: rest =>
      let r := p (get input k) in
      let '(o, errs) := parse_fields rest input in
      (set_field input k (out r) o, map (pair k) (issues r) ++ errs)
  end.

(** [formSchema.safeParse(input)]: the parsed data, or the issues. *)
Definition parse (input : Obj) : Obj + list (string * string) :=
  match parse_fields shape input with
  | (o, []) => inl o
  | (_, errs) => inr errs
  end.

End Schema.

(** ** Numbers: binary64 arithmetic of [Math.random() * n] and [Math.floor] *)

Module F64.

Definition prec : Z := 53.
Definition emax : Z := 1024.

(** The double product [x * y]. *)
Definition mul (x y : spec_float) : spec_float := SFmul prec emax x y.

(** The Number holding an array length. *)
Definition of_nat (n : nat) : spec_float :=
  binary_normalize prec emax (Z.of_nat n) 0 false.

(** What [Math.random()] may return: a double with positive sign, at least
    0 and strictly below 1. *)
Definition in_unit_interval (r : spec_float) : bool :=
  match r with
  | S754_zero false => true
  | S754_finite false m e =>
      bounded prec emax m e && (e <? 0)%Z && (Z.pos m <? 2 ^ (- e))%Z
  | _ => false
  end.

(** [Math.floor(x)].  The floor of a finite double is an integer that is
    again a double, so the result is kept as that integer; NaN and the
    infinities have no integer value. *)
Definition Math_floor (x : spec_float) : option Z :=
  match x with
  | S754_zero _ => Some 0%Z
  | S754_finite s m e => Some (Z.shiftl (cond_Zopp s (Z.pos m)) e)
  | S754_infinity _ | S754_nan => None
  end.

(** [arr[i]] for a Number [i]: an element when [i] is an integer within
    the array, [undefined] (here [None]) otherwise. *)
Definition array_get {A : Type} (arr : list A) (i : option Z) : option A :=
  match i with
  | Some z => if (0 <=? z)%Z then arr !! Z.to_nat z else None
  | None => None
  end.

End F64.

(** ** Handlers as command trees *)

(** How a block ends: it falls through, it executes [return], or it throws
    (a rejected promise that is awaited throws). *)
Inductive Completion : Type := Normal | Returned | Thrown.

(** The settlement of a promise. *)
Inductive Reply (A : Type) : Type :=
| Resolved (a : A)
| Rejected.
Arguments Resolved {A} a.
Arguments Rejected {A}.

Inductive Prog : Type :=
| Stop (c : Completion)
| SetLoading (b : bool) (k : Prog)
| SetError (e : option string) (k : Prog)
| SetCurrentBank (b : option Obj) (k : Prog)
| FormReset (k : Prog)
| SetFormErrors (errs : list (string * string)) (k : Prog)
| AxiosGet (k : Reply (list Obj) -> Prog)
| AxiosPut (id : Val) (bank : Obj) (k : Reply unit -> Prog)
| MathRandom (k : spec_float -> Prog)
| SetTimeout (ms : Z) (k : Prog)
| Spawn (p : Prog) (k : Prog).

(** [on_completion p f]: run [p], then continue with [f c] where [c] is
    the way [p] ended.  What a spawned (not awaited) call does is not part
    of the way [p] ends. *)
Fixpoint on_completion (p : Prog) (f : Completion -> Prog) : Prog :=
  match p with
  | Stop c => f c
  | SetLoading b k => SetLoading b (on_completion k f)
  | SetError e k => SetError e (on_completion k f)
  | SetCurrentBank b k => SetCurrentBank b (on_completion k f)
  | FormReset k => FormReset (on_completion k f)
  | SetFormErrors errs k => SetFormErrors errs (on_completion k f)
  | AxiosGet k => AxiosGet (fun r => on_completion (k r) f)
  | AxiosPut id bank k => AxiosPut id bank (fun r => on_completion (k r) f)
  | MathRandom k => MathRandom (fun r => on_completion (k r) f)
  | SetTimeout ms k => SetTimeout ms (on_completion k f)
  | Spawn p' k => Spawn p' (on_completion k f)
  end.

(** [p; q] *)
Definition seq (p q : Prog) : Prog :=
  on_completion p (fun c => match c with Normal => q | _ => Stop c end).

(** [try { p } catch (error) { h }] *)
Definition try_catch (p h : Prog) : Prog :=
  on_completion p (fun c => match c with Thrown => h | _ => Stop c end).

(** [try { p } finally { f }]: [f] runs however [p] ends, and [p]'s
    completion stands unless [f] ends abruptly itself. *)
Definition try_finally (p f : Prog) : Prog :=
  on_completion p (fun c => seq f (Stop c)).

(** [await body()]: the [return] of a called function ends the call only. *)
Definition call (body : Prog) : Prog :=
  on_completion body (fun c => match c with Returned => Stop Normal | _ => Stop c end).

(** Statements. *)
Definition skip : Prog := Stop Normal.
Definition setLoading (b : bool) : Prog := SetLoading b skip.
Definition setError (e : option string) : Prog := SetError e skip.
Definition setCurrentBank (b : option Obj) : Prog := SetCurrentBank b skip.
Definition form_reset : Prog := FormReset skip.
Definition delay (ms : Z) : Prog := SetTimeout ms skip.
Definition throw : Prog := Stop Thrown.
Definition ret : Prog := Stop Returned.

(** [await axios.get(SHEETY_API)] followed by [response.data.banks]: a
    rejected request, or a response without a [banks] array, throws. *)
Definition axios_get (k : list Obj -> Prog) : Prog :=
  AxiosGet (fun r => match r with Resolved banks => k banks | Rejected => throw end).

(** [await axios.put(`${SHEETY_API}/${id}`, { bank })] *)
Definition axios_put (id : Val) (bank : Obj) (k : Prog) : Prog :=
  AxiosPut id bank (fun r => match r with Resolved _ => k | Rejected => throw end).

(** [if (c) { p }] *)
Definition when (c : bool) (p : Prog) : Prog := if c then p else skip.

Declare Scope prog_scope.
Delimit Scope prog_scope with prog.
Bind Scope prog_scope with Prog.
Notation "p ;; q" := (seq p q)
  (at level 100, q at level 200, right associativity) : prog_scope.
Notation "'await_put' id , bank ;; k" := (axios_put id bank k)
  (at level 100, id at level 9, bank at level 9, k at level 200,
   right associativity) : prog_scope.
Notation "'TRY' p 'CATCH' h 'FINALLY' f" := (try_finally (try_catch p h) f)
  (at level 10, p at level 200, h at level 200, f at level 200) : prog_scope.

(** ** The component *)

Definition SHEETY_API : string :=
  "https://api.sheety.co/632604ca09353483222880568eb0ebe2/bankAddressForCalling/banks".

(** [defaultValues] of the form. *)
Definition defaultValues : Obj :=
  <["phoneNumber" := VString ""]> (<["remarks" := VString ""]> ∅).

(** [banks.filter(bank => !bank.userName)] *)
Definition unassigned (bank : Obj) : bool := falsy (get bank "userName").

Definition fetchUnassignedBank (userName : string) : Prog :=
  (TRY
     setLoading true ;;
     setError None ;;
     axios_get (fun banks =>
       let unassignedBanks := List.filter unassigned banks in
       if (0 <? length unassignedBanks)%nat then
         MathRandom (fun random =>
           let randomIndex :=
             F64.Math_floor (F64.mul random (F64.of_nat (length unassignedBanks))) in
           match F64.array_get unassignedBanks randomIndex with
           | Some randomBank =>
               await_put (get randomBank "id"),
                         (<["userName" := VString userName]> randomBank) ;;
               setCurrentBank (Some randomBank)
           | None => throw (* reading [randomBank.id] of [undefined] *)
           end)
       else
         setError (Some "No unassigned banks available at the moment."))
   CATCH
     setError (Some "Failed to fetch bank details. Please try again.")
   FINALLY
     setLoading false)%prog.

(** The body sent by [handleCancel]: the held record with the assignment
    and outcome fields emptied. *)
Definition cancel_body (currentBank : Obj) : Obj :=
  <["remarks" := VString ""]>
    (<["updatedBranchName" := VString ""]>
      (<["updateAddress" := VString ""]>
        (<["response" := VString ""]>
          (<["phoneNumber" := VString ""]>
            (<["userName" := VString ""]> currentBank))))).

Definition handleCancel (userName : string) (currentBank : option Obj) : Prog :=
  match currentBank with
  | Some bank =>
      (TRY
         setLoading true ;;
         setError None ;;
         await_put (get bank "id"), (cancel_body bank) ;;
         delay 1000 ;;
         setCurrentBank None ;;
         form_reset ;;
         call (fetchUnassignedBank userName)
       CATCH
         setError (Some "Failed to cancel assignment. Please try again.")
       FINALLY
         setLoading false)%prog
  | None => skip
  end.

Definition successfulResponses : list string := ["toll_free"; "registered_only"].

(** [arr.includes(v)] for an array of strings. *)
Definition includes (arr : list string) (v : Val) : bool :=
  existsb (is_str v) arr.

Definition onSubmit (userName : string) (currentBank : option Obj) (values : Obj) : Prog :=
  match currentBank with
  | None => ret
  | Some bank =>
      (TRY
         setLoading true ;;
         setError None ;;
         when (includes successfulResponses (get values "phoneResponse")
               && falsy (get values "response"))
           (setError (Some "Response type is required for successful calls") ;; ret) ;;
         when (is_str (get values "response") "address_change"
               && falsy (get values "updateAddress"))
           (setError (Some "Updated address is required for address change") ;; ret) ;;
         when (is_str (get values "response") "branch_name_change"
               && falsy (get values "updatedBranchName"))
           (setError (Some "Updated branch name is required for branch name change") ;; ret) ;;
         when (is_str (get values "response") "bank_shift"
               && falsy (get values "updateAddress"))
           (setError (Some "Updated address is required for bank shift") ;; ret) ;;
         await_put (get bank "id"), (spread2 bank values) ;;
         setCurrentBank None ;;
         form_reset ;;
         Spawn (call (fetchUnassignedBank userName)) skip
       CATCH
         setError (Some "Failed to update bank information. Please try again.")
       FINALLY
         setLoading false)%prog
  end.

(** [parseErrorSchema(zodErrors, false)] of the resolver, as it runs with
    the default [criteriaMode]: the issues are taken in order and an issue
    is recorded only when its field has no error yet
    ([if (!errors[_path]) errors[_path] = { message, type }]), so every
    field keeps its first issue. *)
Fixpoint parseErrorSchema (zodErrors errors : list (string * string))
  : list (string * string) :=
  match zodErrors with
  | [] => errors
  | (path, message) :: rest =>
      if bool_decide (path ∈ map fst errors) then parseErrorSchema rest errors
      else parseErrorSchema rest (errors ++ [(path, message)])
  end.

(** [form.handleSubmit(onSubmit)] with the resolver [zodResolver(formSchema)]:
    the draft is parsed with the schema; when it has issues the resolver
    turns them into the field errors, one per field, and [onSubmit] is not
    called; otherwise [onSubmit] receives the parsed data. *)
Definition handleSubmit (userName : string) (currentBank : option Obj) (draft : Obj) : Prog :=
  match Schema.parse draft with
  | inr errs => SetFormErrors (parseErrorSchema errs []) skip
  | inl values => SetFormErrors [] (call (onSubmit userName currentBank values))
  end.

(** ** Running a handler *)

(** The requests and waits a handler has made, oldest first. *)
Inductive Action : Type :=
| GET
| PUT (id : Val) (bank : Obj)
| WAIT (ms : Z).

#[global] Instance Action_eq_dec : EqDecision Action.
Proof. solve_decision. Defined.

(** The state of the component and of the form. *)
Record Component : Type := {
  currentBank : option Obj ;
  loading : bool ;
  error : option string ;
  draft : Obj ;
  formErrors : list (string * string)
}.

Record World : Type := {
  comp : Component ;
  trace : list Action ;
  draws : nat ;
  pending : list Prog
}.

(** The environment: the settlement of the [i]-th action of the trace when
    it is a request, and the [i]-th value of [Math.random()]. *)
Record Oracle : Type := {
  on_get : nat -> Reply (list Obj) ;
  on_put : nat -> Reply unit ;
  on_random : nat -> spec_float
}.

Definition upd (f : Component -> Component) (w : World) : World :=
  {| comp := f (comp w) ; trace := trace w ; draws := draws w ; pending := pending w |}.

Definition with_loading (b : bool) (c : Component) : Component :=
  {| currentBank := currentBank c ; loading := b ; error := error c ;
     draft := draft c ; formErrors := formErrors c |}.
Definition with_error (e : option string) (c : Component) : Component :=
  {| currentBank := currentBank c ; loading := loading c ; error := e ;
     draft := draft c ; formErrors := formErrors c |}.
Definition with_currentBank (b : option Obj) (c : Component) : Component :=
  {| currentBank := b ; loading := loading c ; error := error c ;
     draft := draft c ; formErrors := formErrors c |}.
(** [form.reset()]: the draft returns to the default values and the field
    errors are cleared. *)
Definition with_form_reset (c : Component) : Component :=
  {| currentBank := currentBank c ; loading := loading c ; error := error c ;
     draft := defaultValues ; formErrors := [] |}.
Definition with_formErrors (errs : list (string * string)) (c : Component) : Component :=
  {| currentBank := currentBank c ; loading := loading c ; error := error c ;
     draft := draft c ; formErrors := errs |}.

Definition log (a : Action) (w : World) : World :=
  {| comp := comp w ; trace := trace w ++ [a] ; draws := draws w ; pending := pending w |}.
Definition drawn (w : World) : World :=
  {| comp := comp w ; trace := trace w ; draws := S (draws w) ; pending := pending w |}.
(** A call that was started and not awaited waits for its first reply. *)
Definition park (p : Prog) (w : World) : World :=
  match p with
  | Stop _ => w
  | _ => {| comp := comp w ; trace := trace w ; draws := draws w ;
            pending := pending w ++ [p] |}
  end.

Section Run.
Variable o : Oracle.

(** The synchronous prefix of a call: everything up to its first [await]
    of a request or a timer.  The rest of the call is returned. *)
Fixpoint run_sync (p : Prog) (w : World) : Prog * World :=
  match p with
  | Stop c => (p, w)
  | SetLoading b k => run_sync k (upd (with_loading b) w)
  | SetError e k => run_sync k (upd (with_error e) w)
  | SetCurrentBank b k => run_sync k (upd (with_currentBank b) w)
  | FormReset k => run_sync k (upd with_form_reset w)
  | SetFormErrors errs k => run_sync k (upd (with_formErrors errs) w)
  | MathRandom k => run_sync (k (on_random o (draws w))) (drawn w)
  | AxiosGet _ | AxiosPut _ _ _ | SetTimeout _ _ => (p, w)
  | Spawn p' k =>
      let '(rest, w') := run_sync p' w in
      run_sync k (park rest w')
  end.

(** A handler run until its promise settles.  A spawned call runs its
    synchronous prefix at once; its remainder is parked in [pending]. *)
Fixpoint run (p : Prog) (w : World) : Completion * World :=
  match p with
  | Stop c => (c, w)
  | SetLoading b k => run k (upd (with_loading b) w)
  | SetError e k => run k (upd (with_error e) w)
  | SetCurrentBank b k => run k (upd (with_currentBank b) w)
  | FormReset k => run k (upd with_form_reset w)
  | SetFormErrors errs k => run k (upd (with_formErrors errs) w)
  | MathRandom k => run (k (on_random o (draws w))) (drawn w)
  | AxiosGet k => run (k (on_get o (length (trace w)))) (log GET w)
  | AxiosPut id bank k =>
      run (k (on_put o (length (trace w)))) (log (PUT id bank) w)
  | SetTimeout ms k => run k (log (WAIT ms) w)
  | Spawn p' k =>
      let '(rest, w') := run_sync p' w in
      run k (park rest w')
  end.

(** The event loop resumes the oldest parked call. *)
Definition resume (w : World) : World :=
  match pending w with
  | [] => w
  | p :: rest =>
      snd (run p {| comp := comp w ; trace := trace w ; draws := draws w ;
                    pending := rest |})
  end.

End Run.

(** The PUT requests of a trace. *)
Definition puts (t : list Action) : list (Val * Obj) :=
  omap (fun a => match a with PUT id bank => Some (id, bank) | _ => None end) t.

(** A world in which the caller holds [bank] (or nothing) and nothing has
    happened yet. *)
Definition idle (bank : option Obj) : World :=
  {| comp := {| currentBank := bank ; loading := false ; error := None ;
                draft := defaultValues ; formErrors := [] |} ;
     trace := [] ; draws := 0 ; pending := [] |}.

(** ** Specification-level notions *)

(** JavaScript arrays hold at most 2^32 - 1 elements. *)
Definition MAX_ARRAY_LENGTH : Z := 2 ^ 32 - 1.

(** The descriptive fields of a record, read-only for this component. *)
Definition descriptive_fields : list string :=
  ["bankName"; "ifscCode"; "branchName"; "address"].

(** The fields of the form. *)
Definition form_fields : list string := map fst Schema.shape.

(** The fields [handleCancel] empties: the assignment field and the outcome
    fields. *)
Definition reset_fields : list string :=
  ["userName"; "phoneNumber"; "response"; "updateAddress"; "updatedBranchName"; "remarks"].

Definition digit_chars : list ascii :=
  ["0"; "1"; "2"; "3"; "4"; "5"; "6"; "7"; "8"; "9"]%char.

(** The phone number rule as the specification words it: 10 to 15
    characters, digits only, not starting with '0'. *)
Definition phone_number_rule (s : string) : Prop :=
  (10 <= String.length s <= 15)%nat
  /\ Forall (fun c => c ∈ digit_chars) (Str.chars s)
  /\ ~ (exists rest, s = String "0"%char rest).

(** The conditional requirement rules as the specification lists them, in
    order: each is the condition under which it is violated and the reason
    surfaced. *)
Definition conditional_rules : list ((Obj -> bool) * string) :=
  [ (fun values => includes successfulResponses (get values "phoneResponse")
                   && falsy (get values "response"),
     "Response type is required for successful calls") ;
    (fun values => is_str (get values "response") "address_change"
                   && falsy (get values "updateAddress"),
     "Updated address is required for address change") ;
    (fun values => is_str (get values "response") "branch_name_change"
                   && falsy (get values "updatedBranchName"),
     "Updated branch name is required for branch name change") ;
    (fun values => is_str (get values "response") "bank_shift"
                   && falsy (get values "updateAddress"),
     "Updated address is required for bank shift") ].

(** The reason of the first rule violated, if any. *)
Definition first_violation (values : Obj) : option string :=
  snd <$> List.find (fun rule => fst rule values) conditional_rules.

(** The field errors a draft gives rise to: for every field of the schema
    that raises an issue, in the order of the schema, the field with the
    message of its first issue. *)
Definition field_errors (d : Obj) : list (string * string) :=
  omap (fun kp => pair (fst kp) <$> head (Schema.issues (snd kp (get d (fst kp)))))
    Schema.shape.

(** A submission rejected locally: no request is made, the held record and
    the draft are kept, and a validation error is surfaced, either one
    field error for every field the schema objects to or, when the schema
    accepts the draft, the [reason] of the conditional rule. *)
Definition rejected_locally (d : Obj) (reason : string) (w w' : World) : Prop :=
  trace w' = trace w
  /\ pending w' = pending w
  /\ currentBank (comp w') = currentBank (comp w)
  /\ draft (comp w') = draft (comp w)
  /\ match Schema.parse d with
     | inr _ =>
         field_errors d <> []
         /\ formErrors (comp w') = field_errors d
         /\ error (comp w') = error (comp w)
     | inl _ => formErrors (comp w') = [] /\ error (comp w') = Some reason
     end.

(** An empty assignment field: [userName] is absent, the empty string or
    zero. *)
Definition empty_assignment (bank : Obj) : Prop :=
  get bank "userName" = VUndefined
  \/ get bank "userName" = VString ""
  \/ get bank "userName" = VNumber 0.

(** The merge of a record with the values of a draft: the value of the
    draft where it has one, the value of the record elsewhere. *)
Definition merge_of (bank values body : Obj) : Prop :=
  forall k, body !! k = match values !! k with
                        | Some v => Some v
                        | None => bank !! k
                        end.

(** Invariant of a right shift of [m0] by [j] bits in [SpecFloat.shr]: the
    kept part is the quotient, and the round bit is set only when the part
    shifted out is at least half a unit. *)
Definition shifted (m0 j : Z) (mrs : shr_record) : Prop :=
  (0 <= j)%Z /\ shr_m mrs = (m0 / 2 ^ j)%Z /\
  (shr_r mrs = true -> (2 ^ j <= 2 * (m0 mod 2 ^ j))%Z).

(** ** Concrete records, drafts and environments *)

Module Examples.

Definition bank1 : Obj :=
  <["id" := VNumber 1]> (<["ufi" := VNumber 1001]>
    (<["bankName" := VString "State Bank"]> (<["ifscCode" := VString "SBIN0000001"]>
      (<["branchName" := VString "Main Branch"]>
        (<["address" := VString "1 Fort Road, Mumbai"]>
          (<["userName" := VString ""]> ∅)))))).

Definition bank2 : Obj :=
  <["id" := VNumber 2]> (<["ufi" := VNumber 1002]>
    (<["bankName" := VString "City Bank"]> (<["ifscCode" := VString "CITY0000002"]>
      (<["branchName" := VString "East Branch"]>
        (<["address" := VString "2 Lake Road, Pune"]>
          (<["userName" := VString "Bob"]> ∅)))))).

(** The double 0.5. *)
Definition half : spec_float := S754_finite false (2 ^ 52) (-53).

(** The store holds [bank1] (free) and [bank2] (held by Bob); every
    request succeeds. *)
Definition store_ok : Oracle :=
  {| on_get := fun _ => Resolved [bank1; bank2] ;
     on_put := fun _ => Resolved tt ;
     on_random := fun _ => half |}.

(** The same store, but every update is rejected. *)
Definition store_put_fails : Oracle :=
  {| on_get := fun _ => Resolved [bank1; bank2] ;
     on_put := fun _ => Rejected ;
     on_random := fun _ => half |}.

(** A store in which every record is held. *)
Definition store_all_held : Oracle :=
  {| on_get := fun _ => Resolved [bank2] ;
     on_put := fun _ => Resolved tt ;
     on_random := fun _ => half |}.

(** A complete draft for an address change. *)
Definition draft_address_change : Obj :=
  <["phoneNumber" := VString "9876543210"]>
    (<["phoneResponse" := VString "toll_free"]>
      (<["response" := VString "address_change"]>
        (<["updateAddress" := VString "12 Main Road, Pune"]>
          (<["remarks" := VString "called twice"]> ∅)))).

(** What the schema makes of it. *)
Definition values_address_change : Obj := draft_address_change.

(** A successful call with no response type chosen. *)
Definition draft_no_response : Obj :=
  <["phoneNumber" := VString "9876543210"]>
    (<["phoneResponse" := VString "toll_free"]> defaultValues).

(** An address change without the new address. *)
Definition draft_no_address : Obj :=
  <["phoneNumber" := VString "9876543210"]>
    (<["phoneResponse" := VString "toll_free"]>
      (<["response" := VString "address_change"]> defaultValues)).

(** An address change with the address typed and then emptied. *)
Definition draft_empty_address : Obj :=
  <["updateAddress" := VString ""]> draft_no_address.

(** A branch name change without the new name. *)
Definition draft_no_branch_name : Obj :=
  <["phoneNumber" := VString "9876543210"]>
    (<["phoneResponse" := VString "registered_only"]>
      (<["response" := VString "branch_name_change"]> defaultValues)).

(** A bank shift without the new address. *)
Definition draft_no_shift_address : Obj :=
  <["phoneNumber" := VString "9876543210"]>
    (<["phoneResponse" := VString "toll_free"]>
      (<["response" := VString "bank_shift"]> defaultValues)).

End Examples.

Ltac run_step :=
  cbn [run run_sync on_completion try_finally try_catch seq call when
       setLoading setError setCurrentBank form_reset delay axios_get axios_put
       skip throw ret trace draws comp pending log upd drawn].


(** ** The identity holder

    The caller's display name lives in the component state ([userName]) and
    in the browser's [localStorage] under the key ["userName"]. *)

Module Identity.

Record State : Type := {
  userName : string ;
  localStorage : gmap string string
}.

(** [useState(() => localStorage.getItem('userName') || '')] *)
Definition init (storage : gmap string string) : State :=
  {| userName := default "" (storage !! "userName") ; localStorage := storage |}.

(** [s.trim()] *)
Definition trim (s : string) : string :=
  string_of_list_ascii (Str.trim (Str.chars s)).

(** A string is truthy when it is not empty. *)
Definition truthy (s : string) : bool := negb (bool_decide (s = "")).

Definition handleNameSubmit (name : string) (st : State) : State :=
  if truthy (trim name) then
    {| userName := trim name ;
       localStorage := <["userName" := trim name]> (localStorage st) |}
  else st.

(** [window.prompt] returns the text entered, or [null] when the dialog is
    dismissed; [newName?.trim()] is then [undefined]. *)
Definition handleNameChange (answer : option string) (st : State) : State :=
  match answer with
  | Some newName =>
      if truthy (trim newName) then
        {| userName := trim newName ;
           localStorage := <["userName" := trim newName]> (localStorage st) |}
      else st
  | None => st
  end.

(** The submit handler of the name form: [nameInput?.value] guards the call. *)
Definition name_form_submit (value : option string) (st : State) : State :=
  match value with
  | Some v => if truthy v then handleNameSubmit v st else st
  | None => st
  end.

(** What a caller can do to the identity. *)
Inductive Action : Type :=
| SubmitName (value : option string)
| ChangeName (answer : option string).

Definition step (st : State) (a : Action) : State :=
  match a with
  | SubmitName value => name_form_submit value st
  | ChangeName answer => handleNameChange answer st
  end.

(** No white space at either end. *)
Definition trimmed (s : string) : Prop :=
  (forall c rest, Str.chars s = c :: rest -> Str.is_space c = false)
  /\ (forall c front, Str.chars s = front ++ [c] -> Str.is_space c = false).

End Identity.


(** ** The QR payload ([generateQRCodeData])

    [URLSearchParams] serialises its pairs in the
    application/x-www-form-urlencoded format: the UTF-8 bytes of names and
    values are kept when they are ASCII letters, digits or one of [*-._],
    a space becomes [+], any other byte becomes [%] and two upper-case
    hexadecimal digits; pairs are written [name=value] and joined by [&]. *)

Module QR.

Definition BACKEND_URL : string := "http://localhost:4000/api".

(** The string a property value converts to.  A Number is an integer here;
    its decimal form is what JavaScript prints below 10^21. *)
Definition to_text (v : Val) : string :=
  match v with
  | VUndefined => "undefined"
  | VString s => s
  | VNumber n => pretty n
  end.

(** [v.toString()]: reading [toString] of [undefined] throws. *)
Definition toString (v : Val) : option string :=
  match v with
  | VUndefined => None
  | _ => Some (to_text v)
  end.

(** The UTF-8 bytes of a code unit below 256. *)
Definition utf8 (c : ascii) : list nat :=
  let n := nat_of_ascii c in
  if (n <? 128)%nat then [n] else [192 + n / 64; 128 + n mod 64]%nat.

Definition hex_digit (n : nat) : ascii :=
  ascii_of_nat (if (n <? 10)%nat then 48 + n else 55 + n).

(** The bytes the serialiser keeps as they are. *)
Definition unreserved (b : nat) : bool :=
  ((48 <=? b) && (b <=? 57) || (65 <=? b) && (b <=? 90) || (97 <=? b) && (b <=? 122)
   || (b =? 42) || (b =? 45) || (b =? 46) || (b =? 95))%nat.

Definition encode_byte (b : nat) : list ascii :=
  if unreserved b then [ascii_of_nat b]
  else if (b =? 32)%nat then ["+"%char]
  else ["%"%char; hex_digit (b / 16); hex_digit (b mod 16)].

Definition encode_char (c : ascii) : list ascii := flat_map encode_byte (utf8 c).

Definition urlencode (s : string) : list ascii := flat_map encode_char (Str.chars s).

(** [params.toString()] *)
Fixpoint serialize (params : list (string * string)) : list ascii :=
  match params with
  | [] => []
  | [(name, value)] => urlencode name ++ "="%char :: urlencode value
  | (name, value) :: rest =>
      urlencode name ++ "="%char :: urlencode value ++ "&"%char :: serialize rest
  end.

(** The parameters of the payload, in the order of the object literal;
    [now] is [new Date().toISOString()]. *)
Definition qr_params (id ufi : string) (bank : Obj) (now : string) : list (string * string) :=
  [ ("bankId", id) ;
    ("bankName", to_text (get bank "bankName")) ;
    ("branchName", to_text (get bank "branchName")) ;
    ("ifscCode", to_text (get bank "ifscCode")) ;
    ("ufi", ufi) ;
    ("address", to_text (get bank "address")) ;
    ("timestamp", now) ].

(** [generateQRCodeData(bank)]; [None] when it throws. *)
Definition generateQRCodeData (bank : Obj) (now : string) : option string :=
  match toString (get bank "id") with
  | None => None
  | Some id =>
      match toString (get bank "ufi") with
      | None => None
      | Some ufi =>
          Some (BACKEND_URL ++ "/bank-update?"
                ++ string_of_list_ascii (serialize (qr_params id ufi bank now)))%string
      end
  end.

(** The fields of a record the payload carries. *)
Definition payload_fields : list string :=
  ["id"; "bankName"; "branchName"; "ifscCode"; "ufi"; "address"].

(** The characters an encoded name or value is made of. *)
Definition encoded_char (c : ascii) : bool :=
  unreserved (nat_of_ascii c) || Str.is_char "+" c || Str.is_char "%" c.

Definition hex_value (c : ascii) : nat :=
  let n := nat_of_ascii c in
  if (n <? 58)%nat then n - 48 else n - 55.

(** Percent-decoding as the receiving end does it: the inverse of
    [urlencode] on its image. *)
Fixpoint urldecode (cs : list ascii) : list ascii :=
  match cs with
  | [] => []
  | c :: rest =>
      if Str.is_char "+" c then " "%char :: urldecode rest
      else if Str.is_char "%" c then
        match rest with
        | h :: l :: rest' =>
            let b := (16 * hex_value h + hex_value l)%nat in
            if (b <? 128)%nat then ascii_of_nat b :: urldecode rest'
            else
              match rest' with
              | _ :: h2 :: l2 :: rest'' =>
                  let b2 := (16 * hex_value h2 + hex_value l2)%nat in
                  ascii_of_nat ((b - 192) * 64 + (b2 - 128)) :: urldecode rest''
              | _ => []
              end
        | _ => []
        end
      else c :: urldecode rest
  end.

End QR.


(** ** Letters: fetching every record and generating a letter per record

    [fetchAllBanks] and [handleGenerateAllPDFs] touch their own slice of
    the component state.  An async function is a state transformer whose
    promise resolves or rejects; the QR encoder, the PDF renderer and the
    store answer by the number of the call. *)

Module Letters.

Record State : Type := {
  allBanks : list Obj ;
  loading : bool ;
  error : option string ;
  generatingPDFs : bool ;
  (** the [download] names of the links clicked, oldest first *)
  downloads : list string ;
  (** milliseconds spent in [setTimeout] *)
  waited : Z ;
  (** calls made to the store and the libraries *)
  calls : nat
}.

Record Env : Type := {
  (** [new Date().toISOString()] *)
  now : nat -> string ;
  (** [QRCode.toDataURL(qrData, options)] *)
  toDataURL : nat -> string -> Reply string ;
  (** [pdf(<BankLetterPDF bank qrCodeUrl />).toBlob()] *)
  toBlob : nat -> Obj -> string -> Reply unit ;
  (** [axios.get(SHEETY_API)] and [response.data.banks] *)
  get_banks : nat -> Reply (list Obj)
}.

Definition M (A : Type) : Type := State -> Reply A * State.

#[global] Instance M_ret : MRet M := fun A a st => (Resolved a, st).
#[global] Instance M_bind : MBind M := fun A B k m st =>
  match m st with
  | (Resolved a, st') => k a st'
  | (Rejected, st') => (Rejected, st')
  end.

Definition reject {A : Type} : M A := fun st => (Rejected, st).

(** [try { m } catch (error) { h }] *)
Definition catch {A : Type} (m h : M A) : M A := fun st =>
  match m st with
  | (Rejected, st') => h st'
  | settled => settled
  end.

(** [try { m } finally { f }] *)
Definition finally {A : Type} (m : M A) (f : M unit) : M A := fun st =>
  let '(r, st') := m st in
  match f st' with
  | (Resolved _, st'') => (r, st'')
  | (Rejected, st'') => (Rejected, st'')
  end.

(** [for (const x of xs) { body }] *)
Fixpoint for_of {A : Type} (xs : list A) (body : A -> M unit) : M unit :=
  match xs with
  | [] => mret tt
  | x :: rest => body x ;; for_of rest body
  end.

(** [await promise] *)
Definition await {A : Type} (settled : Reply A) : M A := fun st =>
  (settled, {| allBanks := allBanks st ; loading := loading st ; error := error st ;
               generatingPDFs := generatingPDFs st ; downloads := downloads st ;
               waited := waited st ; calls := S (calls st) |}).

Definition call_number : M nat := fun st => (Resolved (calls st), st).

Definition setAllBanks (banks : list Obj) : M unit := fun st =>
  (Resolved tt, {| allBanks := banks ; loading := loading st ; error := error st ;
                   generatingPDFs := generatingPDFs st ; downloads := downloads st ;
                   waited := waited st ; calls := calls st |}).
Definition setLoading (b : bool) : M unit := fun st =>
  (Resolved tt, {| allBanks := allBanks st ; loading := b ; error := error st ;
                   generatingPDFs := generatingPDFs st ; downloads := downloads st ;
                   waited := waited st ; calls := calls st |}).
Definition setError (e : option string) : M unit := fun st =>
  (Resolved tt, {| allBanks := allBanks st ; loading := loading st ; error := e ;
                   generatingPDFs := generatingPDFs st ; downloads := downloads st ;
                   waited := waited st ; calls := calls st |}).
Definition setGeneratingPDFs (b : bool) : M unit := fun st =>
  (Resolved tt, {| allBanks := allBanks st ; loading := loading st ; error := error st ;
                   generatingPDFs := b ; downloads := downloads st ;
                   waited := waited st ; calls := calls st |}).
(** The link is given its [download] name and clicked. *)
Definition click_download (fileName : string) : M unit := fun st =>
  (Resolved tt, {| allBanks := allBanks st ; loading := loading st ; error := error st ;
                   generatingPDFs := generatingPDFs st ;
                   downloads := downloads st ++ [fileName] ;
                   waited := waited st ; calls := calls st |}).
(** [await new Promise(resolve => setTimeout(resolve, ms))] *)
Definition sleep (ms : Z) : M unit := fun st =>
  (Resolved tt, {| allBanks := allBanks st ; loading := loading st ; error := error st ;
                   generatingPDFs := generatingPDFs st ; downloads := downloads st ;
                   waited := (waited st + ms)%Z ; calls := calls st |}).

(** [s.replace(/\s+/g, '_')] on the characters: every maximal run of white
    space becomes one underscore; [in_run] tells that the previous
    character was white space. *)
Fixpoint replace_runs (in_run : bool) (cs : list ascii) : list ascii :=
  match cs with
  | [] => []
  | c :: rest =>
      if Str.is_space c then
        if in_run then replace_runs true rest else "_"%char :: replace_runs true rest
      else c :: replace_runs false rest
  end.

Definition sanitize (s : string) : string :=
  string_of_list_ascii (replace_runs false (Str.chars s)).

(** [v.replace(/\s+/g, '_')]: only a string has [replace]. *)
Definition replace_spaces (v : Val) : option string :=
  match v with
  | VString s => Some (sanitize s)
  | _ => None
  end.

(** The [download] name in bulk mode:
    [`${bank.bankName.replace(/\s+/g, '_')}_${bank.branchName.replace(/\s+/g, '_')}_letter.pdf`];
    [None] when it throws. *)
Definition bulk_fileName (bank : Obj) : option string :=
  match replace_spaces (get bank "bankName"), replace_spaces (get bank "branchName") with
  | Some bankName, Some branchName =>
      Some (bankName ++ "_" ++ branchName ++ "_letter.pdf")%string
  | _, _ => None
  end.

(** The [fileName] of the single letter:
    [`${currentBank.bankName.replace(/\s+/g, '_')}_letter.pdf`]. *)
Definition letter_fileName (bank : Obj) : option string :=
  match replace_spaces (get bank "bankName") with
  | Some bankName => Some (bankName ++ "_letter.pdf")%string
  | None => None
  end.

Section Handlers.
Variable env : Env.

Definition fetchAllBanks : M unit :=
  finally
    (catch
       (setLoading true ;;
        setError None ;;
        k ← call_number ;
        banks ← await (get_banks env k) ;
        setAllBanks banks)
       (setError (Some "Failed to fetch all banks. Please try again.")))
    (setLoading false).

Definition generateQRCodeForBank (bank : Obj) : M string :=
  catch
    (k ← call_number ;
     match QR.generateQRCodeData bank (now env k) with
     | Some qrData => await (toDataURL env k qrData)
     | None => reject
     end)
    (mret "").

(** The body of the loop of [handleGenerateAllPDFs]. *)
Definition generate_letter (bank : Obj) : M unit :=
  qrCodeUrl ← generateQRCodeForBank bank ;
  if Identity.truthy qrCodeUrl then
    k ← call_number ;
    await (toBlob env k bank qrCodeUrl) ;;
    match bulk_fileName bank with
    | Some fileName =>
        click_download fileName ;;
        sleep 1000
    | None => reject
    end
  else mret tt.

Definition handleGenerateAllPDFs (allBanks : list Obj) : M unit :=
  setGeneratingPDFs true ;;
  finally
    (catch
       (for_of allBanks generate_letter)
       (setError (Some "Failed to generate PDFs. Please try again.")))
    (setGeneratingPDFs false).

End Handlers.

(** A freshly mounted component. *)
Definition mounted : State :=
  {| allBanks := [] ; loading := false ; error := None ; generatingPDFs := false ;
     downloads := [] ; waited := 0 ; calls := 0 |}.

(** No white space in a string. *)
Definition no_space (s : string) : Prop :=
  Forall (fun c => Str.is_space c = false) (Str.chars s).

(** What the loop of [handleGenerateAllPDFs] does to the state between two
    of its points: the links in [names] were clicked, one second was waited
    after each, and nothing else changed but the number of calls. *)
Definition progress (st st' : State) (names : list string) : Prop :=
  allBanks st' = allBanks st
  /\ loading st' = loading st
  /\ error st' = error st
  /\ generatingPDFs st' = generatingPDFs st
  /\ downloads st' = downloads st ++ names
  /\ waited st' = (waited st + 1000 * Z.of_nat (length names))%Z
  /\ (calls st <= calls st')%nat.

(** The records bulk generation can make a QR payload for. *)
Definition has_payload (bank : Obj) : bool :=
  negb (bool_decide (get bank "id" = VUndefined))
  && negb (bool_decide (get bank "ufi" = VUndefined)).

End Letters.


(** ** The rules of the outcome fields, as properties of strings *)

(** An updated address: 10 to 200 characters, each a letter, a digit, white
    space, a comma, a dot or a hyphen, and at least three pieces between
    single spaces once trimmed, that is at least two spaces. *)
Definition address_rule (a : string) : Prop :=
  (10 <= String.length a <= 200)%nat
  /\ Forall (fun c => Str.address_class c = true) (Str.chars a)
  /\ (2 <= count_occ ascii_dec (Str.trim (Str.chars a)) " "%char)%nat.

(** An updated branch name: 3 to 100 characters, each a letter, a digit,
    white space or a hyphen, the first one a capital letter. *)
Definition branch_name_rule (b : string) : Prop :=
  (3 <= String.length b <= 100)%nat
  /\ Forall (fun c => Str.branch_class c = true) (Str.chars b)
  /\ exists c rest, b = String c rest /\ Str.is_upper c = true.

(** What a submitted outcome satisfies: the field rules and the conditional
    requirements. *)
Definition outcome_valid (values : Obj) : Prop :=
  (exists s, get values "phoneNumber" = VString s /\ phone_number_rule s)
  /\ (exists p, get values "phoneResponse" = VString p
                /\ p ∈ Schema.phoneResponse_options
                /\ (p ∈ successfulResponses -> get values "response" <> VUndefined))
  /\ (get values "response" = VUndefined
      \/ exists r, get values "response" = VString r /\ r ∈ Schema.response_options)
  /\ (get values "response" = VString "address_change"
      \/ get values "response" = VString "bank_shift" ->
      exists a, get values "updateAddress" = VString a /\ address_rule a)
  /\ (get values "response" = VString "branch_name_change" ->
      exists b, get values "updatedBranchName" = VString b /\ branch_name_rule b)
  /\ (exists r, get values "remarks" = VString r /\ (String.length r <= 500)%nat).

(** A draft that follows the field rules and the conditional requirements:
    what a caller has to fill in for a submission to go through. *)
Definition draft_valid (d : Obj) : Prop :=
  (exists s, get d "phoneNumber" = VString s /\ phone_number_rule s)
  /\ (exists p, get d "phoneResponse" = VString p
                /\ p ∈ Schema.phoneResponse_options
                /\ (p ∈ successfulResponses -> get d "response" <> VUndefined))
  /\ (get d "response" = VUndefined
      \/ exists r, get d "response" = VString r /\ r ∈ Schema.response_options)
  /\ (get d "updateAddress" = VUndefined
      \/ exists a, get d "updateAddress" = VString a /\ address_rule a)
  /\ (get d "updatedBranchName" = VUndefined
      \/ exists b, get d "updatedBranchName" = VString b /\ branch_name_rule b)
  /\ (get d "remarks" = VUndefined
      \/ exists r, get d "remarks" = VString r /\ (String.length r <= 500)%nat)
  /\ (get d "response" = VString "address_change"
      \/ get d "response" = VString "bank_shift" ->
      get d "updateAddress" <> VUndefined)
  /\ (get d "response" = VString "branch_name_change" ->
      get d "updatedBranchName" <> VUndefined).

(** Every update of a trace addresses the record it carries. *)
Definition well_addressed (a : Action) : Prop :=
  match a with
  | PUT id bank => get bank "id" = id
  | _ => True
  end.

(** Membership of a field in the shape of the schema. *)
Ltac in_shape := apply list_elem_of_In; simpl; tauto.


(** ** The first revision of the form

    The earlier [BankAssignment] has the same selector and cancel handler,
    a smaller schema and three conditional checks, one of them for a
    combined change of name and address. *)

Module V1.

(** [z.string().min(10, ..).max(15, ..)] *)
Definition phoneNumber (v : Val) : Schema.Parsed :=
  match v with
  | VString s =>
      {| Schema.out := v ;
         Schema.issues :=
           Schema.check (10 <=? Str.length s)%Z "Phone number must be at least 10 digits"
           ++ Schema.check (Str.length s <=? 15)%Z "Phone number must not exceed 15 digits" |}
  | VUndefined => Schema.bad v "Required"
  | VNumber _ => Schema.bad v "Expected string, received number"
  end.

Definition response_options : list string :=
  ["address_change"; "name_change"; "name_and_address_change"].

(** [z.enum([...], { required_error: .. })] *)
Definition response (v : Val) : Schema.Parsed :=
  match v with
  | VString s =>
      if bool_decide (s ∈ response_options) then Schema.ok v
      else Schema.bad v (Schema.invalid_enum_value response_options s)
  | VUndefined => Schema.bad v "Please select a response type"
  | VNumber _ =>
      Schema.bad v (Schema.invalid_type (Schema.joinValues response_options) "number")
  end.

(** [z.string().optional()] *)
Definition optional_string (v : Val) : Schema.Parsed :=
  match v with
  | VUndefined | VString _ => Schema.ok v
  | VNumber _ => Schema.bad v "Expected string, received number"
  end.

(** [z.string().min(1, "Please enter remarks")] *)
Definition remarks (v : Val) : Schema.Parsed :=
  match v with
  | VString s =>
      {| Schema.out := v ;
         Schema.issues := Schema.check (1 <=? Str.length s)%Z "Please enter remarks" |}
  | VUndefined => Schema.bad v "Required"
  | VNumber _ => Schema.bad v "Expected string, received number"
  end.

Definition shape : list (string * (Val -> Schema.Parsed)) :=
  [ ("phoneNumber", phoneNumber) ;
    ("response", response) ;
    ("updateAddress", optional_string) ;
    ("updatedBranchName", optional_string) ;
    ("remarks", remarks) ].

Definition parse (input : Obj) : Obj + list (string * string) :=
  match Schema.parse_fields shape input with
  | (o, []) => inl o
  | (_, errs) => inr errs
  end.

Definition onSubmit (userName : string) (currentBank : option Obj) (values : Obj) : Prog :=
  match currentBank with
  | None => ret
  | Some bank =>
      (TRY
         setLoading true ;;
         setError None ;;
         when (is_str (get values "response") "address_change"
               && falsy (get values "updateAddress"))
           (setError (Some "Updated address is required for address change") ;; ret) ;;
         when (is_str (get values "response") "name_change"
               && falsy (get values "updatedBranchName"))
           (setError (Some "Updated branch name is required for name change") ;; ret) ;;
         when (is_str (get values "response") "name_and_address_change"
               && (falsy (get values "updateAddress")
                   || falsy (get values "updatedBranchName")))
           (setError (Some "Both updated address and branch name are required") ;; ret) ;;
         await_put (get bank "id"), (spread2 bank values) ;;
         setCurrentBank None ;;
         form_reset ;;
         Spawn (call (fetchUnassignedBank userName)) skip
       CATCH
         setError (Some "Failed to update bank information. Please try again.")
       FINALLY
         setLoading false)%prog
  end.

(** [form.handleSubmit(onSubmit)] with the resolver of this revision. *)
Definition handleSubmit (userName : string) (currentBank : option Obj) (draft : Obj) : Prog :=
  match parse draft with
  | inr errs => SetFormErrors (parseErrorSchema errs []) skip
  | inl values => SetFormErrors [] (call (onSubmit userName currentBank values))
  end.

(** A string that is not empty. *)
Definition filled (v : Val) : Prop := exists s, v = VString s /\ s <> "".

(** The conditional outcome invariant of a record: an address change has
    an updated address, a name change an updated branch name, a combined
    change both. *)
Definition outcome_invariant (values : Obj) : Prop :=
  (exists r, get values "response" = VString r /\ r ∈ response_options)
  /\ (get values "response" = VString "address_change" ->
      filled (get values "updateAddress"))
  /\ (get values "response" = VString "name_change" ->
      filled (get values "updatedBranchName"))
  /\ (get values "response" = VString "name_and_address_change" ->
      filled (get values "updateAddress") /\ filled (get values "updatedBranchName")).

End V1.


(** ** More sample data *)

Module Cases.

(** A record with no [ufi]: no payload can be made for it. *)
Definition bank_no_ufi : Obj :=
  <["id" := VNumber 3]> (<["bankName" := VString "Rural Bank"]>
    (<["branchName" := VString "North Branch"]> ∅)).

(** A record with a payload but no names. *)
Definition bank_no_names : Obj :=
  <["id" := VNumber 4]> (<["ufi" := VNumber 1004]> ∅).

(** [bank1] as held by Alice: the payload does not carry the holder. *)
Definition bank1_held : Obj := <["userName" := VString "Alice"]> Examples.bank1.

Definition instant : string := "2024-01-01T00:00:00.000Z".

(** The payload of [bank1] at [instant]. *)
Definition payload1 : string :=
  "http://localhost:4000/api/bank-update?bankId=1&bankName=State+Bank&branchName=Main+Branch&ifscCode=SBIN0000001&ufi=1001&address=1+Fort+Road%2C+Mumbai&timestamp=2024-01-01T00%3A00%3A00.000Z".

(** Libraries that always succeed. *)
Definition libraries_ok : Letters.Env :=
  {| Letters.now := fun _ => instant ;
     Letters.toDataURL := fun _ data => Resolved ("data:image/png;base64," ++ data)%string ;
     Letters.toBlob := fun _ _ _ => Resolved tt ;
     Letters.get_banks := fun _ => Resolved [Examples.bank1; Examples.bank2] |}.

(** An encoder that rejects every payload. *)
Definition encoder_fails : Letters.Env :=
  {| Letters.now := fun _ => instant ;
     Letters.toDataURL := fun _ _ => Rejected ;
     Letters.toBlob := fun _ _ _ => Resolved tt ;
     Letters.get_banks := fun _ => Resolved [Examples.bank1; Examples.bank2] |}.

(** A store that cannot be read. *)
Definition store_get_fails : Oracle :=
  {| on_get := fun _ => Rejected ;
     on_put := fun _ => Resolved tt ;
     on_random := fun _ => Examples.half |}.

End Cases.

(** * Properties

    ** Binary64 rounding of the random index *)

Module F64Facts.
Import F64.
Local Open Scope Z_scope.

Lemma digits2_size m : digits2_pos m = Pos.size m.
Proof. induction m; simpl; congruence. Qed.

Lemma digits_bounds m :
  2 ^ (Z.pos (digits2_pos m) - 1) <= Z.pos m < 2 ^ Z.pos (digits2_pos m).
Proof.
  rewrite digits2_size. split.
  - pose proof (Pos.size_le m) as H.
    assert (Hz : 2 ^ Z.pos (Pos.size m) <= 2 * Z.pos m).
    { change 2 with (Z.pos 2) at 1. rewrite <- Pos2Z.inj_pow. 
      change (2 * Z.pos m) with (Z.pos m~0). apply Pos2Z.pos_le_pos. exact H. }
    replace (Z.pos (Pos.size m)) with (Z.pos (Pos.size m) - 1 + 1) in Hz by lia.
    rewrite Z.pow_add_r in Hz by lia. lia.
  - pose proof (Pos.size_gt m) as H.
    change 2 with (Z.pos 2). rewrite <- Pos2Z.inj_pow. apply Pos2Z.pos_lt_pos. exact H.
Qed.

Lemma shifted_init m0 : shifted m0 0 (shr_record_of_loc m0 loc_Exact).
Proof. unfold shifted; simpl. rewrite Z.div_1_r. repeat split; [lia | discriminate]. Qed.

Lemma shifted_step m0 j mrs :
  0 <= m0 -> shifted m0 j mrs -> shifted m0 (j + 1) (shr_1 mrs).
Proof.
  intros Hm0 (Hj & Hm & Hr).
  assert (Hp : 0 < 2 ^ j) by (apply Z.pow_pos_nonneg; lia).
  assert (Hpow : 2 ^ (j + 1) = 2 ^ j * 2) by (rewrite Z.pow_add_r by lia; reflexivity).
  assert (Hdd : m0 / 2 ^ (j + 1) = m0 / 2 ^ j / 2).
  { rewrite Hpow, Z.div_div by lia. reflexivity. }
  pose proof (Z.div_mod m0 (2 ^ j) ltac:(lia)) as Hdm.
  pose proof (Z.mod_pos_bound m0 (2 ^ j) Hp) as Hmb.
  pose proof (Z.div_mod m0 (2 ^ (j + 1)) ltac:(lia)) as Hdm'.
  destruct mrs as [m r s]; simpl in Hm, Hr |- *.
  unfold shifted. split; [lia|].
  assert (HxI : forall p, Z.pos p~1 / 2 = Z.pos p).
  { intros p. rewrite Pos2Z.inj_xI. symmetry. apply Z.div_unique with 1; lia. }
  assert (HxO : forall p, Z.pos p~0 / 2 = Z.pos p).
  { intros p. rewrite Pos2Z.inj_xO. symmetry. apply Z.div_unique with 0; lia. }
  destruct m as [|[p|p|]|p]; simpl; rewrite Hdd, <- Hm in *.
  - split; [reflexivity | discriminate].
  - rewrite HxI in *. split; [reflexivity|]. intros _. lia.
  - rewrite HxO. split; [reflexivity | discriminate].
  - change (1 / 2) with 0 in *. split; [reflexivity|]. intros _. lia.
  - exfalso. assert (0 <= m0 / 2 ^ j) by (apply Z.div_pos; lia). lia.
Qed.

Lemma shifted_iter m0 p : 0 <= m0 ->
  forall j mrs, shifted m0 j mrs -> shifted m0 (j + Z.pos p) (SpecFloat.iter_pos shr_1 p mrs).
Proof.
  intros Hm0. induction p as [p IH|p IH|]; intros j mrs H; simpl.
  - apply shifted_step in H; [|assumption]. apply IH in H. apply IH in H.
    replace (j + Z.pos p~1) with (j + 1 + Z.pos p + Z.pos p) by lia. exact H.
  - apply IH in H. apply IH in H.
    replace (j + Z.pos p~0) with (j + Z.pos p + Z.pos p) by lia. exact H.
  - apply shifted_step; assumption.
Qed.

Lemma shr_exact m0 e k :
  0 <= m0 ->
  let '(mrs, e') := shr (shr_record_of_loc m0 loc_Exact) e k in
  (k <= 0 /\ mrs = shr_record_of_loc m0 loc_Exact /\ e' = e)
  \/ (0 < k /\ e' = e + k /\ shifted m0 k mrs).
Proof.
  intros Hm0. destruct k as [|p|p]; simpl.
  - left. repeat split; lia.
  - right. split; [lia|]. split; [reflexivity|].
    apply (shifted_iter m0 p Hm0 0), shifted_init.
  - left. repeat split; lia.
Qed.

Lemma round_nearest_even_bounds mrs :
  let m := round_nearest_even (shr_m mrs) (loc_of_shr_record mrs) in
  shr_m mrs <= m <= shr_m mrs + 1 /\ (m = shr_m mrs + 1 -> shr_r mrs = true).
Proof.
  destruct mrs as [m [] []]; simpl; try destruct (Z.even m); split; try lia; auto.
Qed.

(** Rounding to nearest of [m0 * 2^E]: the result [m3 * 2^e3] is exact when
    no bit is shifted out, and exceeds the operand by at most half a unit
    of the last place otherwise. *)
Lemma binary_round_aux_bound (m0 : positive) (E : Z) :
  let k := fexp prec emax (Zdigits2 (Z.pos m0) + E) - E in
  exists m3 e3,
    0 <= m3 /\ E <= e3 /\
    (k <= 0 -> m3 = Z.pos m0 /\ e3 = E) /\
    (0 < k -> m3 * 2 ^ (e3 - E) <= Z.pos m0 + 2 ^ (k - 1)) /\
    binary_round_aux prec emax false (Z.pos m0) E loc_Exact =
      match m3 with
      | Z0 => S754_zero false
      | Z.pos m => if e3 <=? emax - prec then S754_finite false m e3
                   else S754_infinity false
      | Z.neg _ => S754_nan
      end.
Proof.
  intros k. unfold binary_round_aux, shr_fexp. fold k.
  pose proof (shr_exact (Z.pos m0) E k ltac:(lia)) as H1.
  destruct (shr (shr_record_of_loc (Z.pos m0) loc_Exact) E k) as [mrs1 e1].
  pose proof (round_nearest_even_bounds mrs1) as Hr. cbv zeta in Hr.
  set (m2 := round_nearest_even (shr_m mrs1) (loc_of_shr_record mrs1)) in *.
  set (k2 := fexp prec emax (Zdigits2 m2 + e1) - e1).
  assert (Hm1 : 0 <= shr_m mrs1).
  { destruct H1 as [(_ & -> & _)|(Hk & _ & _ & -> & _)]; simpl; [lia|].
    apply Z.div_pos; [lia | apply Z.pow_pos_nonneg; lia]. }
  assert (Hm2 : 0 <= m2) by lia.
  pose proof (shr_exact m2 e1 k2 Hm2) as H2.
  destruct (shr (shr_record_of_loc m2 loc_Exact) e1 k2) as [mrs2 e2].
  exists (shr_m mrs2), e2.
  assert (Hm3 : 0 <= shr_m mrs2 /\ e1 <= e2 /\ shr_m mrs2 * 2 ^ (e2 - e1) <= m2).
  { destruct H2 as [(_ & -> & ->)|(Hk2 & -> & _ & -> & _)]; simpl.
    - rewrite Z.sub_diag. lia.
    - assert (0 < 2 ^ k2) by (apply Z.pow_pos_nonneg; lia).
      replace (e1 + k2 - e1) with k2 by lia.
      split; [apply Z.div_pos; lia|]. split; [lia|].
      rewrite Z.mul_comm. apply Z.mul_div_le. lia. }
  destruct Hm3 as (Hm3 & He12 & Hv).
  destruct H1 as [(Hk & -> & ->)|(Hk & -> & Hj & Hs & Hrr)].
  - (* nothing shifted out *)
    simpl in m2, Hr. subst m2. 
    assert (k2 = k) by reflexivity.
    destruct H2 as [(_ & -> & ->)|(Hk2 & _)]; [|lia]. simpl.
    repeat split; try lia.
  - repeat split; try lia.
    intros _.
    assert (Hpk : 2 ^ k = 2 * 2 ^ (k - 1)).
    { replace k with (k - 1 + 1) at 1 by lia. rewrite Z.pow_add_r by lia. lia. }
    assert (0 < 2 ^ (k - 1)) by (apply Z.pow_pos_nonneg; lia).
    assert (Hpe : 2 ^ (e2 - E) = 2 ^ (e2 - (E + k)) * 2 ^ k).
    { rewrite <- Z.pow_add_r by lia. f_equal; lia. }
    pose proof (Z.div_mod (Z.pos m0) (2 ^ k) ltac:(lia)) as Hdm.
    pose proof (Z.mod_pos_bound (Z.pos m0) (2 ^ k) ltac:(lia)) as Hmb.
    rewrite <- Hs in Hdm.
    assert (Hm2k : m2 * 2 ^ k <= Z.pos m0 + 2 ^ (k - 1)).
    { destruct (Z.eq_dec m2 (shr_m mrs1 + 1)) as [Heq|Hne].
      - apply Hr in Heq. apply Hrr in Heq. nia.
      - assert (m2 = shr_m mrs1) by lia. nia. }
    rewrite Hpe. 
    assert (shr_m mrs2 * 2 ^ (e2 - (E + k)) * 2 ^ k <= m2 * 2 ^ k) by nia.
    lia.
Qed.

Lemma iter_xO_spec (p d : positive) :
  Z.pos (Pos.iter xO p d) = Z.pos p * 2 ^ Z.pos d /\
  Z.pos (digits2_pos (Pos.iter xO p d)) = Z.pos (digits2_pos p) + Z.pos d.
Proof.
  induction d as [|d IH] using Pos.peano_ind.
  - simpl. split; lia.
  - rewrite Pos.iter_succ. destruct IH as [IH1 IH2]. simpl digits2_pos.
    rewrite Pos2Z.inj_xO, Pos2Z.inj_succ, IH1, Z.pow_succ_r by lia. lia.
Qed.

Lemma fexp_eq e : fexp prec emax e = Z.max (e - 53) (-1074).
Proof. reflexivity. Qed.

(** An array length below 2^53 is a double exactly. *)
Lemma of_nat_exact (n : nat) :
  1 <= Z.of_nat n < 2 ^ 53 ->
  exists my ey,
    of_nat n = S754_finite false my ey /\ ey <= 0 /\
    Z.pos my = Z.of_nat n * 2 ^ (- ey) /\ Z.pos my < 2 ^ 53.
Proof.
  intros Hn. unfold of_nat, binary_normalize.
  destruct (Z.of_nat n) as [|p|p] eqn:Hp; try lia.
  unfold binary_round.
  pose proof (digits_bounds p) as Hd.
  set (d := Z.pos (digits2_pos p)) in *.
  assert (Hd53 : d <= 53).
  { destruct (Z_le_gt_dec d 53) as [|Hgt]; [assumption|exfalso].
    assert (2 ^ 53 <= 2 ^ (d - 1)) by (apply Z.pow_le_mono_r; lia). lia. }
  assert (Hd1 : 1 <= d) by (unfold d; lia).
  assert (Hal : exists mz, shl_align p 0 (fexp prec emax (d + 0)) = (mz, d - 53)
                 /\ Z.pos mz = Z.pos p * 2 ^ (53 - d)
                 /\ Z.pos (digits2_pos mz) = 53).
  { rewrite fexp_eq. unfold shl_align.
    replace (Z.max (d + 0 - 53) (-1074) - 0) with (d - 53) by lia.
    destruct (d - 53) as [|q|q] eqn:Hq; try lia.
    - exists p. replace (Z.max (d + 0 - 53) (-1074)) with 0 by lia.
      replace (53 - d) with 0 by lia. repeat split; [lia | fold d; lia].
    - exists (Pos.iter xO p q). replace (Z.max (d + 0 - 53) (-1074)) with (Z.neg q) by lia.
      destruct (iter_xO_spec p q) as [H1 H2].
      replace (53 - d) with (Z.pos q) by lia. fold d in H2.
      repeat split; [assumption | lia]. }
  destruct Hal as (mz & -> & Hmz & Hdz).
  destruct (binary_round_aux_bound mz (d - 53)) as (m3 & e3 & _ & _ & Hex & _ & ->).
  destruct Hex as [-> ->].
  { simpl Zdigits2. rewrite Hdz, fexp_eq. lia. }
  exists mz, (d - 53).
  replace (d - 53 <=? emax - prec) with true
    by (symmetry; apply Z.leb_le; unfold emax, prec; lia).
  replace (- (d - 53)) with (53 - d) by lia.
  repeat split; try lia.
  pose proof (digits_bounds mz) as Hb. rewrite Hdz in Hb. lia.
Qed.

(** The product of a double in [0,1) and an array length [n] floors to an
    index below [n]. *)
Lemma floor_mul_lt (mx : positive) (ex : Z) (n : nat) :
  bounded prec emax mx ex = true -> ex < 0 -> Z.pos mx < 2 ^ (- ex) ->
  1 <= Z.of_nat n < 2 ^ 53 ->
  exists i, Math_floor (mul (S754_finite false mx ex) (of_nat n)) = Some i
            /\ 0 <= i < Z.of_nat n.
Proof.
  intros Hb Hex Hmx Hn.
  destruct (of_nat_exact n Hn) as (my & ey & -> & Hey & Hmy & Hmy53).
  unfold mul, SFmul. simpl xorb.
  (* what validity of the random double gives *)
  apply andb_true_iff in Hb as [Hcan _].
  unfold canonical_mantissa in Hcan. apply Z.eqb_eq in Hcan. rewrite fexp_eq in Hcan.
  pose proof (digits_bounds mx) as Hdx.
  set (dx := Z.pos (digits2_pos mx)) in *.
  assert (Hdx53 : dx <= 53) by lia.
  assert (Hex_min : -1074 <= ex) by lia.
  assert (Hmx53 : Z.pos mx < 2 ^ 53).
  { assert (2 ^ dx <= 2 ^ 53) by (apply Z.pow_le_mono_r; lia). lia. }
  set (E := ex + ey). set (m0 := (mx * my)%positive).
  assert (Hm0 : Z.pos m0 = Z.pos mx * Z.pos my) by reflexivity.
  assert (Hpex : 0 < 2 ^ (- ex)) by (apply Z.pow_pos_nonneg; lia).
  assert (Hpey : 0 < 2 ^ (- ey)) by (apply Z.pow_pos_nonneg; lia).
  assert (HpE : 2 ^ (- E) = 2 ^ (- ey) * 2 ^ (- ex)).
  { rewrite <- Z.pow_add_r by lia. f_equal; unfold E; lia. }
  destruct (binary_round_aux_bound m0 E) as (m3 & e3 & Hm3 & He3 & Hexact & Hround & ->).
  set (k := fexp prec emax (Zdigits2 (Z.pos m0) + E) - E) in *.
  assert (Hp3 : 0 < 2 ^ (e3 - E)) by (apply Z.pow_pos_nonneg; lia).
  (* the rounded product stays below [n], scaled by 2^(-E) *)
  assert (Hlt : m3 * 2 ^ (e3 - E) < Z.of_nat n * 2 ^ (- E)).
  { rewrite HpE.
    assert (Hm0le : Z.pos m0 + Z.pos my <= Z.of_nat n * (2 ^ (- ey) * 2 ^ (- ex))) by nia.
    destruct (Z_le_gt_dec k 0) as [Hk|Hk].
    - destruct (Hexact Hk) as [-> ->]. rewrite Z.sub_diag. simpl. lia.
    - specialize (Hround ltac:(lia)).
      assert (Hhalf : 2 ^ (k - 1) < Z.pos my).
      { pose proof (digits_bounds m0) as Hd0.
        unfold k in *. simpl Zdigits2 in *. rewrite fexp_eq in *.
        set (d0 := Z.pos (digits2_pos m0)) in *.
        destruct (Z.max_spec (d0 + E - 53) (-1074)) as [[_ Hmax]|[_ Hmax]];
          rewrite Hmax in *.
        + (* subnormal product *)
          assert (2 ^ (-1074 - E - 1) <= 2 ^ (- ey - 1))
            by (apply Z.pow_le_mono_r; unfold E; lia).
          assert (2 ^ (- ey) = 2 * 2 ^ (- ey - 1)).
          { replace (- ey) with (- ey - 1 + 1) at 1 by lia.
            rewrite Z.pow_add_r by (unfold E in *; lia). lia. }
          assert (0 < 2 ^ (- ey - 1)) by (apply Z.pow_pos_nonneg; unfold E in *; lia).
          nia.
        + (* normal product *)
          replace (d0 + E - 53 - E - 1) with (d0 - 54) in * by lia.
          assert (2 ^ (d0 - 1) = 2 ^ (d0 - 54) * 2 ^ 53).
          { rewrite <- Z.pow_add_r by lia. f_equal; lia. }
          assert (0 < 2 ^ (d0 - 54)) by (apply Z.pow_pos_nonneg; lia).
          nia. }
      lia. }
  destruct m3 as [|m|m]; [| |lia].
  - exists 0. simpl. split; [reflexivity | lia].
  - assert (He3max : e3 <= emax - prec).
    { unfold emax, prec.
      assert (2 ^ (e3 - E) < 2 ^ (53 - ex)).
      { replace (53 - ex) with (53 + - ex) by lia. rewrite Z.pow_add_r by lia.
        rewrite HpE in Hlt. nia. }
      assert (e3 - E < 53 - ex) by (apply (Z.pow_lt_mono_r_iff 2); lia).
      unfold E in *. lia. }
    apply Z.leb_le in He3max. rewrite He3max.
    exists (Z.shiftl (Z.pos m) e3). simpl. split; [reflexivity|].
    split; [apply Z.shiftl_nonneg; lia|].
    destruct (Z_le_gt_dec 0 e3) as [Hpos|Hneg].
    + rewrite Z.shiftl_mul_pow2 by lia.
      assert (2 ^ (e3 - E) = 2 ^ e3 * 2 ^ (- E)).
      { rewrite <- Z.pow_add_r by (unfold E; lia). f_equal; lia. }
      assert (0 < 2 ^ (- E)) by (apply Z.pow_pos_nonneg; unfold E; lia).
      nia.
    + rewrite Z.shiftl_div_pow2 by lia.
      assert (2 ^ (- E) = 2 ^ (e3 - E) * 2 ^ (- e3)).
      { rewrite <- Z.pow_add_r by lia. f_equal; lia. }
      assert (0 < 2 ^ (- e3)) by (apply Z.pow_pos_nonneg; lia).
      apply Z.div_lt_upper_bound; [lia | nia].
Qed.

(** Every value [Math.random()] may return. *)
Lemma random_index (r : spec_float) (n : nat) :
  in_unit_interval r = true ->
  1 <= Z.of_nat n < 2 ^ 53 ->
  exists i, Math_floor (mul r (of_nat n)) = Some i /\ 0 <= i < Z.of_nat n.
Proof.
  intros Hr Hn. destruct r as [[]|[]| |[] m e]; try discriminate.
  - destruct (of_nat_exact n Hn) as (my & ey & -> & _).
    exists 0. simpl. split; [reflexivity | lia].
  - simpl in Hr. apply andb_true_iff in Hr as [Hr Hlt].
    apply andb_true_iff in Hr as [Hb He].
    apply floor_mul_lt; [assumption | lia | lia | assumption].
Qed.

End F64Facts.

(** ** Running composed commands *)

Section RunFacts.
Variable o : Oracle.

Lemma run_on_completion p f w :
  run o (on_completion p f) w = let '(c, w') := run o p w in run o (f c) w'.
Proof.
  revert w. induction p as [c|b k IH|e k IH|b k IH|k IH|errs k IH|k IH|id bank k IH
                            |k IH|ms k IH|p' _ k IH]; intros w; cbn [on_completion run];
    try reflexivity; try apply IH.
  destruct (run_sync o p' w) as [rest w']. apply IH.
Qed.

Lemma park_trace p w : trace (park p w) = trace w.
Proof. destruct p; reflexivity. Qed.

Lemma park_comp p w : comp (park p w) = comp w.
Proof. destruct p; reflexivity. Qed.

(** The synchronous prefix of a call makes no request. *)
Lemma run_sync_trace p : forall w, trace (snd (run_sync o p w)) = trace w.
Proof.
  induction p as [c|b k IH|e k IH|b k IH|k IH|errs k IH|k IH|id bank k IH
                  |k IH|ms k IH|p' IH' k IH]; intros w; cbn [run_sync];
    try reflexivity; try (rewrite IH; reflexivity).
  specialize (IH' w). destruct (run_sync o p' w) as [rest w']. simpl in IH'.
  rewrite IH, park_trace. exact IH'.
Qed.

Lemma run_fetchUnassignedBank u w :
  run o (fetchUnassignedBank u) w =
  let w1 := log GET (upd (with_error None) (upd (with_loading true) w)) in
  let failed := fun w' =>
    (Normal, upd (with_loading false)
               (upd (with_error (Some "Failed to fetch bank details. Please try again.")) w')) in
  match on_get o (length (trace w)) with
  | Rejected => failed w1
  | Resolved banks =>
      let unassignedBanks := List.filter unassigned banks in
      if (0 <? length unassignedBanks)%nat then
        match F64.array_get unassignedBanks
                (F64.Math_floor (F64.mul (on_random o (draws w))
                                   (F64.of_nat (length unassignedBanks)))) with
        | Some randomBank =>
            let w2 := log (PUT (get randomBank "id")
                             (<["userName" := VString u]> randomBank)) (drawn w1) in
            match on_put o (S (length (trace w))) with
            | Resolved _ =>
                (Normal, upd (with_loading false)
                           (upd (with_currentBank (Some randomBank)) w2))
            | Rejected => failed w2
            end
        | None => failed (drawn w1)
        end
      else
        (Normal, upd (with_loading false)
                   (upd (with_error (Some "No unassigned banks available at the moment.")) w1))
  end.
Proof.
  unfold fetchUnassignedBank. cbv zeta. run_step.
  destruct (on_get o (length (trace w))) as [banks|]; [|reflexivity].
  run_step. destruct (0 <? length (List.filter unassigned banks))%nat; [|reflexivity].
  run_step. destruct (F64.array_get _ _) as [rb|]; [|reflexivity].
  run_step. rewrite length_app, Nat.add_1_r.
  destruct (on_put o (S (length (trace w)))); reflexivity.
Qed.

(** [fetchUnassignedBank] catches whatever is thrown in it. *)
Lemma fetchUnassignedBank_completes u w :
  fst (run o (fetchUnassignedBank u) w) = Normal.
Proof.
  rewrite run_fetchUnassignedBank. cbv zeta.
  repeat match goal with
         | |- context [match ?x with _ => _ end] => destruct x
         end; reflexivity.
Qed.

Lemma run_handleCancel u bank w :
  run o (handleCancel u (Some bank)) w =
  let w1 := log (PUT (get bank "id") (cancel_body bank))
              (upd (with_error None) (upd (with_loading true) w)) in
  match on_put o (length (trace w)) with
  | Resolved _ =>
      let w2 := upd with_form_reset
                  (upd (with_currentBank None) (log (WAIT 1000) w1)) in
      (Normal, upd (with_loading false) (snd (run o (fetchUnassignedBank u) w2)))
  | Rejected =>
      (Normal, upd (with_loading false)
                 (upd (with_error (Some "Failed to cancel assignment. Please try again.")) w1))
  end.
Proof.
  unfold handleCancel. cbv zeta. run_step.
  destruct (on_put o (length (trace w))); [|reflexivity].
  run_step. unfold call. rewrite !run_on_completion.
  match goal with |- context [run o (fetchUnassignedBank u) ?w2] =>
    pose proof (fetchUnassignedBank_completes u w2) as Hc;
    destruct (run o (fetchUnassignedBank u) w2) as [c w3] end.
  simpl in Hc. subst c. reflexivity.
Qed.

Lemma first_violation_cases values :
  first_violation values =
  if includes successfulResponses (get values "phoneResponse")
     && falsy (get values "response")
  then Some "Response type is required for successful calls"
  else if is_str (get values "response") "address_change"
          && falsy (get values "updateAddress")
  then Some "Updated address is required for address change"
  else if is_str (get values "response") "branch_name_change"
          && falsy (get values "updatedBranchName")
  then Some "Updated branch name is required for branch name change"
  else if is_str (get values "response") "bank_shift"
          && falsy (get values "updateAddress")
  then Some "Updated address is required for bank shift"
  else None.
Proof.
  unfold first_violation, conditional_rules. cbn [List.find fst snd].
  repeat match goal with
         | |- context [if ?b then _ else _] => destruct b
         end; reflexivity.
Qed.

Lemma run_onSubmit u bank values w :
  run o (call (onSubmit u (Some bank) values)) w =
  let w1 := upd (with_error None) (upd (with_loading true) w) in
  match first_violation values with
  | Some reason =>
      (Normal, upd (with_loading false) (upd (with_error (Some reason)) w1))
  | None =>
      let w2 := log (PUT (get bank "id") (spread2 bank values)) w1 in
      match on_put o (length (trace w)) with
      | Resolved _ =>
          let '(rest, w3) :=
            run_sync o (call (fetchUnassignedBank u))
              (upd with_form_reset (upd (with_currentBank None) w2)) in
          (Normal, upd (with_loading false) (park rest w3))
      | Rejected =>
          (Normal, upd (with_loading false)
                     (upd (with_error
                             (Some "Failed to update bank information. Please try again."))
                        w2))
      end
  end.
Proof.
  rewrite first_violation_cases. unfold onSubmit. cbv zeta. run_step.
  destruct (includes successfulResponses (get values "phoneResponse")
            && falsy (get values "response")); [reflexivity|].
  run_step.
  destruct (is_str (get values "response") "address_change"
            && falsy (get values "updateAddress")); [reflexivity|].
  run_step.
  destruct (is_str (get values "response") "branch_name_change"
            && falsy (get values "updatedBranchName")); [reflexivity|].
  run_step.
  destruct (is_str (get values "response") "bank_shift"
            && falsy (get values "updateAddress")); [reflexivity|].
  run_step.
  destruct (on_put o (length (trace w))); [|reflexivity].
  run_step.
  destruct (run_sync o _ _) as [rest w3]. 
  destruct rest; reflexivity.
Qed.

End RunFacts.

(** ** What the schema returns *)

Module SchemaFacts.
Import Schema.

Lemma set_field_lookup input k v acc k' :
  set_field input k v acc !! k' =
  if decide (k = k') then
    match v, input !! k with
    | VUndefined, None => acc !! k'
    | _, _ => Some v
    end
  else acc !! k'.
Proof.
  unfold set_field. destruct (decide (k = k')) as [->|Hne].
  - destruct v, (input !! k'); try apply lookup_insert_eq; reflexivity.
  - destruct v, (input !! k); try (apply lookup_insert_ne; assumption); reflexivity.
Qed.

(** The data parsed from an input: each field of the shape holds the output
    of its parser, nothing else is set, and the issues are those of the
    fields in order. *)
Lemma parse_fields_spec fields input :
  NoDup (map fst fields) ->
  let '(data, errs) := parse_fields fields input in
  (forall k p, (k, p) ∈ fields -> get data k = out (p (get input k)))
  /\ (forall k, k ∉ map fst fields -> data !! k = None)
  /\ errs = concat (map (fun kp => map (pair (fst kp)) (issues (snd kp (get input (fst kp)))))
                      fields).
Proof.
  induction fields as [|[k p] rest IH]; intros Hnd; cbn [parse_fields].
  - split; [|split].
    + intros k p H. inversion H.
    + intros k _. apply lookup_empty.
    + reflexivity.
  - apply NoDup_cons in Hnd as [Hk Hnd]. specialize (IH Hnd).
    destruct (parse_fields rest input) as [data errs].
    destruct IH as (Hget & Hdom & Herrs). cbn [map fst snd concat] in *.
    split; [|split].
    + intros k' p' Hin. apply elem_of_cons in Hin as [Heq|Hin].
      * injection Heq as -> ->. unfold get. rewrite set_field_lookup.
        rewrite decide_True by reflexivity. rewrite (Hdom k Hk).
        destruct (out (p (default VUndefined (input !! k)))), (input !! k); reflexivity.
      * assert (k <> k').
        { intros ->. apply Hk. apply (list_elem_of_fmap_2 fst) in Hin. exact Hin. }
        unfold get at 1. rewrite set_field_lookup, decide_False by assumption.
        apply (Hget _ _ Hin).
    + intros k' Hk'. apply not_elem_of_cons in Hk' as [Hne Hk'].
      rewrite set_field_lookup, decide_False by congruence. apply Hdom, Hk'.
    + rewrite Herrs. reflexivity.
Qed.

Lemma shape_NoDup : NoDup (map fst shape).
Proof. apply (bool_decide_unpack _). vm_compute. exact I. Qed.

Lemma parse_ok_spec draft values :
  parse draft = inl values ->
  (forall k p, (k, p) ∈ shape ->
     get values k = out (p (get draft k)) /\ issues (p (get draft k)) = [])
  /\ (forall k, k ∉ form_fields -> values !! k = None).
Proof.
  unfold parse. pose proof (parse_fields_spec shape draft shape_NoDup) as H.
  destruct (parse_fields shape draft) as [data errs].
  destruct H as (Hget & Hdom & Herrs).
  destruct errs as [|e errs]; [|discriminate]. intros [= <-].
  split; [|exact Hdom].
  intros k p Hin. split; [apply Hget, Hin|].
  symmetry in Herrs. 
  assert (Hall : Forall (fun l => l = [])
            (map (fun kp => map (pair (fst kp)) (issues (snd kp (get draft (fst kp))))) shape)).
  { apply Forall_forall. intros l Hl. 
    destruct l as [|x l]; [reflexivity|exfalso].
    apply list_elem_of_In, in_split in Hl as (l1 & l2 & Hl). rewrite Hl in Herrs.
    rewrite concat_app in Herrs. apply app_eq_nil in Herrs as [_ Herrs]. discriminate. }
  rewrite Forall_forall in Hall.
  apply (list_elem_of_fmap_2
           (fun kp => map (pair (fst kp)) (issues (snd kp (get draft (fst kp)))))) in Hin.
  apply Hall in Hin. cbn [fst snd] in Hin.
  destruct (issues (p (get draft k))); [reflexivity | discriminate].
Qed.

(** A rejected parse reports at least one issue. *)
Lemma parse_rejected draft errs : parse draft = inr errs -> errs <> [].
Proof.
  unfold parse. destruct (parse_fields shape draft) as [data [|e es]]; [discriminate|].
  intros [= <-]. discriminate.
Qed.

End SchemaFacts.

(** ** The phone number rule *)

Lemma check_nil test msg : Schema.check test msg = [] <-> test = true.
Proof. destruct test; simpl; split; congruence. Qed.

Lemma chars_length s : length (Str.chars s) = String.length s.
Proof. induction s as [|c s IH]; simpl; [reflexivity | f_equal; exact IH]. Qed.

Lemma is_digit_spec c : Str.is_digit c = true <-> c ∈ digit_chars.
Proof.
  rewrite <- (bool_decide_eq_true (c ∈ digit_chars)).
  destruct c as [[] [] [] [] [] [] [] []]; vm_compute; split; congruence.
Qed.

Lemma forallb_true_Forall (cls : ascii -> bool) l :
  forallb cls l = true <-> Forall (fun c => cls c = true) l.
Proof.
  induction l as [|c l IH]; simpl.
  - split; [constructor | reflexivity].
  - rewrite andb_true_iff, IH. split.
    + intros [H1 H2]. constructor; assumption.
    + intros H. inversion H; subst. split; assumption.
Qed.

Lemma matches_plus_spec cls s :
  Str.matches_plus cls s = true <->
  Str.chars s <> [] /\ Forall (fun c => cls c = true) (Str.chars s).
Proof.
  unfold Str.matches_plus. rewrite <- forallb_true_Forall.
  destruct (Str.chars s) as [|c cs]; split.
  - discriminate.
  - intros [H _]. congruence.
  - intros H. split; [discriminate | exact H].
  - intros [_ H]. exact H.
Qed.

Lemma startsWith_zero s :
  Str.startsWith s "0" = true <-> exists rest, s = String "0"%char rest.
Proof.
  unfold Str.startsWith. destruct s as [|c s]; cbn [String.prefix].
  - split; [discriminate | intros [rest H]; discriminate].
  - destruct (ascii_dec "0" c) as [<-|Hne].
    + split; [eauto | intros _; destruct s; reflexivity].
    + split; [discriminate | intros [rest [= H _]]; congruence].
Qed.

(** C9: the phone number validator rejects "09876543210" (leading zero)
    and accepts "9876543210"; a phone number passes exactly when it has 10
    to 15 characters, all of them digits, and does not start with '0'. *)
Theorem phoneNumber_validation :
  Schema.issues (Schema.phoneNumber (VString "09876543210"))
    = ["Phone number should not start with 0"]
  /\ Schema.issues (Schema.phoneNumber (VString "9876543210")) = []
  /\ forall s, Schema.issues (Schema.phoneNumber (VString s)) = [] <-> phone_number_rule s.
Proof.
  split; [reflexivity|]. split; [reflexivity|].
  intros s. unfold phone_number_rule. cbn [Schema.phoneNumber Schema.issues].
  rewrite !app_nil, !check_nil, Z.leb_le, Z.leb_le, matches_plus_spec, negb_true_iff.
  unfold Str.length. rewrite <- chars_length.
  rewrite <- not_true_iff_false, startsWith_zero.
  setoid_rewrite is_digit_spec.
  split.
  - intros (H1 & H2 & [_ H3] & H4). repeat split; try assumption; lia.
  - intros ([H1 H2] & H3 & H4). repeat split; try assumption; try lia.
    destruct (Str.chars s); [simpl in H1; lia | discriminate].
Qed.

(** ** The random index *)

Lemma array_get_elem_of {A : Type} (arr : list A) i x :
  F64.array_get arr i = Some x -> x ∈ arr.
Proof.
  destruct i as [z|]; [|discriminate]. simpl.
  destruct (0 <=? z)%Z; [|discriminate].
  apply list_elem_of_lookup_2.
Qed.

(** The index drawn for a non-empty array is the position of one of its
    elements. *)
Lemma random_index_lookup {A : Type} (arr : list A) (random : spec_float) :
  (1 <= length arr)%nat ->
  (Z.of_nat (length arr) <= MAX_ARRAY_LENGTH)%Z ->
  F64.in_unit_interval random = true ->
  exists i x,
    F64.Math_floor (F64.mul random (F64.of_nat (length arr))) = Some i
    /\ (0 <= i < Z.of_nat (length arr))%Z
    /\ arr !! Z.to_nat i = Some x.
Proof.
  intros Hlen Hmax Hr. unfold MAX_ARRAY_LENGTH in Hmax.
  destruct (F64Facts.random_index random (length arr) Hr) as (i & Hi & Hrange).
  { split; [lia|]. assert (2 ^ 32 < 2 ^ 53)%Z by reflexivity. lia. }
  destruct (lookup_lt_is_Some_2 arr (Z.to_nat i)) as [x Hx]; [lia|].
  exists i, x. repeat split; try assumption; lia.
Qed.

(** C10: when the filtered list is non-empty (length n >= 1), the index
    [Math.floor(Math.random() * n)] lies in [0, n-1], so the indexed access
    yields an element of the list: the selection never reads out of bounds. *)
Theorem random_index_in_bounds (A : Type) (arr : list A) (random : spec_float) :
  (1 <= length arr)%nat ->
  (Z.of_nat (length arr) <= MAX_ARRAY_LENGTH)%Z ->
  F64.in_unit_interval random = true ->
  exists i x,
    F64.Math_floor (F64.mul random (F64.of_nat (length arr))) = Some i
    /\ (0 <= i <= Z.of_nat (length arr) - 1)%Z
    /\ F64.array_get arr (Some i) = Some x
    /\ x ∈ arr.
Proof.
  intros Hlen Hmax Hr.
  destruct (random_index_lookup arr random Hlen Hmax Hr) as (i & x & Hi & Hrange & Hx).
  assert (Hget : F64.array_get arr (Some i) = Some x).
  { simpl. destruct (Z.leb_spec 0 i); [exact Hx | lia]. }
  exists i, x. repeat split; try assumption; try lia.
  eapply array_get_elem_of, Hget.
Qed.

(** The largest double below 1 times a length of 3 still floors to 2. *)
Example floor_of_largest_draw :
  F64.Math_floor (F64.mul (S754_finite false (2 ^ 53 - 1) (-53)) (F64.of_nat 3)) = Some 2%Z.
Proof. reflexivity. Qed.

(** The bound at a list of three elements and the draw 0.5. *)
Lemma random_index_in_bounds_witness :
  (1 <= length [10; 20; 30])%nat
  /\ (Z.of_nat (length [10; 20; 30]) <= MAX_ARRAY_LENGTH)%Z
  /\ F64.in_unit_interval Examples.half = true
  /\ exists i x,
       F64.Math_floor (F64.mul Examples.half (F64.of_nat (length [10; 20; 30]))) = Some i
       /\ (0 <= i <= Z.of_nat (length [10; 20; 30]) - 1)%Z
       /\ F64.array_get [10; 20; 30] (Some i) = Some x
       /\ x ∈ [10; 20; 30].
Proof.
  assert (H1 : (1 <= length [10; 20; 30])%nat) by (simpl; lia).
  assert (H2 : (Z.of_nat (length [10; 20; 30]) <= MAX_ARRAY_LENGTH)%Z)
    by (vm_compute; discriminate).
  assert (H3 : F64.in_unit_interval Examples.half = true) by reflexivity.
  split; [exact H1|]. split; [exact H2|]. split; [exact H3|].
  exact (random_index_in_bounds nat [10; 20; 30] Examples.half H1 H2 H3).
Defined.

(** ** The assignment selector *)

Section Selector.
Variable o : Oracle.
Variable u : string.

Lemma filter_unassigned_elem_of banks bank :
  bank ∈ List.filter unassigned banks -> bank ∈ banks /\ unassigned bank = true.
Proof. rewrite list_elem_of_In, filter_In, <- list_elem_of_In. tauto. Qed.

(** The test of the filter, on the assignment field. *)
Lemma unassigned_spec bank : unassigned bank = true <-> empty_assignment bank.
Proof.
  unfold unassigned, empty_assignment.
  destruct (get bank "userName") as [|s|n]; cbn [falsy].
  - split; [left; reflexivity | reflexivity].
  - rewrite bool_decide_eq_true. split.
    + intros ->. right; left; reflexivity.
    + intros [H|[H|H]]; congruence.
  - rewrite bool_decide_eq_true. split.
    + intros ->. right; right; reflexivity.
    + intros [H|[H|H]]; congruence.
Qed.

(** The candidates are exactly the records with an empty assignment
    field. *)
Lemma candidates_spec banks bank :
  bank ∈ List.filter unassigned banks <-> bank ∈ banks /\ empty_assignment bank.
Proof.
  rewrite list_elem_of_In, filter_In, <- list_elem_of_In, unassigned_spec. tauto.
Qed.

(** With a free record in the list and a well-formed random draw, the
    selection is defined. *)
Lemma selection_defined banks random :
  Exists (fun bank => unassigned bank = true) banks ->
  (Z.of_nat (length banks) <= MAX_ARRAY_LENGTH)%Z ->
  F64.in_unit_interval random = true ->
  let unassignedBanks := List.filter unassigned banks in
  (0 <? length unassignedBanks)%nat = true
  /\ exists chosen,
       F64.array_get unassignedBanks
         (F64.Math_floor (F64.mul random (F64.of_nat (length unassignedBanks))))
       = Some chosen
       /\ chosen ∈ unassignedBanks.
Proof.
  intros Hex Hmax Hr unassignedBanks.
  assert (Hpos : (1 <= length unassignedBanks)%nat).
  { apply Exists_exists in Hex as (bank & Hin & Hun).
    assert (Hin' : bank ∈ unassignedBanks).
    { apply list_elem_of_In, filter_In. split; [apply list_elem_of_In, Hin | exact Hun]. }
    destruct unassignedBanks; [inversion Hin' | simpl; lia]. }
  assert (Hle : (length unassignedBanks <= length banks)%nat)
    by apply List.filter_length_le.
  split; [apply Nat.ltb_lt; lia|].
  destruct (random_index_lookup unassignedBanks random Hpos ltac:(lia) Hr)
    as (i & chosen & -> & Hrange & Hx).
  exists chosen. simpl. destruct (Z.leb_spec 0 i); [|lia].
  split; [exact Hx | eapply list_elem_of_lookup_2, Hx].
Qed.

(** What a call leaves untouched, and where a presented record comes
    from. *)
Lemma fetch_outcome w :
  let w' := snd (run o (fetchUnassignedBank u) w) in
  draft (comp w') = draft (comp w)
  /\ formErrors (comp w') = formErrors (comp w)
  /\ loading (comp w') = false
  /\ (currentBank (comp w') = currentBank (comp w)
      \/ exists banks chosen,
           on_get o (length (trace w)) = Resolved banks
           /\ chosen ∈ List.filter unassigned banks
           /\ currentBank (comp w') = Some chosen).
Proof.
  rewrite run_fetchUnassignedBank. cbv zeta.
  destruct (on_get o (length (trace w))) as [banks|]; [|simpl; auto].
  destruct (0 <? length (List.filter unassigned banks))%nat; [|simpl; auto].
  destruct (F64.array_get _ _) as [chosen|] eqn:Hget; [|simpl; auto].
  destruct (on_put o (S (length (trace w)))); [|simpl; auto].
  simpl. repeat split. right. exists banks, chosen.
  repeat split. eapply array_get_elem_of, Hget.
Qed.

(** C4: when no record of the fetched set has an empty assignment field,
    the selector reports "no availability" as an error message (the catch
    block is not entered, nothing is raised), and issues no update. *)
Theorem fetch_no_availability w banks :
  on_get o (length (trace w)) = Resolved banks ->
  Forall (fun bank => unassigned bank = false) banks ->
  let '(c, w') := run o (fetchUnassignedBank u) w in
  c = Normal
  /\ error (comp w') = Some "No unassigned banks available at the moment."
  /\ trace w' = trace w ++ [GET]
  /\ puts (trace w') = puts (trace w)
  /\ currentBank (comp w') = currentBank (comp w)
  /\ loading (comp w') = false.
Proof.
  intros Hget Hall. rewrite run_fetchUnassignedBank, Hget. cbv zeta.
  assert (Hnil : List.filter unassigned banks = []).
  { clear Hget. induction Hall as [|bank banks Hb _ IH]; simpl; [reflexivity|].
    rewrite Hb. exact IH. }
  rewrite Hnil. simpl. repeat split.
  unfold puts. rewrite omap_app. simpl. apply app_nil_r.
Qed.

(** C3: when the fetched set has a record whose assignment field
    ([userName]) is empty or absent, the selector chooses a record of the
    fetched set whose assignment field is empty or absent, never one whose
    assignment field holds a name: the candidates it draws from are exactly
    the records of the set with an empty assignment field, the update it
    issues claims the chosen record, and the record presented afterwards,
    if any, is that record. *)
Theorem fetch_selects_unassigned w banks :
  on_get o (length (trace w)) = Resolved banks ->
  (exists bank, bank ∈ banks /\ empty_assignment bank) ->
  (Z.of_nat (length banks) <= MAX_ARRAY_LENGTH)%Z ->
  F64.in_unit_interval (on_random o (draws w)) = true ->
  (forall bank, bank ∈ List.filter unassigned banks
                <-> bank ∈ banks /\ empty_assignment bank)
  /\ exists chosen,
       chosen ∈ banks
       /\ empty_assignment chosen
       /\ (forall name, name <> "" -> get chosen "userName" <> VString name)
       /\ chosen ∈ List.filter unassigned banks
       /\ unassigned chosen = true
       /\ let '(c, w') := run o (fetchUnassignedBank u) w in
          trace w' = trace w ++ [GET; PUT (get chosen "id")
                                        (<["userName" := VString u]> chosen)]
          /\ (on_put o (S (length (trace w))) = Resolved tt ->
              currentBank (comp w') = Some chosen)
          /\ (currentBank (comp w') = Some chosen
              \/ currentBank (comp w') = currentBank (comp w)).
Proof.
  intros Hget (free & Hfree & Hempty) Hmax Hr.
  split; [apply candidates_spec|].
  assert (Hex : Exists (fun bank => unassigned bank = true) banks).
  { apply Exists_exists. exists free. split; [exact Hfree | apply unassigned_spec, Hempty]. }
  destruct (selection_defined banks _ Hex Hmax Hr) as (Hlen & chosen & Hsel & Hin).
  exists chosen.
  destruct (filter_unassigned_elem_of _ _ Hin) as [Hb Hun].
  pose proof (proj1 (unassigned_spec chosen) Hun) as Hchosen.
  split; [exact Hb|]. split; [exact Hchosen|].
  split.
  { intros name Hname Heq. destruct Hchosen as [H|[H|H]]; congruence. }
  split; [exact Hin|]. split; [exact Hun|].
  rewrite run_fetchUnassignedBank, Hget. cbv zeta. rewrite Hlen, Hsel.
  destruct (on_put o (S (length (trace w)))) as [[]|]; simpl;
    rewrite <- app_assoc; repeat split; auto; discriminate.
Qed.

(** C1 (amended): when the claim update is rejected, [setCurrentBank] is
    not called: the record presented is the one presented before, the
    failure message is set, and the call ends without raising. *)
Theorem fetch_claim_rejected w banks :
  on_get o (length (trace w)) = Resolved banks ->
  Exists (fun bank => unassigned bank = true) banks ->
  (Z.of_nat (length banks) <= MAX_ARRAY_LENGTH)%Z ->
  F64.in_unit_interval (on_random o (draws w)) = true ->
  on_put o (S (length (trace w))) = Rejected ->
  let '(c, w') := run o (fetchUnassignedBank u) w in
  c = Normal
  /\ (exists chosen,
        chosen ∈ List.filter unassigned banks
        /\ trace w' = trace w ++ [GET; PUT (get chosen "id")
                                        (<["userName" := VString u]> chosen)])
  /\ currentBank (comp w') = currentBank (comp w)
  /\ error (comp w') = Some "Failed to fetch bank details. Please try again."
  /\ loading (comp w') = false.
Proof.
  intros Hget Hex Hmax Hr Hput.
  destruct (selection_defined banks _ Hex Hmax Hr) as (Hlen & chosen & Hsel & Hin).
  rewrite run_fetchUnassignedBank, Hget. cbv zeta. rewrite Hlen, Hsel, Hput.
  simpl. rewrite <- app_assoc. repeat split. exists chosen. split; [exact Hin | reflexivity].
Qed.

End Selector.

(** The selector on a store whose only record is held by Bob. *)
Lemma fetch_no_availability_witness :
  on_get Examples.store_all_held (length (trace (idle None))) = Resolved [Examples.bank2]
  /\ Forall (fun bank => unassigned bank = false) [Examples.bank2]
  /\ let '(c, w') :=
       run Examples.store_all_held (fetchUnassignedBank "Alice") (idle None) in
     c = Normal
     /\ error (comp w') = Some "No unassigned banks available at the moment."
     /\ trace w' = trace (idle None) ++ [GET]
     /\ puts (trace w') = puts (trace (idle None))
     /\ currentBank (comp w') = currentBank (comp (idle None))
     /\ loading (comp w') = false.
Proof.
  assert (H1 : on_get Examples.store_all_held (length (trace (idle None)))
               = Resolved [Examples.bank2]) by reflexivity.
  assert (H2 : Forall (fun bank => unassigned bank = false) [Examples.bank2])
    by (constructor; [vm_compute; reflexivity | constructor]).
  split; [exact H1|]. split; [exact H2|].
  exact (fetch_no_availability Examples.store_all_held "Alice" (idle None) _ H1 H2).
Defined.

(** Identity "Alice"; the store returns record 1 (free) and record 2 (held
    by Bob): record 1 is the only candidate, it is claimed for Alice and
    presented. *)
Example scenario_alice :
  let w' := snd (run Examples.store_ok (fetchUnassignedBank "Alice") (idle None)) in
  currentBank (comp w') = Some Examples.bank1
  /\ puts (trace w') = [(VNumber 1, <["userName" := VString "Alice"]> Examples.bank1)].
Proof. vm_compute. split; reflexivity. Qed.

(** The selection on that store. *)
Lemma fetch_selects_unassigned_witness :
  on_get Examples.store_ok (length (trace (idle None)))
    = Resolved [Examples.bank1; Examples.bank2]
  /\ (exists bank, bank ∈ [Examples.bank1; Examples.bank2] /\ empty_assignment bank)
  /\ (Z.of_nat (length [Examples.bank1; Examples.bank2]) <= MAX_ARRAY_LENGTH)%Z
  /\ F64.in_unit_interval (on_random Examples.store_ok (draws (idle None))) = true
  /\ (forall bank, bank ∈ List.filter unassigned [Examples.bank1; Examples.bank2]
                   <-> bank ∈ [Examples.bank1; Examples.bank2] /\ empty_assignment bank)
  /\ exists chosen,
       chosen ∈ [Examples.bank1; Examples.bank2]
       /\ empty_assignment chosen
       /\ (forall name, name <> "" -> get chosen "userName" <> VString name)
       /\ chosen ∈ List.filter unassigned [Examples.bank1; Examples.bank2]
       /\ unassigned chosen = true
       /\ let '(c, w') := run Examples.store_ok (fetchUnassignedBank "Alice") (idle None) in
          trace w' = trace (idle None)
                       ++ [GET; PUT (get chosen "id") (<["userName" := VString "Alice"]> chosen)]
          /\ (on_put Examples.store_ok (S (length (trace (idle None)))) = Resolved tt ->
              currentBank (comp w') = Some chosen)
          /\ (currentBank (comp w') = Some chosen
              \/ currentBank (comp w') = currentBank (comp (idle None))).
Proof.
  assert (H1 : on_get Examples.store_ok (length (trace (idle None)))
               = Resolved [Examples.bank1; Examples.bank2]) by reflexivity.
  assert (H2 : exists bank, bank ∈ [Examples.bank1; Examples.bank2] /\ empty_assignment bank).
  { exists Examples.bank1. split; [apply list_elem_of_here|].
    right; left. vm_compute. reflexivity. }
  assert (H3 : (Z.of_nat (length [Examples.bank1; Examples.bank2]) <= MAX_ARRAY_LENGTH)%Z)
    by (vm_compute; discriminate).
  assert (H4 : F64.in_unit_interval (on_random Examples.store_ok (draws (idle None))) = true)
    by reflexivity.
  split; [exact H1|]. split; [exact H2|]. split; [exact H3|]. split; [exact H4|].
  exact (fetch_selects_unassigned Examples.store_ok "Alice" (idle None) _ H1 H2 H3 H4).
Defined.

(** C1, as stated, fails: the store holds the free record [bank1], the
    claim update for it is attempted and rejected, and [bank1] is not
    presented. *)
Lemma claim_rejected_not_presented :
  let w' := snd (run Examples.store_put_fails (fetchUnassignedBank "Alice") (idle None)) in
  puts (trace w') = [(VNumber 1, <["userName" := VString "Alice"]> Examples.bank1)]
  /\ on_put Examples.store_put_fails 1 = Rejected
  /\ currentBank (comp w') <> Some Examples.bank1.
Proof. vm_compute. repeat split. discriminate. Qed.

(** The rejected claim on the store whose updates fail. *)
Lemma fetch_claim_rejected_witness :
  on_get Examples.store_put_fails (length (trace (idle None)))
    = Resolved [Examples.bank1; Examples.bank2]
  /\ Exists (fun bank => unassigned bank = true) [Examples.bank1; Examples.bank2]
  /\ (Z.of_nat (length [Examples.bank1; Examples.bank2]) <= MAX_ARRAY_LENGTH)%Z
  /\ F64.in_unit_interval (on_random Examples.store_put_fails (draws (idle None))) = true
  /\ on_put Examples.store_put_fails (S (length (trace (idle None)))) = Rejected
  /\ let '(c, w') :=
       run Examples.store_put_fails (fetchUnassignedBank "Alice") (idle None) in
     c = Normal
     /\ (exists chosen,
           chosen ∈ List.filter unassigned [Examples.bank1; Examples.bank2]
           /\ trace w' = trace (idle None)
                           ++ [GET; PUT (get chosen "id")
                                      (<["userName" := VString "Alice"]> chosen)])
     /\ currentBank (comp w') = currentBank (comp (idle None))
     /\ error (comp w') = Some "Failed to fetch bank details. Please try again."
     /\ loading (comp w') = false.
Proof.
  assert (H1 : on_get Examples.store_put_fails (length (trace (idle None)))
               = Resolved [Examples.bank1; Examples.bank2]) by reflexivity.
  assert (H2 : Exists (fun bank => unassigned bank = true) [Examples.bank1; Examples.bank2])
    by (apply Exists_cons_hd; vm_compute; reflexivity).
  assert (H3 : (Z.of_nat (length [Examples.bank1; Examples.bank2]) <= MAX_ARRAY_LENGTH)%Z)
    by (vm_compute; discriminate).
  assert (H4 : F64.in_unit_interval
                 (on_random Examples.store_put_fails (draws (idle None))) = true)
    by reflexivity.
  assert (H5 : on_put Examples.store_put_fails (S (length (trace (idle None)))) = Rejected)
    by reflexivity.
  split; [exact H1|]. split; [exact H2|]. split; [exact H3|]. split; [exact H4|].
  split; [exact H5|].
  exact (fetch_claim_rejected Examples.store_put_fails "Alice" (idle None) _ H1 H2 H3 H4 H5).
Defined.

(** ** Cancelling *)

Lemma cancel_body_lookup bank k :
  cancel_body bank !! k =
  if bool_decide (k ∈ reset_fields) then Some (VString "") else bank !! k.
Proof.
  unfold cancel_body, reset_fields.
  repeat (rewrite lookup_insert; destruct (decide (_ = k)) as [<-|?]; [reflexivity|]).
  rewrite bool_decide_eq_false_2; [reflexivity|].
  rewrite !elem_of_cons, elem_of_nil. intuition congruence.
Qed.

(** C7, as stated, fails: when the reset update is rejected the held record
    stays displayed and no next assignment is fetched. *)
Lemma cancel_rejected_keeps_record :
  let w' := snd (run Examples.store_put_fails
                   (handleCancel "Alice" (Some Examples.bank1))
                   (idle (Some Examples.bank1))) in
  trace w' = [PUT (VNumber 1) (cancel_body Examples.bank1)]
  /\ currentBank (comp w') = Some Examples.bank1
  /\ error (comp w') = Some "Failed to cancel assignment. Please try again.".
Proof. vm_compute. repeat split. Qed.

(** C7 (amended): every cancel of a held record issues an update whose body
    is the held record with the assignment field and all outcome fields set
    to the empty string.  When that update succeeds, the component waits
    the settling delay, clears the current record, resets the draft and
    fetches the next assignment, so that the record then displayed, if any,
    is one freshly selected; when it is rejected, the held record is kept
    and the failure is reported. *)
Theorem cancel_resets_then_advances (o : Oracle) (u : string) (bank : Obj) (w : World) :
  let '(c, w') := run o (handleCancel u (Some bank)) w in
  let reset := PUT (get bank "id") (cancel_body bank) in
  (forall k, cancel_body bank !! k =
             if bool_decide (k ∈ reset_fields) then Some (VString "") else bank !! k)
  /\ c = Normal
  /\ (exists rest, trace w' = trace w ++ reset :: rest)
  /\ match on_put o (length (trace w)) with
     | Resolved _ =>
         let cleared :=
           upd with_form_reset
             (upd (with_currentBank None)
                (log (WAIT 1000)
                   (log reset (upd (with_error None) (upd (with_loading true) w))))) in
         w' = upd (with_loading false) (snd (run o (fetchUnassignedBank u) cleared))
         /\ draft (comp w') = defaultValues
         /\ (currentBank (comp w') = None
             \/ exists banks chosen,
                  on_get o (length (trace w) + 2) = Resolved banks
                  /\ chosen ∈ List.filter unassigned banks
                  /\ currentBank (comp w') = Some chosen)
     | Rejected =>
         trace w' = trace w ++ [reset]
         /\ currentBank (comp w') = currentBank (comp w)
         /\ error (comp w') = Some "Failed to cancel assignment. Please try again."
     end.
Proof.
  rewrite run_handleCancel. cbv zeta.
  destruct (on_put o (length (trace w))) as [[]|].
  - set (cleared := upd with_form_reset _).
    pose proof (fetch_outcome o u cleared) as (Hd & _ & _ & Hcur).
    pose proof (run_fetchUnassignedBank o u cleared) as Hrun.
    split; [apply cancel_body_lookup|]. split; [reflexivity|].
    split.
    { assert (Htr : exists rest', trace (snd (run o (fetchUnassignedBank u) cleared))
                                 = trace cleared ++ rest').
      { rewrite Hrun. cbv zeta.
        repeat match goal with
               | |- context [match ?x with _ => _ end] => destruct x
               end; simpl; eexists; rewrite <- ?app_assoc; reflexivity. }
      destruct Htr as [rest' Htr]. exists (WAIT 1000 :: rest').
      cbn [trace upd]. rewrite Htr. subst cleared. cbn [trace upd log].
      rewrite <- !app_assoc. reflexivity. }
    split; [reflexivity|].
    split; [exact Hd|].
    destruct Hcur as [Hcur|(banks & chosen & Hget & Hin & Hcur)].
    + left. exact Hcur.
    + right. exists banks, chosen. repeat split; try assumption.
      rewrite <- Hget. f_equal. subst cleared. cbn [trace upd log].
      rewrite !length_app. simpl. lia.
  - split; [apply cancel_body_lookup|]. split; [reflexivity|].
    split; [exists []; reflexivity|]. repeat split.
Qed.

(** ** Submitting *)

(** The resolver passes over the further issues of a field that has an
    error. *)
Lemma parseErrorSchema_skip k msgs rest errors :
  k ∈ map fst errors ->
  parseErrorSchema (map (pair k) msgs ++ rest) errors = parseErrorSchema rest errors.
Proof.
  intros Hk. induction msgs as [|m msgs IH]; [reflexivity|].
  cbn [map app parseErrorSchema]. rewrite (bool_decide_eq_true_2 _ Hk). exact IH.
Qed.

(** Of the issues of one field it records the first. *)
Lemma parseErrorSchema_field k msgs rest errors :
  k ∉ map fst errors ->
  parseErrorSchema (map (pair k) msgs ++ rest) errors
  = parseErrorSchema rest (errors ++ match msgs with [] => [] | m :: _ => [(k, m)] end).
Proof.
  intros Hk. destruct msgs as [|m msgs].
  - rewrite app_nil_r. reflexivity.
  - cbn [map app parseErrorSchema]. rewrite (bool_decide_eq_false_2 _ Hk).
    apply parseErrorSchema_skip. rewrite map_app. apply elem_of_app. right.
    apply list_elem_of_here.
Qed.

Lemma parseErrorSchema_fields (fields : list (string * (Val -> Schema.Parsed))) d errors :
  NoDup (map fst fields) ->
  (forall k, k ∈ map fst fields -> k ∉ map fst errors) ->
  parseErrorSchema
    (concat (map (fun kp => map (pair (fst kp)) (Schema.issues (snd kp (get d (fst kp)))))
               fields)) errors
  = errors ++ omap (fun kp => pair (fst kp) <$> head (Schema.issues (snd kp (get d (fst kp)))))
                fields.
Proof.
  revert errors. induction fields as [|[k p] fields IH]; intros errors Hnd Hfresh.
  - simpl. rewrite app_nil_r. reflexivity.
  - change (map fst ((k, p) :: fields)) with (k :: map fst fields) in Hnd, Hfresh.
    apply NoDup_cons in Hnd as [Hk Hnd].
    change (parseErrorSchema
              (map (pair k) (Schema.issues (p (get d k)))
               ++ concat (map (fun kp => map (pair (fst kp))
                                           (Schema.issues (snd kp (get d (fst kp)))))
                            fields)) errors
            = errors ++ omap (fun kp => pair (fst kp)
                                          <$> head (Schema.issues (snd kp (get d (fst kp)))))
                          ((k, p) :: fields)).
    rewrite parseErrorSchema_field by (apply Hfresh, list_elem_of_here).
    rewrite IH.
    + destruct (Schema.issues (p (get d k))) as [|m ms] eqn:Hi.
      * rewrite app_nil_r. simpl. rewrite Hi. reflexivity.
      * rewrite <- app_assoc. simpl. rewrite Hi. reflexivity.
    + exact Hnd.
    + intros k' Hk'. rewrite map_app. intros Hin. apply elem_of_app in Hin as [Hin|Hin].
      * apply (Hfresh k'); [apply list_elem_of_further, Hk' | exact Hin].
      * destruct (Schema.issues (p (get d k))) as [|m ms]; simpl in Hin.
        -- inversion Hin.
        -- apply list_elem_of_singleton in Hin as ->. contradiction.
Qed.

(** The field errors of a rejected draft are the first issue of every
    field the schema objects to, and there is at least one. *)
Lemma resolver_errors d errs :
  Schema.parse d = inr errs ->
  parseErrorSchema errs [] = field_errors d /\ field_errors d <> [].
Proof.
  unfold Schema.parse.
  pose proof (SchemaFacts.parse_fields_spec Schema.shape d SchemaFacts.shape_NoDup) as H.
  destruct (Schema.parse_fields Schema.shape d) as [data es].
  destruct H as (_ & _ & Hes).
  destruct es as [|e es]; [discriminate|]. intros [= <-].
  assert (Heq : parseErrorSchema (e :: es) [] = field_errors d).
  { rewrite Hes. rewrite parseErrorSchema_fields.
    - reflexivity.
    - exact SchemaFacts.shape_NoDup.
    - intros k _ Hin. inversion Hin. }
  split; [exact Heq|]. rewrite <- Heq. clear Heq Hes.
  destruct e as [k m]. cbn [parseErrorSchema map]. 
  rewrite bool_decide_eq_false_2 by (intros Hin; inversion Hin).
  cbn [app].
  assert (Hacc : forall zs acc, exists l, parseErrorSchema zs acc = acc ++ l).
  { induction zs as [|[k' m'] zs IH]; intros acc; cbn [parseErrorSchema].
    - exists []. rewrite app_nil_r. reflexivity.
    - destruct (bool_decide (k' ∈ map fst acc)); [apply IH|].
      destruct (IH (acc ++ [(k', m')])) as [l ->]. exists ((k', m') :: l).
      rewrite <- app_assoc. reflexivity. }
  destruct (Hacc es [(k, m)]) as [l ->]. discriminate.
Qed.

Section Submission.
Variable o : Oracle.
Variable u : string.

Lemma run_handleSubmit held d w :
  run o (handleSubmit u held d) w =
  match Schema.parse d with
  | inr errs => (Normal, upd (with_formErrors (parseErrorSchema errs [])) w)
  | inl values => run o (call (onSubmit u held values)) (upd (with_formErrors []) w)
  end.
Proof. unfold handleSubmit. destruct (Schema.parse d); reflexivity. Qed.

(** What the schema lets through unchanged. *)
Lemma parse_keeps d values k p :
  Schema.parse d = inl values ->
  (k, p) ∈ Schema.shape ->
  (forall v, Schema.out (p v) = v) ->
  get values k = get d k.
Proof.
  intros Hp Hin Hout. destruct (SchemaFacts.parse_ok_spec d values Hp) as [Hget _].
  destruct (Hget k p Hin) as [-> _]. apply Hout.
Qed.

Lemma parse_keeps_phoneResponse d values :
  Schema.parse d = inl values -> get values "phoneResponse" = get d "phoneResponse".
Proof.
  intros Hp. apply (parse_keeps d values _ Schema.phoneResponse Hp).
  - unfold Schema.shape. set_solver.
  - intros [|s|n]; simpl; try reflexivity. destruct (bool_decide _); reflexivity.
Qed.

Lemma parse_keeps_response d values :
  Schema.parse d = inl values -> get values "response" = get d "response".
Proof.
  intros Hp. apply (parse_keeps d values _ Schema.response Hp).
  - unfold Schema.shape. set_solver.
  - intros [|s|n]; simpl; try reflexivity. destruct (bool_decide _); reflexivity.
Qed.

Lemma parse_keeps_updateAddress d values :
  Schema.parse d = inl values -> get values "updateAddress" = get d "updateAddress".
Proof.
  intros Hp. apply (parse_keeps d values _ Schema.updateAddress Hp).
  - unfold Schema.shape. set_solver.
  - intros [|s|n]; reflexivity.
Qed.

Lemma parse_keeps_updatedBranchName d values :
  Schema.parse d = inl values ->
  get values "updatedBranchName" = get d "updatedBranchName".
Proof.
  intros Hp. apply (parse_keeps d values _ Schema.updatedBranchName Hp).
  - unfold Schema.shape. set_solver.
  - intros [|s|n]; reflexivity.
Qed.

(** A draft the schema accepts and a conditional rule rejects. *)
Lemma violation_rejected bank d values reason w :
  Schema.parse d = inl values ->
  first_violation values = Some reason ->
  rejected_locally d reason w (snd (run o (handleSubmit u (Some bank) d) w)).
Proof.
  intros Hp Hv. unfold rejected_locally.
  rewrite run_handleSubmit, Hp, run_onSubmit, Hv. cbv zeta. repeat split.
Qed.

(** A draft the schema rejects. *)
Lemma schema_rejected bank d errs reason w :
  Schema.parse d = inr errs ->
  rejected_locally d reason w (snd (run o (handleSubmit u (Some bank) d) w)).
Proof.
  intros Hp. unfold rejected_locally. rewrite run_handleSubmit, Hp.
  destruct (resolver_errors d errs Hp) as [Heq Hne].
  cbn [snd]. rewrite Heq. repeat split. exact Hne.
Qed.

(** C5: a draft whose phone response is [toll_free] or [registered_only]
    and whose response is unset is rejected with a validation error
    before any store call: no update is issued.  The validation error is
    the message of the conditional check when the schema accepts the
    draft, and otherwise one field error, the first issue, for every field
    the schema objects to. *)
Theorem submit_requires_response bank d w :
  includes successfulResponses (get d "phoneResponse") = true ->
  falsy (get d "response") = true ->
  let w' := snd (run o (handleSubmit u (Some bank) d) w) in
  rejected_locally d "Response type is required for successful calls" w w'
  /\ puts (trace w') = puts (trace w).
Proof.
  intros Hphone Hresp. cbv zeta.
  assert (H : rejected_locally d "Response type is required for successful calls" w
                (snd (run o (handleSubmit u (Some bank) d) w))).
  { destruct (Schema.parse d) as [values|errs] eqn:Hp.
    - apply (violation_rejected _ _ values); [exact Hp|].
      rewrite first_violation_cases, (parse_keeps_phoneResponse _ _ Hp),
        (parse_keeps_response _ _ Hp), Hphone, Hresp. reflexivity.
    - apply (schema_rejected _ _ errs), Hp. }
  split; [exact H|]. destruct H as [-> _]. reflexivity.
Qed.

(** The schema is checked first; on data it accepts, the first conditional
    rule violated, in the order of the rules, decides; when none is violated
    the update is issued. *)
Lemma submit_outcome bank d w :
  let w' := snd (run o (handleSubmit u (Some bank) d) w) in
  match Schema.parse d with
  | inr _ => w' = upd (with_formErrors (field_errors d)) w
  | inl values =>
      match first_violation values with
      | Some reason =>
          trace w' = trace w /\ error (comp w') = Some reason
      | None =>
          trace w' = trace w ++ [PUT (get bank "id") (spread2 bank values)]
      end
  end.
Proof.
  cbv zeta.
  rewrite run_handleSubmit. destruct (Schema.parse d) as [values|errs] eqn:Hp.
  2: { destruct (resolver_errors d errs Hp) as [-> _]. reflexivity. }
  rewrite run_onSubmit. cbv zeta.
  destruct (first_violation values) as [reason|]; [split; reflexivity|].
  destruct (on_put o _) as [[]|]; [|reflexivity].
  match goal with |- context [run_sync o ?p ?w0] =>
    pose proof (run_sync_trace o p w0) as Htr;
    destruct (run_sync o p w0) as [rest w3] end.
  simpl in Htr |- *. rewrite park_trace. exact Htr.
Qed.

(** C6: a draft whose response is [address_change] with an empty or absent
    [updateAddress] is rejected with a validation error and no update is
    issued; likewise [branch_name_change] with an empty
    [updatedBranchName] and [bank_shift] with an empty [updateAddress].
    The schema is checked first: when it objects, every field it objects
    to gets one field error, its first issue, and nothing else happens;
    when it accepts the draft, the conditional rules are checked in their
    fixed order and the first one violated gives the reason; when none is
    violated the update is issued. *)
Theorem submit_conditional_requirements bank d w :
  let w' := snd (run o (handleSubmit u (Some bank) d) w) in
  (is_str (get d "response") "address_change" = true ->
   falsy (get d "updateAddress") = true ->
   rejected_locally d "Updated address is required for address change" w w')
  /\ (is_str (get d "response") "branch_name_change" = true ->
      falsy (get d "updatedBranchName") = true ->
      rejected_locally d "Updated branch name is required for branch name change" w w')
  /\ (is_str (get d "response") "bank_shift" = true ->
      falsy (get d "updateAddress") = true ->
      rejected_locally d "Updated address is required for bank shift" w w')
  /\ match Schema.parse d with
     | inr _ => w' = upd (with_formErrors (field_errors d)) w
     | inl values =>
         match first_violation values with
         | Some reason =>
             trace w' = trace w /\ error (comp w') = Some reason
         | None =>
             trace w' = trace w ++ [PUT (get bank "id") (spread2 bank values)]
         end
     end.
Proof.
  cbv zeta.
  assert (Hcase : forall resp field reason,
             (forall values, Schema.parse d = inl values ->
                             get values field = get d field) ->
             (forall values,
                 is_str (get values "response") resp = true ->
                 falsy (get values field) = true ->
                 first_violation values = Some reason) ->
             is_str (get d "response") resp = true ->
             falsy (get d field) = true ->
             rejected_locally d reason w (snd (run o (handleSubmit u (Some bank) d) w))).
  { intros resp field reason Hkeep Hrule Hresp Hfield.
    destruct (Schema.parse d) as [values|errs] eqn:Hp.
    - apply (violation_rejected _ _ values); [exact Hp|].
      apply Hrule.
      + rewrite (parse_keeps_response _ _ Hp). exact Hresp.
      + rewrite (Hkeep _ eq_refl). exact Hfield.
    - apply (schema_rejected _ _ errs), Hp. }
  split; [|split; [|split]].
  - apply (Hcase "address_change" "updateAddress").
    + intros values. apply parse_keeps_updateAddress.
    + intros values Hr Hf. rewrite first_violation_cases, Hr, Hf.
      apply bool_decide_eq_true in Hr. rewrite Hr. simpl.
      rewrite andb_false_r. reflexivity.
  - apply (Hcase "branch_name_change" "updatedBranchName").
    + intros values. apply parse_keeps_updatedBranchName.
    + intros values Hr Hf. rewrite first_violation_cases, Hf.
      apply bool_decide_eq_true in Hr. rewrite Hr. simpl.
      rewrite andb_false_r. reflexivity.
  - apply (Hcase "bank_shift" "updateAddress").
    + intros values. apply parse_keeps_updateAddress.
    + intros values Hr Hf. rewrite first_violation_cases, Hf.
      apply bool_decide_eq_true in Hr. rewrite Hr. simpl.
      rewrite andb_false_r. reflexivity.
  - apply submit_outcome.
Qed.

End Submission.

Section SubmittedBody.
Variable o : Oracle.
Variable u : string.

(** The request of a submission that passes the schema and the
    conditional rules, whether or not the store accepts it. *)
Lemma submit_trace bank d values w :
  Schema.parse d = inl values ->
  first_violation values = None ->
  trace (snd (run o (handleSubmit u (Some bank) d) w))
  = trace w ++ [PUT (get bank "id") (spread2 bank values)].
Proof.
  intros Hp Hv.
  pose proof (submit_outcome o u bank d w) as H. cbv zeta in H.
  rewrite Hp, Hv in H. exact H.
Qed.

Lemma descriptive_not_form k : k ∈ descriptive_fields -> k ∉ form_fields.
Proof.
  unfold descriptive_fields. rewrite !elem_of_cons, elem_of_nil.
  intros [->|[->|[->|[->|[]]]]]; apply (bool_decide_unpack _); vm_compute; exact I.
Qed.

(** C8: the update issued for a valid draft carries the held record's
    descriptive fields ([bankName], [ifscCode], [branchName], [address])
    unchanged, and the validated outcome fields; outside the form's
    fields the body is the held record. *)
Theorem submit_preserves_descriptive_fields bank d values w :
  Schema.parse d = inl values ->
  first_violation values = None ->
  let w' := snd (run o (handleSubmit u (Some bank) d) w) in
  exists body,
    trace w' = trace w ++ [PUT (get bank "id") body]
    /\ body = spread2 bank values
    /\ (forall k, k ∈ descriptive_fields -> body !! k = bank !! k)
    /\ (forall k, k ∉ form_fields -> body !! k = bank !! k)
    /\ (forall k v, values !! k = Some v -> body !! k = Some v)
    /\ (forall k p, (k, p) ∈ Schema.shape ->
          get values k = Schema.out (p (get d k))
          /\ Schema.issues (p (get d k)) = []).
Proof.
  intros Hp Hv. cbv zeta. exists (spread2 bank values).
  destruct (SchemaFacts.parse_ok_spec d values Hp) as [Hget Hdom].
  split; [apply submit_trace; assumption|]. split; [reflexivity|].
  assert (Hframe : forall k, k ∉ form_fields -> spread2 bank values !! k = bank !! k).
  { intros k Hk. unfold spread2. apply lookup_union_r, Hdom, Hk. }
  split; [intros k Hk; apply Hframe, descriptive_not_form, Hk|].
  split; [exact Hframe|].
  split; [|exact Hget].
  intros k v Hk. unfold spread2. apply lookup_union_Some_l, Hk.
Qed.

(** A record presented by the selector, when none was held, is a record of
    the fetched list as it was fetched, with an empty assignment field. *)
Lemma presented_is_unassigned w bank :
  currentBank (comp w) = None ->
  currentBank (comp (snd (run o (fetchUnassignedBank u) w))) = Some bank ->
  unassigned bank = true
  /\ exists banks, on_get o (length (trace w)) = Resolved banks /\ bank ∈ banks.
Proof.
  intros Hnone Hsome.
  destruct (fetch_outcome o u w) as (_ & _ & _ & [Hsame|(banks & chosen & Hget & Hin & Hcur)]).
  - congruence.
  - rewrite Hcur in Hsome. injection Hsome as <-.
    destruct (filter_unassigned_elem_of banks chosen Hin) as [Hb Hun].
    split; [exact Hun|]. exists banks. split; [exact Hget | exact Hb].
Qed.

(** C2: for a record obtained from the selector (a record of the fetched
    list as it was fetched, its assignment field empty) and a valid draft,
    the update issued by the submission is the merge of that record with
    the parsed draft: every property of the body is the value of the
    parsed draft where it has one (the validated value of each form field
    the draft gave) and the value of the record elsewhere; the parsed
    draft has no [userName], so the body carries the empty assignment
    field of the record as fetched, and counts as available. *)
Theorem submit_writes_back_unassigned w0 bank d values :
  currentBank (comp w0) = None ->
  let w1 := snd (run o (fetchUnassignedBank u) w0) in
  currentBank (comp w1) = Some bank ->
  Schema.parse d = inl values ->
  first_violation values = None ->
  let w2 := snd (run o (handleSubmit u (currentBank (comp w1)) d) w1) in
  unassigned bank = true
  /\ empty_assignment bank
  /\ (exists banks, on_get o (length (trace w0)) = Resolved banks /\ bank ∈ banks)
  /\ exists body,
       trace w2 = trace w1 ++ [PUT (get bank "id") body]
       /\ body = spread2 bank values
       /\ merge_of bank values body
       /\ (forall k v, values !! k = Some v -> body !! k = Some v)
       /\ (forall k, k ∉ form_fields -> body !! k = bank !! k)
       /\ (forall k p, (k, p) ∈ Schema.shape ->
             get values k = Schema.out (p (get d k))
             /\ Schema.issues (p (get d k)) = []
             /\ (get values k <> VUndefined -> get body k = get values k))
       /\ values !! "userName" = None
       /\ body !! "userName" = bank !! "userName"
       /\ unassigned body = true
       /\ empty_assignment body.
Proof.
  intros Hnone w1 Hheld Hp Hv w2.
  destruct (presented_is_unassigned w0 bank Hnone Hheld) as [Hun Hfetched].
  split; [exact Hun|]. split; [apply unassigned_spec, Hun|]. split; [exact Hfetched|].
  exists (spread2 bank values).
  destruct (SchemaFacts.parse_ok_spec d values Hp) as [Hget Hdom].
  assert (Hno : values !! "userName" = None).
  { apply Hdom. apply (bool_decide_unpack _). vm_compute. exact I. }
  assert (Hbody : spread2 bank values !! "userName" = bank !! "userName")
    by (apply lookup_union_r, Hno).
  assert (Hmerge : merge_of bank values (spread2 bank values)).
  { intros k. unfold spread2. destruct (values !! k) as [v|] eqn:Hk.
    - apply lookup_union_Some_l, Hk.
    - apply lookup_union_r, Hk. }
  assert (Hbun : unassigned (spread2 bank values) = true).
  { unfold unassigned, get in *. rewrite Hbody. exact Hun. }
  split.
  { subst w2. rewrite Hheld. apply submit_trace; assumption. }
  split; [reflexivity|]. split; [exact Hmerge|].
  split.
  { intros k v Hk. rewrite (Hmerge k), Hk. reflexivity. }
  split.
  { intros k Hk. rewrite (Hmerge k), (Hdom k Hk). reflexivity. }
  split.
  { intros k p Hin. destruct (Hget k p Hin) as [Hout Hiss].
    split; [exact Hout|]. split; [exact Hiss|].
    intros Hdef. unfold get in Hdef |- *. rewrite (Hmerge k).
    destruct (values !! k) as [v|]; [reflexivity|]. destruct Hdef. reflexivity. }
  split; [exact Hno|]. split; [exact Hbody|]. split; [exact Hbun|].
  apply unassigned_spec, Hbun.
Qed.

End SubmittedBody.

(** A toll-free call submitted without a response type. *)
Lemma submit_requires_response_witness :
  includes successfulResponses (get Examples.draft_no_response "phoneResponse") = true
  /\ falsy (get Examples.draft_no_response "response") = true
  /\ let w' := snd (run Examples.store_ok
                      (handleSubmit "Alice" (Some Examples.bank1) Examples.draft_no_response)
                      (idle (Some Examples.bank1))) in
     rejected_locally Examples.draft_no_response
       "Response type is required for successful calls" (idle (Some Examples.bank1)) w'
     /\ puts (trace w') = puts (trace (idle (Some Examples.bank1))).
Proof.
  assert (H1 : includes successfulResponses
                 (get Examples.draft_no_response "phoneResponse") = true)
    by (vm_compute; reflexivity).
  assert (H2 : falsy (get Examples.draft_no_response "response") = true)
    by (vm_compute; reflexivity).
  split; [exact H1|]. split; [exact H2|].
  exact (submit_requires_response Examples.store_ok "Alice" Examples.bank1
           Examples.draft_no_response (idle (Some Examples.bank1)) H1 H2).
Defined.

(** The three conditional requirements, each on a draft that lacks the
    required field. *)
Lemma submit_conditional_requirements_witness :
  rejected_locally Examples.draft_no_address
    "Updated address is required for address change" (idle (Some Examples.bank1))
    (snd (run Examples.store_ok
            (handleSubmit "Alice" (Some Examples.bank1) Examples.draft_no_address)
            (idle (Some Examples.bank1))))
  /\ rejected_locally Examples.draft_no_branch_name
       "Updated branch name is required for branch name change" (idle (Some Examples.bank1))
       (snd (run Examples.store_ok
               (handleSubmit "Alice" (Some Examples.bank1) Examples.draft_no_branch_name)
               (idle (Some Examples.bank1))))
  /\ rejected_locally Examples.draft_no_shift_address
       "Updated address is required for bank shift" (idle (Some Examples.bank1))
       (snd (run Examples.store_ok
               (handleSubmit "Alice" (Some Examples.bank1) Examples.draft_no_shift_address)
               (idle (Some Examples.bank1))))
  /\ rejected_locally Examples.draft_empty_address
       "Updated address is required for address change" (idle (Some Examples.bank1))
       (snd (run Examples.store_ok
               (handleSubmit "Alice" (Some Examples.bank1) Examples.draft_empty_address)
               (idle (Some Examples.bank1)))).
Proof.
  split; [|split; [|split]].
  - apply (submit_conditional_requirements Examples.store_ok "Alice" Examples.bank1
             Examples.draft_no_address (idle (Some Examples.bank1)));
      vm_compute; reflexivity.
  - apply (submit_conditional_requirements Examples.store_ok "Alice" Examples.bank1
             Examples.draft_no_branch_name (idle (Some Examples.bank1)));
      vm_compute; reflexivity.
  - apply (submit_conditional_requirements Examples.store_ok "Alice" Examples.bank1
             Examples.draft_no_shift_address (idle (Some Examples.bank1)));
      vm_compute; reflexivity.
  - apply (proj1 (submit_conditional_requirements Examples.store_ok "Alice" Examples.bank1
                    Examples.draft_empty_address (idle (Some Examples.bank1))));
      vm_compute; reflexivity.
Defined.

(** The field errors on drafts the schema objects to: an emptied address
    raises two issues and gets one field error; a phone number of four
    digits starting with 0 raises two issues and gets one field error,
    beside the one of the missing phone response. *)
Example field_errors_first_issue :
  Schema.issues (Schema.updateAddress (VString ""))
  = ["Address must be at least 10 characters";
     "Address can only contain letters, numbers, spaces, commas, dots, and hyphens"]
  /\ formErrors (comp (snd (run Examples.store_ok
                              (handleSubmit "Alice" (Some Examples.bank1)
                                 Examples.draft_empty_address)
                              (idle (Some Examples.bank1)))))
     = [("updateAddress", "Address must be at least 10 characters")]
  /\ field_errors (<["phoneNumber" := VString "0123"]> defaultValues)
     = [("phoneNumber", "Phone number must be at least 10 digits");
        ("phoneResponse", "Please select a phone response type")]
  /\ Schema.issues (Schema.phoneResponse (VString "busy"))
     = ["Invalid enum value. Expected 'toll_free' | 'registered_only' | 'invalid_number' | 'no_response' | 'switched_off' | 'number_not_found', received 'busy'"].
Proof. vm_compute. repeat split. Qed.

(** A complete address change submitted for [bank1]. *)
Lemma submit_preserves_descriptive_fields_witness :
  Schema.parse Examples.draft_address_change = inl Examples.values_address_change
  /\ first_violation Examples.values_address_change = None
  /\ let w' := snd (run Examples.store_ok
                      (handleSubmit "Alice" (Some Examples.bank1)
                         Examples.draft_address_change)
                      (idle (Some Examples.bank1))) in
     exists body,
       trace w' = trace (idle (Some Examples.bank1)) ++ [PUT (get Examples.bank1 "id") body]
       /\ body = spread2 Examples.bank1 Examples.values_address_change
       /\ (forall k, k ∈ descriptive_fields -> body !! k = Examples.bank1 !! k)
       /\ (forall k, k ∉ form_fields -> body !! k = Examples.bank1 !! k)
       /\ (forall k v, Examples.values_address_change !! k = Some v -> body !! k = Some v)
       /\ (forall k p, (k, p) ∈ Schema.shape ->
             get Examples.values_address_change k
               = Schema.out (p (get Examples.draft_address_change k))
             /\ Schema.issues (p (get Examples.draft_address_change k)) = []).
Proof.
  assert (H1 : Schema.parse Examples.draft_address_change
               = inl Examples.values_address_change) by (vm_compute; reflexivity).
  assert (H2 : first_violation Examples.values_address_change = None)
    by (vm_compute; reflexivity).
  split; [exact H1|]. split; [exact H2|].
  exact (submit_preserves_descriptive_fields Examples.store_ok "Alice" Examples.bank1
           Examples.draft_address_change Examples.values_address_change
           (idle (Some Examples.bank1)) H1 H2).
Defined.

(** [bank1] selected for Alice, then submitted with a complete draft. *)
Lemma submit_writes_back_unassigned_witness :
  currentBank (comp (idle None)) = None
  /\ let w1 := snd (run Examples.store_ok (fetchUnassignedBank "Alice") (idle None)) in
     currentBank (comp w1) = Some Examples.bank1
     /\ Schema.parse Examples.draft_address_change = inl Examples.values_address_change
     /\ first_violation Examples.values_address_change = None
     /\ let w2 := snd (run Examples.store_ok
                         (handleSubmit "Alice" (currentBank (comp w1))
                            Examples.draft_address_change) w1) in
        unassigned Examples.bank1 = true
        /\ empty_assignment Examples.bank1
        /\ (exists banks, on_get Examples.store_ok (length (trace (idle None)))
                            = Resolved banks /\ Examples.bank1 ∈ banks)
        /\ exists body,
             trace w2 = trace w1 ++ [PUT (get Examples.bank1 "id") body]
             /\ body = spread2 Examples.bank1 Examples.values_address_change
             /\ merge_of Examples.bank1 Examples.values_address_change body
             /\ (forall k v, Examples.values_address_change !! k = Some v ->
                             body !! k = Some v)
             /\ (forall k, k ∉ form_fields -> body !! k = Examples.bank1 !! k)
             /\ (forall k p, (k, p) ∈ Schema.shape ->
                   get Examples.values_address_change k
                     = Schema.out (p (get Examples.draft_address_change k))
                   /\ Schema.issues (p (get Examples.draft_address_change k)) = []
                   /\ (get Examples.values_address_change k <> VUndefined ->
                       get body k = get Examples.values_address_change k))
             /\ Examples.values_address_change !! "userName" = None
             /\ body !! "userName" = Examples.bank1 !! "userName"
             /\ unassigned body = true
             /\ empty_assignment body.
Proof.
  assert (H0 : currentBank (comp (idle None)) = None) by reflexivity.
  assert (H1 : currentBank
                 (comp (snd (run Examples.store_ok (fetchUnassignedBank "Alice") (idle None))))
               = Some Examples.bank1) by (vm_compute; reflexivity).
  assert (H2 : Schema.parse Examples.draft_address_change
               = inl Examples.values_address_change) by (vm_compute; reflexivity).
  assert (H3 : first_violation Examples.values_address_change = None)
    by (vm_compute; reflexivity).
  split; [exact H0|]. cbv zeta. split; [exact H1|]. split; [exact H2|]. split; [exact H3|].
  exact (submit_writes_back_unassigned Examples.store_ok "Alice" (idle None) Examples.bank1
           Examples.draft_address_change Examples.values_address_change H0 H1 H2 H3).
Defined.

(** ** The identity holder *)

Module IdentityFacts.
Import Identity.

Lemma trimStart_suffix cs :
  exists front, cs = front ++ Str.trimStart cs /\ Forall (fun c => Str.is_space c = true) front.
Proof.
  induction cs as [|c cs (front & Heq & Hall)]; simpl.
  - exists []. split; [reflexivity | constructor].
  - destruct (Str.is_space c) eqn:Hc.
    + exists (c :: front). split; [simpl; congruence | constructor; assumption].
    + exists []. split; [reflexivity | constructor].
Qed.

Lemma trimStart_head cs c rest :
  Str.trimStart cs = c :: rest -> Str.is_space c = false.
Proof.
  induction cs as [|c' cs IH]; simpl; [discriminate|].
  destruct (Str.is_space c') eqn:Hc; [exact IH|].
  intros [= <- _]. exact Hc.
Qed.

Lemma trimStart_fixed cs :
  (forall c rest, cs = c :: rest -> Str.is_space c = false) -> Str.trimStart cs = cs.
Proof.
  destruct cs as [|c cs]; intros H; simpl; [reflexivity|].
  rewrite (H c cs eq_refl). reflexivity.
Qed.

(** The trimmed list is a segment of the input, between white space. *)
Lemma trim_segment cs :
  exists front back,
    cs = front ++ Str.trim cs ++ back
    /\ Forall (fun c => Str.is_space c = true) front
    /\ Forall (fun c => Str.is_space c = true) back.
Proof.
  unfold Str.trim.
  destruct (trimStart_suffix cs) as (front & Hcs & Hfront).
  destruct (trimStart_suffix (rev (Str.trimStart cs))) as (kcab & Hrev & Hback).
  exists front, (rev kcab). split; [|split].
  - rewrite Hcs at 1. f_equal. rewrite <- rev_app_distr, <- Hrev, rev_involutive. reflexivity.
  - exact Hfront.
  - apply Forall_rev. exact Hback.
Qed.

Lemma trim_head cs c rest : Str.trim cs = c :: rest -> Str.is_space c = false.
Proof.
  unfold Str.trim. intros H.
  destruct (trimStart_suffix (rev (Str.trimStart cs))) as (kcab & Hrev & _).
  apply (f_equal (@rev ascii)) in Hrev. rewrite rev_involutive, rev_app_distr, H in Hrev.
  simpl in Hrev. apply (trimStart_head cs c (rest ++ rev kcab)). exact Hrev.
Qed.

Lemma trim_last cs c front : Str.trim cs = front ++ [c] -> Str.is_space c = false.
Proof.
  unfold Str.trim. intros H.
  apply (f_equal (@rev ascii)) in H. rewrite rev_involutive, rev_app_distr in H.
  simpl in H. eapply trimStart_head, H.
Qed.

Lemma trim_fixed cs :
  (forall c rest, cs = c :: rest -> Str.is_space c = false) ->
  (forall c front, cs = front ++ [c] -> Str.is_space c = false) ->
  Str.trim cs = cs.
Proof.
  intros Hhead Hlast. unfold Str.trim. rewrite (trimStart_fixed cs Hhead).
  rewrite trimStart_fixed; [apply rev_involutive|].
  intros c rest Hrev. apply (Hlast c (rev rest)).
  rewrite <- (rev_involutive cs), Hrev. reflexivity.
Qed.

Lemma trim_idempotent cs : Str.trim (Str.trim cs) = Str.trim cs.
Proof. apply trim_fixed; [apply trim_head | apply trim_last]. Qed.

Lemma chars_trim s : Str.chars (trim s) = Str.trim (Str.chars s).
Proof. unfold trim, Str.chars. apply list_ascii_of_string_of_list_ascii. Qed.

Lemma trim_trim s : trim (trim s) = trim s.
Proof. unfold trim at 1. rewrite chars_trim, trim_idempotent. reflexivity. Qed.

Lemma trim_trimmed s : trimmed (trim s).
Proof.
  unfold trimmed. rewrite chars_trim. split.
  - apply trim_head.
  - apply trim_last.
Qed.

Lemma truthy_spec s : truthy s = true <-> s <> "".
Proof.
  unfold truthy. rewrite negb_true_iff, bool_decide_eq_false. reflexivity.
Qed.

(** [handleNameChange] on an answer is [handleNameSubmit] on it. *)
Lemma handleNameChange_Some name st :
  handleNameChange (Some name) st = handleNameSubmit name st.
Proof. reflexivity. Qed.

Lemma handleNameSubmit_accepts name st :
  trim name <> "" ->
  handleNameSubmit name st =
  {| userName := trim name ;
     localStorage := <["userName" := trim name]> (localStorage st) |}.
Proof.
  intros Hne. unfold handleNameSubmit.
  apply truthy_spec in Hne as ->. reflexivity.
Qed.

Lemma init_insert name storage :
  init (<["userName" := name]> storage) =
  {| userName := name ; localStorage := <["userName" := name]> storage |}.
Proof. unfold init. rewrite lookup_insert_eq. reflexivity. Qed.

(** X1: a name with something besides white space is stored trimmed, in the
    state and in the storage alike; the other storage keys are kept. *)
Theorem handleNameSubmit_stores_trimmed (name : string) (st : State) :
  trim name <> "" ->
  let st' := handleNameSubmit name st in
  userName st' = trim name
  /\ localStorage st' !! "userName" = Some (trim name)
  /\ userName st' <> ""
  /\ trimmed (userName st')
  /\ (forall k, k <> "userName" -> localStorage st' !! k = localStorage st !! k)
  /\ init (localStorage st') = st'.
Proof.
  intros Hne. cbv zeta. rewrite (handleNameSubmit_accepts name st Hne).
  cbn [userName localStorage].
  split; [reflexivity|]. split; [apply lookup_insert_eq|]. split; [exact Hne|].
  split; [apply trim_trimmed|]. split.
  - intros k Hk. apply lookup_insert_ne. congruence.
  - apply init_insert.
Qed.

(** X2: a name that is empty or all white space is rejected with no change
    of state, whether it comes from the name form or from the prompt, and
    so is a dismissed prompt. *)
Theorem blank_name_rejected (name : string) (st : State) :
  trim name = "" ->
  handleNameSubmit name st = st
  /\ name_form_submit (Some name) st = st
  /\ handleNameChange (Some name) st = st
  /\ handleNameChange None st = st
  /\ name_form_submit None st = st.
Proof.
  intros Hblank.
  assert (H : handleNameSubmit name st = st).
  { unfold handleNameSubmit, truthy. rewrite Hblank. reflexivity. }
  repeat split; try exact H.
  unfold name_form_submit. rewrite H. destruct (truthy name); reflexivity.
Qed.

Lemma step_cases st a :
  step st a = st
  \/ exists name, trim name <> "" /\ step st a = handleNameSubmit name st.
Proof.
  destruct a as [[v|]|[v|]]; cbn [step name_form_submit handleNameChange];
    try (left; reflexivity).
  - destruct (truthy v); [|left; reflexivity].
    unfold handleNameSubmit. destruct (truthy (trim v)) eqn:Ht; [|left; reflexivity].
    right. exists v. split; [apply truthy_spec, Ht|].
    unfold handleNameSubmit. rewrite Ht. reflexivity.
  - destruct (truthy (trim v)) eqn:Ht; [|left; reflexivity].
    right. exists v. split; [apply truthy_spec, Ht|].
    unfold handleNameSubmit. rewrite Ht. reflexivity.
Qed.

(** X3: whatever the caller does, starting from a freshly loaded component,
    the name in the state is the one in the storage (reloading the page
    gives the same state); the name is the stored one or a trimmed name
    that is not empty; and a caller who has a name never loses it. *)
Theorem identity_persistent (storage : gmap string string) (actions : list Action) :
  let st := fold_left step actions (init storage) in
  init (localStorage st) = st
  /\ (userName st = userName (init storage)
      \/ (userName st <> "" /\ trimmed (userName st)))
  /\ (userName (init storage) <> "" -> userName st <> "").
Proof.
  cbv zeta.
  assert (Hinv : forall acts st,
             init (localStorage st) = st ->
             let st' := fold_left step acts st in
             init (localStorage st') = st'
             /\ (userName st' = userName st
                 \/ (userName st' <> "" /\ trimmed (userName st')))).
  { induction acts as [|a acts IH]; intros st Hst; cbn [fold_left].
    - split; [exact Hst | left; reflexivity].
    - destruct (step_cases st a) as [->|(name & Hne & ->)].
      + apply IH, Hst.
      + rewrite (handleNameSubmit_accepts name st Hne).
        destruct (IH {| userName := trim name ;
                        localStorage := <["userName" := trim name]> (localStorage st) |}
                    (init_insert (trim name) (localStorage st))) as [H1 H2].
        split; [exact H1|].
        destruct H2 as [H2|H2]; [|right; exact H2].
        right. rewrite H2. cbn [userName].
        split; [exact Hne | apply trim_trimmed]. }
  destruct (Hinv actions (init storage) eq_refl) as [H1 H2].
  split; [exact H1|]. split; [exact H2|].
  intros Hnamed. destruct H2 as [H2|[H2 _]]; [rewrite H2; exact Hnamed | exact H2].
Qed.

(** X4: submitting the same name twice, or the name as it was stored, is
    the same as submitting it once. *)
Theorem handleNameSubmit_idempotent (name : string) (st : State) :
  let st' := handleNameSubmit name st in
  handleNameSubmit name st' = st'
  /\ handleNameSubmit (trim name) st' = st'.
Proof.
  cbv zeta. unfold handleNameSubmit. rewrite trim_trim.
  destruct (truthy (trim name)) eqn:Ht.
  - cbn [userName localStorage]. rewrite insert_insert_eq. split; reflexivity.
  - split; reflexivity.
Qed.

End IdentityFacts.

(** ** The QR payload *)

Module QRFacts.
Import QR.

Lemma encode_char_safe c : forallb encoded_char (encode_char c) = true.
Proof. destruct c as [[] [] [] [] [] [] [] []]; vm_compute; reflexivity. Qed.

Lemma urldecode_encode_char c rest :
  urldecode (encode_char c ++ rest) = c :: urldecode rest.
Proof. destruct c as [[] [] [] [] [] [] [] []]; reflexivity. Qed.

Lemma urlencode_safe s : Forall (fun c => encoded_char c = true) (urlencode s).
Proof.
  unfold urlencode. induction (Str.chars s) as [|c cs IH]; simpl; [constructor|].
  apply Forall_app. split; [|exact IH].
  apply Forall_forall. intros x Hx. 
  pose proof (encode_char_safe c) as H. rewrite forallb_forall in H. 
  apply H, list_elem_of_In, Hx.
Qed.

Lemma urldecode_urlencode_app s rest :
  urldecode (urlencode s ++ rest) = Str.chars s ++ urldecode rest.
Proof.
  unfold urlencode. induction (Str.chars s) as [|c cs IH]; simpl; [reflexivity|].
  rewrite <- app_assoc, urldecode_encode_char, IH. reflexivity.
Qed.

Lemma chars_inj s t : Str.chars s = Str.chars t -> s = t.
Proof.
  unfold Str.chars. intros H.
  rewrite <- (string_of_list_ascii_of_string s), H. apply string_of_list_ascii_of_string.
Qed.

Lemma urlencode_inj s t : urlencode s = urlencode t -> s = t.
Proof.
  intros H. apply chars_inj.
  pose proof (urldecode_urlencode_app s []) as Hs.
  pose proof (urldecode_urlencode_app t []) as Ht.
  cbn [urldecode] in Hs, Ht.
  rewrite (List.app_nil_r (urlencode s)), (List.app_nil_r (Str.chars s)) in Hs.
  rewrite (List.app_nil_r (urlencode t)), (List.app_nil_r (Str.chars t)) in Ht.
  congruence.
Qed.

(** Two lists that agree up to a separator neither contains agree part by
    part. *)
Lemma split_at_separator (sep : ascii) (a a' r r' : list ascii) :
  sep ∉ a -> sep ∉ a' ->
  a ++ sep :: r = a' ++ sep :: r' -> a = a' /\ r = r'.
Proof.
  revert a'. induction a as [|x a IH]; intros [|x' a'] Ha Ha' H; simpl in H.
  - injection H as ->. split; reflexivity.
  - injection H as <- _. exfalso. apply Ha'. left.
  - injection H as -> _. exfalso. apply Ha. left.
  - injection H as -> H. apply not_elem_of_cons in Ha as [_ Ha].
    apply not_elem_of_cons in Ha' as [_ Ha'].
    destruct (IH a' Ha Ha' H) as [-> ->]. split; reflexivity.
Qed.

Lemma urlencode_no_separator s (sep : ascii) :
  encoded_char sep = false -> sep ∉ urlencode s.
Proof.
  intros Hsep Hin. pose proof (urlencode_safe s) as H.
  rewrite Forall_forall in H. apply H in Hin. congruence.
Qed.

Lemma serialize_cons name value p rest :
  serialize ((name, value) :: p :: rest)
  = urlencode name ++ "="%char :: urlencode value ++ "&"%char :: serialize (p :: rest).
Proof. reflexivity. Qed.

(** Pairs with the same names serialise to the same text only when their
    values are the same. *)
Lemma serialize_inj ps ps' :
  map fst ps = map fst ps' -> serialize ps = serialize ps' -> ps = ps'.
Proof.
  revert ps'. induction ps as [|[n v] ps IH]; intros [|[n' v'] ps'] Hn H;
    try discriminate; [reflexivity|].
  cbn [map fst] in Hn. injection Hn as <- Hn.
  assert (Hamp : encoded_char "&" = false) by reflexivity.
  destruct ps as [|p ps], ps' as [|p' ps']; try discriminate.
  - cbn [serialize] in H. apply app_inv_head in H. injection H as H.
    apply urlencode_inj in H. subst. reflexivity.
  - rewrite !serialize_cons in H. apply app_inv_head in H. injection H as H.
    apply split_at_separator in H as [Hv Hrest];
      try (apply urlencode_no_separator; exact Hamp).
    apply urlencode_inj in Hv. subst v'. f_equal. apply IH; assumption.
Qed.

Lemma append_inv_head (p a b : string) : (p ++ a = p ++ b)%string -> a = b.
Proof. induction p as [|c p IH]; simpl; [tauto|]. intros [= H]. apply IH, H. Qed.

Lemma string_of_list_ascii_inj l l' :
  string_of_list_ascii l = string_of_list_ascii l' -> l = l'.
Proof.
  intros H. rewrite <- (list_ascii_of_string_of_list_ascii l), H.
  apply list_ascii_of_string_of_list_ascii.
Qed.

Lemma count_occ_urlencode s (sep : ascii) :
  encoded_char sep = false -> count_occ ascii_dec (urlencode s) sep = 0%nat.
Proof.
  intros Hsep. apply count_occ_not_In. rewrite <- list_elem_of_In.
  apply urlencode_no_separator, Hsep.
Qed.

Lemma serialize_safe ps :
  Forall (fun c => encoded_char c = true \/ c = "&"%char \/ c = "="%char) (serialize ps).
Proof.
  assert (Henc : forall s,
             Forall (fun c => encoded_char c = true \/ c = "&"%char \/ c = "="%char)
               (urlencode s)).
  { intros s. eapply Forall_impl; [apply urlencode_safe|]. intros c Hc. left. exact Hc. }
  induction ps as [|[n v] ps IH]; [constructor|].
  destruct ps as [|p ps].
  - cbn [serialize]. apply Forall_app. split; [apply Henc|].
    constructor; [right; right; reflexivity | apply Henc].
  - rewrite serialize_cons. apply Forall_app. split; [apply Henc|].
    constructor; [right; right; reflexivity|].
    apply Forall_app. split; [apply Henc|].
    constructor; [right; left; reflexivity | exact IH].
Qed.

Lemma count_occ_head (x c : ascii) l :
  count_occ ascii_dec (x :: l) c
  = ((if ascii_dec x c then 1 else 0) + count_occ ascii_dec l c)%nat.
Proof. simpl. destruct (ascii_dec x c); reflexivity. Qed.

(** One [=] per pair and one [&] between two pairs. *)
Lemma serialize_separators ps :
  count_occ ascii_dec (serialize ps) "="%char = length ps
  /\ count_occ ascii_dec (serialize ps) "&"%char = (length ps - 1)%nat.
Proof.
  assert (Heq : encoded_char "=" = false) by reflexivity.
  assert (Hamp : encoded_char "&" = false) by reflexivity.
  induction ps as [|[n v] ps [IH1 IH2]]; [split; reflexivity|].
  destruct ps as [|p ps].
  - cbn [serialize]. rewrite !count_occ_app, !count_occ_head, !count_occ_urlencode
      by assumption.
    split; reflexivity.
  - rewrite serialize_cons.
    rewrite !count_occ_app, !count_occ_head, !count_occ_app, !count_occ_head,
      !count_occ_urlencode, IH1, IH2 by assumption.
    cbn [length].
    repeat match goal with
           | |- context [ascii_dec ?x ?y] => destruct (ascii_dec x y); try discriminate
           end; try congruence; split; lia.
Qed.

Lemma generateQRCodeData_Some bank now url :
  generateQRCodeData bank now = Some url ->
  exists id ufi,
    toString (get bank "id") = Some id
    /\ toString (get bank "ufi") = Some ufi
    /\ url = ("http://localhost:4000/api/bank-update?"
             ++ string_of_list_ascii (serialize (qr_params id ufi bank now)))%string.
Proof.
  unfold generateQRCodeData.
  destruct (toString (get bank "id")) as [id|]; [|discriminate].
  destruct (toString (get bank "ufi")) as [ufi|]; [|discriminate].
  intros [= <-]. exists id, ufi. repeat split.
Qed.

Lemma generateQRCodeData_None bank now :
  generateQRCodeData bank now = None
  <-> get bank "id" = VUndefined \/ get bank "ufi" = VUndefined.
Proof.
  unfold generateQRCodeData, toString.
  destruct (get bank "id"), (get bank "ufi"); split; intros H;
    try discriminate; try reflexivity; auto; destruct H; discriminate.
Qed.

(** X5: the payload is defined unless the record lacks [id] or [ufi]; it is
    the bank-update address followed by seven name=value pairs joined by
    [&], made only of letters, digits and [*-._+%=&]: no field value and no
    timestamp can add, remove or split a parameter. *)
Theorem generateQRCodeData_well_formed (bank : Obj) (now : string) :
  (generateQRCodeData bank now = None
   <-> get bank "id" = VUndefined \/ get bank "ufi" = VUndefined)
  /\ forall url,
       generateQRCodeData bank now = Some url ->
       exists query,
         url = ("http://localhost:4000/api/bank-update?" ++ string_of_list_ascii query)%string
         /\ Forall (fun c => encoded_char c = true \/ c = "&"%char \/ c = "="%char) query
         /\ count_occ ascii_dec query "="%char = 7%nat
         /\ count_occ ascii_dec query "&"%char = 6%nat.
Proof.
  split.
  - apply generateQRCodeData_None.
  - intros url H. fold (toString (get bank "id")) (toString (get bank "ufi")) in H.
    apply generateQRCodeData_Some in H as (id & ufi & _ & _ & ->).
    exists (serialize (qr_params id ufi bank now)).
    split; [reflexivity|]. split; [apply serialize_safe|].
    apply (serialize_separators (qr_params id ufi bank now)).
Qed.

(** X6: the payload determines the text of every field it carries and the
    timestamp: two payloads are the same only for records that agree on
    [id], [bankName], [branchName], [ifscCode], [ufi] and [address] and for
    the same timestamp. *)
Theorem generateQRCodeData_injective (bank bank' : Obj) (now now' : string) (url : string) :
  generateQRCodeData bank now = Some url ->
  generateQRCodeData bank' now' = Some url ->
  now = now'
  /\ forall k, k ∈ payload_fields -> to_text (get bank k) = to_text (get bank' k).
Proof.
  intros H H'.
  apply generateQRCodeData_Some in H as (id & ufi & Hid & Hufi & ->).
  apply generateQRCodeData_Some in H' as (id' & ufi' & Hid' & Hufi' & H').
  apply append_inv_head, string_of_list_ascii_inj, serialize_inj in H'; [|reflexivity].
  unfold qr_params in H'. injection H' as -> Hname Hbranch Hifsc -> Haddr ->.
  assert (Hts : forall v s, toString v = Some s -> to_text v = s).
  { intros [|s|n] t; simpl; congruence. }
  split; [reflexivity|]. intros k Hk. unfold payload_fields in Hk.
  rewrite !elem_of_cons, elem_of_nil in Hk.
  destruct Hk as [->|[->|[->|[->|[->|[->|[]]]]]]]; try congruence.
  - rewrite (Hts _ _ Hid), (Hts _ _ Hid'). reflexivity.
  - rewrite (Hts _ _ Hufi), (Hts _ _ Hufi'). reflexivity.
Qed.

End QRFacts.

(** ** Letters *)

Module LettersFacts.
Import Letters.

Lemma replace_runs_no_space in_run cs :
  Forall (fun c => Str.is_space c = false) (replace_runs in_run cs).
Proof.
  revert in_run. induction cs as [|c cs IH]; intros in_run; simpl; [constructor|].
  destruct (Str.is_space c) eqn:Hc.
  - destruct in_run; [apply IH | constructor; [reflexivity | apply IH]].
  - constructor; [exact Hc | apply IH].
Qed.

Lemma replace_runs_clean in_run cs :
  Forall (fun c => Str.is_space c = false) cs -> replace_runs in_run cs = cs.
Proof.
  intros H. revert in_run. induction H as [|c cs Hc _ IH]; intros in_run; simpl;
    [reflexivity|].
  rewrite Hc. f_equal. apply IH.
Qed.

Lemma replace_runs_length in_run cs : (length (replace_runs in_run cs) <= length cs)%nat.
Proof.
  revert in_run. induction cs as [|c cs IH]; intros in_run; simpl; [lia|].
  pose proof (IH true). pose proof (IH false).
  destruct (Str.is_space c); [destruct in_run|]; simpl; lia.
Qed.

Lemma chars_sanitize s : Str.chars (sanitize s) = replace_runs false (Str.chars s).
Proof. unfold sanitize, Str.chars. apply list_ascii_of_string_of_list_ascii. Qed.

Lemma sanitize_no_space s : no_space (sanitize s).
Proof. unfold no_space. rewrite chars_sanitize. apply replace_runs_no_space. Qed.

Lemma chars_append s t : Str.chars (s ++ t)%string = Str.chars s ++ Str.chars t.
Proof. induction s as [|c s IH]; simpl; [reflexivity|]. unfold Str.chars in *. simpl. f_equal. exact IH. Qed.

Lemma no_space_append s t : no_space s -> no_space t -> no_space (s ++ t)%string.
Proof. unfold no_space. rewrite chars_append. intros Hs Ht. apply Forall_app. split; assumption. Qed.

(** X7: the replacement leaves no white space, never lengthens a name,
    changes nothing in a name without white space, and is idempotent. *)
Theorem sanitize_spec (s : string) :
  no_space (sanitize s)
  /\ (String.length (sanitize s) <= String.length s)%nat
  /\ (no_space s -> sanitize s = s)
  /\ sanitize (sanitize s) = sanitize s.
Proof.
  assert (Hclean : forall t, no_space t -> sanitize t = t).
  { intros t Ht. unfold sanitize. rewrite replace_runs_clean by exact Ht.
    apply string_of_list_ascii_of_string. }
  split; [apply sanitize_no_space|]. split.
  - rewrite <- !chars_length, chars_sanitize. apply replace_runs_length.
  - split; [apply Hclean | apply Hclean, sanitize_no_space].
Qed.

Lemma replace_spaces_Some v t :
  replace_spaces v = Some t -> exists s, v = VString s /\ t = sanitize s.
Proof. destruct v as [|s|n]; simpl; intros [= <-]. exists s. split; reflexivity. Qed.

Lemma replace_spaces_None v : replace_spaces v = None <-> forall s, v <> VString s.
Proof.
  destruct v as [|s|n]; simpl; split; intros H; try reflexivity; try discriminate.
  destruct (H s eq_refl).
Qed.

(** X8: a file name, in bulk mode or for the single letter, exists exactly
    when the names it is made of are strings; it has no white space and
    ends in [_letter.pdf]. *)
Theorem fileName_spec (bank : Obj) :
  (forall fileName,
      bulk_fileName bank = Some fileName ->
      no_space fileName
      /\ exists bankName branchName,
           get bank "bankName" = VString bankName
           /\ get bank "branchName" = VString branchName
           /\ fileName = (sanitize bankName ++ "_" ++ sanitize branchName ++ "_letter.pdf")%string)
  /\ (bulk_fileName bank = None <->
      (forall s, get bank "bankName" <> VString s)
      \/ (forall s, get bank "branchName" <> VString s))
  /\ (forall fileName,
         letter_fileName bank = Some fileName ->
         no_space fileName
         /\ exists bankName,
              get bank "bankName" = VString bankName
              /\ fileName = (sanitize bankName ++ "_letter.pdf")%string)
  /\ (letter_fileName bank = None <-> forall s, get bank "bankName" <> VString s)
  /\ (forall bankName,
         get bank "bankName" = VString bankName ->
         letter_fileName bank = Some (sanitize bankName ++ "_letter.pdf")%string)
  /\ (forall bankName branchName,
         get bank "bankName" = VString bankName ->
         get bank "branchName" = VString branchName ->
         bulk_fileName bank
         = Some (sanitize bankName ++ "_" ++ sanitize branchName ++ "_letter.pdf")%string).
Proof.
  assert (Hdefined : forall k s, get bank k = VString s ->
                                 replace_spaces (get bank k) = Some (sanitize s))
    by (intros k s ->; reflexivity).
  assert (Hsuffix : no_space "_letter.pdf")
    by (unfold no_space; repeat constructor).
  assert (Hus : no_space "_") by (unfold no_space; repeat constructor).
  unfold bulk_fileName, letter_fileName.
  rewrite <- !replace_spaces_None.
  destruct (replace_spaces (get bank "bankName")) as [a|] eqn:Ha;
    destruct (replace_spaces (get bank "branchName")) as [b|] eqn:Hb;
    try (apply replace_spaces_Some in Ha as (bankName & Ha & ->));
    try (apply replace_spaces_Some in Hb as (branchName & Hb & ->)).
  - split; [|split; [|split; [|split; [|split]]]].
    + intros f [= <-]. split; [|eauto].
      repeat apply no_space_append; auto using sanitize_no_space.
    + split; [discriminate | intros [H|H]; discriminate].
    + intros f [= <-]. split; [|eauto].
      apply no_space_append; auto using sanitize_no_space.
    + split; intros H; discriminate H.
    + intros s Hs. rewrite Ha in Hs. injection Hs as <-. reflexivity.
    + intros s t Hs Ht. rewrite Ha in Hs. rewrite Hb in Ht.
      injection Hs as <-. injection Ht as <-. reflexivity.
  - split; [|split; [|split; [|split; [|split]]]].
    + discriminate.
    + split; [right; reflexivity | reflexivity].
    + intros f [= <-]. split; [|eauto].
      apply no_space_append; auto using sanitize_no_space.
    + split; intros H; discriminate H.
    + intros s Hs. rewrite Ha in Hs. injection Hs as <-. reflexivity.
    + intros s t _ Ht. rewrite (Hdefined _ _ Ht) in Hb. discriminate Hb.
  - split; [|split; [|split; [|split; [|split]]]].
    + discriminate.
    + split; [left; reflexivity | reflexivity].
    + discriminate.
    + split; reflexivity.
    + intros s Hs. rewrite (Hdefined _ _ Hs) in Ha. discriminate Ha.
    + intros s t Hs _. rewrite (Hdefined _ _ Hs) in Ha. discriminate Ha.
  - split; [|split; [|split; [|split; [|split]]]].
    + discriminate.
    + split; [left; reflexivity | reflexivity].
    + discriminate.
    + split; reflexivity.
    + intros s Hs. rewrite (Hdefined _ _ Hs) in Ha. discriminate Ha.
    + intros s t Hs _. rewrite (Hdefined _ _ Hs) in Ha. discriminate Ha.
Qed.

Lemma progress_refl st : progress st st [].
Proof. unfold progress. rewrite app_nil_r. simpl. repeat split; lia. Qed.

Lemma progress_trans st1 st2 st3 names names' :
  progress st1 st2 names -> progress st2 st3 names' -> progress st1 st3 (names ++ names').
Proof.
  unfold progress. intros (A1 & L1 & E1 & G1 & D1 & W1 & C1) (A2 & L2 & E2 & G2 & D2 & W2 & C2).
  rewrite length_app, Nat2Z.inj_add.
  repeat split; try congruence; try lia.
  rewrite D2, D1, app_assoc. reflexivity.
Qed.

Section Loop.
Variable env : Env.

Lemma has_payload_spec bank t :
  has_payload bank = true <-> QR.generateQRCodeData bank t <> None.
Proof.
  unfold has_payload. rewrite QRFacts.generateQRCodeData_None.
  rewrite andb_true_iff, !negb_true_iff, !bool_decide_eq_false. tauto.
Qed.

(** One round of the loop: the record is skipped, or its letter is
    downloaded, or the round throws. *)
Lemma generate_letter_cases bank st :
  let '(r, st') := generate_letter env bank st in
  (r = Resolved tt /\ progress st st' []
   /\ (has_payload bank = false
       \/ exists data, QR.generateQRCodeData bank (now env (calls st)) = Some data
                       /\ (toDataURL env (calls st) data = Rejected
                           \/ toDataURL env (calls st) data = Resolved "")))
  \/ (r = Resolved tt
      /\ exists data url fileName,
           QR.generateQRCodeData bank (now env (calls st)) = Some data
           /\ toDataURL env (calls st) data = Resolved url /\ url <> ""
           /\ toBlob env (S (calls st)) bank url = Resolved tt
           /\ bulk_fileName bank = Some fileName
           /\ progress st st' [fileName])
  \/ (r = Rejected /\ progress st st' []
      /\ exists data url,
           QR.generateQRCodeData bank (now env (calls st)) = Some data
           /\ toDataURL env (calls st) data = Resolved url /\ url <> ""
           /\ (toBlob env (S (calls st)) bank url = Rejected \/ bulk_fileName bank = None)).
Proof.
  unfold generate_letter, generateQRCodeForBank, catch, call_number, await, reject,
    click_download, sleep, mbind, M_bind, mret, M_ret.
  destruct (QR.generateQRCodeData bank (now env (calls st))) as [data|] eqn:Hdata.
  - destruct (toDataURL env (calls st) data) as [url|] eqn:Hurl; cbn.
    + destruct (Identity.truthy url) eqn:Ht; cbn.
      * apply IdentityFacts.truthy_spec in Ht.
        destruct (toBlob env (S (calls st)) bank url) as [[]|] eqn:Hblob; cbn.
        -- destruct (bulk_fileName bank) as [fileName|] eqn:Hname; cbn.
           ++ right. left. split; [reflexivity|].
              exists data, url, fileName. repeat split; try assumption; cbn; lia.
           ++ right. right. split; [reflexivity|]. split.
              { unfold progress; cbn. rewrite app_nil_r. repeat split; lia. }
              exists data, url. repeat split; try assumption. right. first [assumption | reflexivity].
        -- right. right. split; [reflexivity|]. split.
           { unfold progress; cbn. rewrite app_nil_r. repeat split; lia. }
           exists data, url. repeat split; try assumption. left. first [assumption | reflexivity].
      * left. split; [reflexivity|]. split.
        { unfold progress; cbn. rewrite app_nil_r. repeat split; lia. }
        right. exists data. split; [first [assumption | reflexivity]|]. right.
        unfold Identity.truthy in Ht. apply negb_false_iff, bool_decide_eq_true in Ht.
        subst url. exact Hurl.
    + left. split; [reflexivity|]. split.
      { unfold progress; cbn. rewrite app_nil_r. repeat split; lia. }
      right. exists data. split; [first [assumption | reflexivity]|]. left. first [assumption | reflexivity].
  - cbn. left. split; [reflexivity|]. split; [apply progress_refl|].
    left. apply not_true_iff_false. rewrite (has_payload_spec bank (now env (calls st))).
    intros H. apply H, Hdata.
Qed.

Lemma for_of_cons {A : Type} (x : A) rest (body : A -> M unit) st :
  for_of (x :: rest) body st =
  match body x st with
  | (Resolved _, st') => for_of rest body st'
  | (Rejected, st') => (Rejected, st')
  end.
Proof. reflexivity. Qed.

(** The loop downloads letters for some of the records, in their order. *)
Lemma loop_progress banks st :
  let '(r, st') := for_of banks (generate_letter env) st in
  exists done names,
    sublist done banks
    /\ Forall2 (fun bank fileName => bulk_fileName bank = Some fileName) done names
    /\ Forall (fun bank => has_payload bank = true) done
    /\ progress st st' names.
Proof.
  revert st. induction banks as [|bank banks IH]; intros st.
  - cbn. exists [], []. split; [constructor|]. split; [constructor|].
    split; [constructor | apply progress_refl].
  - rewrite for_of_cons. pose proof (generate_letter_cases bank st) as Hstep.
    destruct (generate_letter env bank st) as [r st1].
    destruct Hstep as [(-> & Hp & _)|[(-> & data & url & f & Hdata & _ & _ & _ & Hf & Hp)
                                    |(-> & Hp & _)]].
    + specialize (IH st1). destruct (for_of banks (generate_letter env) st1) as [r st2].
      destruct IH as (done & names & Hsub & Hnames & Hpay & Hp2).
      exists done, names. split; [apply sublist_cons, Hsub|].
      split; [exact Hnames|]. split; [exact Hpay|].
      apply (progress_trans _ _ _ [] names Hp Hp2).
    + specialize (IH st1). destruct (for_of banks (generate_letter env) st1) as [r st2].
      destruct IH as (done & names & Hsub & Hnames & Hpay & Hp2).
      exists (bank :: done), (f :: names). split; [apply sublist_skip, Hsub|].
      split; [constructor; assumption|]. split.
      * constructor; [|exact Hpay].
        apply (has_payload_spec bank (now env (calls st))). congruence.
      * apply (progress_trans _ _ _ [f] names Hp Hp2).
    + exists [], []. split; [apply sublist_nil_l|]. split; [constructor|].
      split; [constructor | exact Hp].
Qed.

(** X9: whatever the libraries answer, bulk generation ends without
    throwing and with the busy flag cleared; the letters downloaded are
    those of some of the records, in the order of the records, each under
    its bulk file name and each followed by a one-second wait; the only
    message it can leave is the generation failure. *)
Theorem handleGenerateAllPDFs_outcome (banks : list Obj) (st : State) :
  let '(r, st') := handleGenerateAllPDFs env banks st in
  r = Resolved tt
  /\ generatingPDFs st' = false
  /\ allBanks st' = allBanks st
  /\ loading st' = loading st
  /\ (error st' = error st
      \/ error st' = Some "Failed to generate PDFs. Please try again.")
  /\ exists done names,
       sublist done banks
       /\ Forall2 (fun bank fileName => bulk_fileName bank = Some fileName) done names
       /\ Forall (fun bank => has_payload bank = true) done
       /\ downloads st' = downloads st ++ names
       /\ waited st' = (waited st + 1000 * Z.of_nat (length names))%Z.
Proof.
  unfold handleGenerateAllPDFs, finally, catch, setGeneratingPDFs, setError, mbind, M_bind.
  match goal with |- context [for_of banks (generate_letter env) ?s] =>
    pose proof (loop_progress banks s) as Hloop;
    destruct (for_of banks (generate_letter env) s) as [r st1] end.
  destruct Hloop as (done & names & Hsub & Hnames & Hpay & Hp).
  destruct Hp as (A & L & E & G & D & W & C). cbn in A, L, E, G, D, W, C.
  destruct r as [[]|]; cbn.
  - repeat split; try assumption. { left. exact E. }
    exists done, names. repeat split; assumption.
  - repeat split; try assumption. { right. reflexivity. }
    exists done, names. repeat split; assumption.
Qed.

(** When the encoder and the renderer always succeed, a round is decided by
    the record alone. *)
Lemma generate_letter_reliable bank st :
  (forall k data, exists url, toDataURL env k data = Resolved url /\ url <> "") ->
  (forall k b url, toBlob env k b url = Resolved tt) ->
  let '(r, st') := generate_letter env bank st in
  if has_payload bank then
    match bulk_fileName bank with
    | Some fileName => r = Resolved tt /\ progress st st' [fileName]
    | None => r = Rejected /\ progress st st' []
    end
  else r = Resolved tt /\ progress st st' [].
Proof.
  intros Hqr Hblob. pose proof (generate_letter_cases bank st) as Hstep.
  destruct (generate_letter env bank st) as [r st1].
  destruct Hstep as [(-> & Hp & Hwhy)|[(-> & data & url & f & Hdata & _ & _ & _ & Hf & Hp)
                                      |(-> & Hp & data & url & Hdata & _ & _ & Hwhy)]].
  - destruct Hwhy as [->|(data & Hdata & Hwhy)]; [split; [reflexivity | exact Hp]|].
    exfalso. destruct (Hqr (calls st) data) as (url & Hurl & Hne).
    destruct Hwhy as [H|H]; rewrite Hurl in H; [discriminate | congruence].
  - assert (Hpay : has_payload bank = true)
      by (apply (has_payload_spec bank (now env (calls st))); congruence).
    rewrite Hpay, Hf. split; [reflexivity | exact Hp].
  - assert (Hpay : has_payload bank = true)
      by (apply (has_payload_spec bank (now env (calls st))); congruence).
    rewrite Hpay. destruct Hwhy as [H | ->]; [rewrite Hblob in H; discriminate|].
    split; [reflexivity | exact Hp].
Qed.

Lemma loop_reliable banks st :
  (forall k data, exists url, toDataURL env k data = Resolved url /\ url <> "") ->
  (forall k b url, toBlob env k b url = Resolved tt) ->
  Forall (fun bank => has_payload bank = true -> is_Some (bulk_fileName bank)) banks ->
  let '(r, st') := for_of banks (generate_letter env) st in
  r = Resolved tt
  /\ progress st st' (omap bulk_fileName (List.filter has_payload banks)).
Proof.
  intros Hqr Hblob Hall. revert st.
  induction Hall as [|bank banks Hbank _ IH]; intros st.
  - cbn. split; [reflexivity | apply progress_refl].
  - rewrite for_of_cons. pose proof (generate_letter_reliable bank st Hqr Hblob) as Hstep.
    destruct (generate_letter env bank st) as [r st1]. cbn [List.filter].
    destruct (has_payload bank) eqn:Hpay.
    + destruct (Hbank eq_refl) as [f Hf]. rewrite Hf in Hstep. destruct Hstep as [-> Hp].
      specialize (IH st1). destruct (for_of banks (generate_letter env) st1) as [r st2].
      destruct IH as [-> Hp2]. split; [reflexivity|].
      cbn [omap list_omap]. rewrite Hf. apply (progress_trans _ _ _ [f] _ Hp Hp2).
    + destruct Hstep as [-> Hp].
      specialize (IH st1). destruct (for_of banks (generate_letter env) st1) as [r st2].
      destruct IH as [-> Hp2]. split; [reflexivity|].
      apply (progress_trans _ _ _ [] _ Hp Hp2).
Qed.

(** X10: with an encoder and a renderer that always succeed and records
    whose names are strings, bulk generation downloads exactly one letter
    for every record that has an [id] and a [ufi], in the order of the
    records, and silently passes over the others; no message is set. *)
Theorem handleGenerateAllPDFs_complete (banks : list Obj) (st : State) :
  (forall k data, exists url, toDataURL env k data = Resolved url /\ url <> "") ->
  (forall k b url, toBlob env k b url = Resolved tt) ->
  Forall (fun bank => has_payload bank = true -> is_Some (bulk_fileName bank)) banks ->
  let '(r, st') := handleGenerateAllPDFs env banks st in
  r = Resolved tt
  /\ downloads st' = downloads st ++ omap bulk_fileName (List.filter has_payload banks)
  /\ error st' = error st
  /\ generatingPDFs st' = false.
Proof.
  intros Hqr Hblob Hall.
  unfold handleGenerateAllPDFs, finally, catch, setGeneratingPDFs, setError, mbind, M_bind.
  match goal with |- context [for_of banks (generate_letter env) ?s] =>
    pose proof (loop_reliable banks s Hqr Hblob Hall) as Hloop;
    destruct (for_of banks (generate_letter env) s) as [r st1] end.
  destruct Hloop as (-> & A & L & E & G & D & W & C). cbn in A, L, E, G, D, W, C.
  cbn. repeat split; assumption.
Qed.

(** X11: a record that has a payload but no string [bankName] or
    [branchName] stops bulk generation: the letters of the records before
    it are downloaded, none of a record after it, and the generation
    failure is reported. *)
Theorem handleGenerateAllPDFs_aborts (before after : list Obj) (bad : Obj) (st : State) :
  (forall k data, exists url, toDataURL env k data = Resolved url /\ url <> "") ->
  (forall k b url, toBlob env k b url = Resolved tt) ->
  Forall (fun bank => has_payload bank = true -> is_Some (bulk_fileName bank)) before ->
  has_payload bad = true ->
  bulk_fileName bad = None ->
  let '(r, st') := handleGenerateAllPDFs env (before ++ bad :: after) st in
  r = Resolved tt
  /\ downloads st' = downloads st ++ omap bulk_fileName (List.filter has_payload before)
  /\ error st' = Some "Failed to generate PDFs. Please try again."
  /\ generatingPDFs st' = false.
Proof.
  intros Hqr Hblob Hall Hpay Hname.
  assert (Hloop : forall s,
             let '(r, s') := for_of (before ++ bad :: after) (generate_letter env) s in
             r = Rejected
             /\ progress s s' (omap bulk_fileName (List.filter has_payload before))).
  { induction Hall as [|bank banks Hbank _ IH]; intros s.
    - cbn [app]. rewrite for_of_cons.
      pose proof (generate_letter_reliable bad s Hqr Hblob) as Hstep.
      destruct (generate_letter env bad s) as [r s1]. rewrite Hpay, Hname in Hstep.
      destruct Hstep as [-> Hp]. split; [reflexivity | exact Hp].
    - cbn [app]. rewrite for_of_cons.
      pose proof (generate_letter_reliable bank s Hqr Hblob) as Hstep.
      destruct (generate_letter env bank s) as [r s1]. cbn [List.filter].
      destruct (has_payload bank) eqn:Hb.
      + destruct (Hbank eq_refl) as [f Hf]. rewrite Hf in Hstep. destruct Hstep as [-> Hp].
        specialize (IH s1).
        destruct (for_of (banks ++ bad :: after) (generate_letter env) s1) as [r s2].
        destruct IH as [-> Hp2]. split; [reflexivity|].
        cbn [omap list_omap]. rewrite Hf. apply (progress_trans _ _ _ [f] _ Hp Hp2).
      + destruct Hstep as [-> Hp]. specialize (IH s1).
        destruct (for_of (banks ++ bad :: after) (generate_letter env) s1) as [r s2].
        destruct IH as [-> Hp2]. split; [reflexivity|].
        apply (progress_trans _ _ _ [] _ Hp Hp2). }
  unfold handleGenerateAllPDFs, finally, catch, setGeneratingPDFs, setError, mbind, M_bind.
  match goal with |- context [for_of _ (generate_letter env) ?s] =>
    specialize (Hloop s);
    destruct (for_of (before ++ bad :: after) (generate_letter env) s) as [r st1] end.
  destruct Hloop as (-> & A & L & E & G & D & W & C). cbn in A, L, E, G, D, W, C.
  cbn. repeat split; assumption.
Qed.

(** X12: when the encoder fails on every record (it rejects, or gives an
    empty address), bulk generation downloads nothing and sets no message:
    the failure is not reported. *)
Theorem handleGenerateAllPDFs_swallows (banks : list Obj) (st : State) :
  (forall k data, toDataURL env k data = Rejected \/ toDataURL env k data = Resolved "") ->
  let '(r, st') := handleGenerateAllPDFs env banks st in
  r = Resolved tt
  /\ downloads st' = downloads st
  /\ error st' = error st
  /\ waited st' = waited st
  /\ generatingPDFs st' = false.
Proof.
  intros Hqr.
  assert (Hloop : forall s,
             let '(r, s') := for_of banks (generate_letter env) s in
             r = Resolved tt /\ progress s s' []).
  { induction banks as [|bank banks IH]; intros s.
    - cbn. split; [reflexivity | apply progress_refl].
    - rewrite for_of_cons. pose proof (generate_letter_cases bank s) as Hstep.
      destruct (generate_letter env bank s) as [r s1].
      destruct Hstep as [(-> & Hp & _)|[(-> & data & url & f & _ & Hurl & Hne & _)
                                      |(-> & _ & data & url & _ & Hurl & Hne & _)]].
      + specialize (IH s1). destruct (for_of banks (generate_letter env) s1) as [r s2].
        destruct IH as [-> Hp2]. split; [reflexivity|].
        apply (progress_trans _ _ _ [] [] Hp Hp2).
      + exfalso. destruct (Hqr (calls s) data) as [H|H]; rewrite Hurl in H;
          [discriminate | congruence].
      + exfalso. destruct (Hqr (calls s) data) as [H|H]; rewrite Hurl in H;
          [discriminate | congruence]. }
  unfold handleGenerateAllPDFs, finally, catch, setGeneratingPDFs, setError, mbind, M_bind.
  match goal with |- context [for_of banks (generate_letter env) ?s] =>
    specialize (Hloop s);
    destruct (for_of banks (generate_letter env) s) as [r st1] end.
  destruct Hloop as (-> & A & L & E & G & D & W & C). cbn in A, L, E, G, D, W, C.
  rewrite app_nil_r in D. cbn. repeat split; try assumption. lia.
Qed.

(** X13: [fetchAllBanks] never throws and always clears the loading flag; a
    successful fetch replaces the list and clears the message, a failed one
    keeps the list and sets the fetch failure message; no letter is
    downloaded either way. *)
Theorem fetchAllBanks_outcome (st : State) :
  let '(r, st') := fetchAllBanks env st in
  r = Resolved tt
  /\ loading st' = false
  /\ downloads st' = downloads st
  /\ generatingPDFs st' = generatingPDFs st
  /\ calls st' = S (calls st)
  /\ match get_banks env (calls st) with
     | Resolved banks => allBanks st' = banks /\ error st' = None
     | Rejected =>
         allBanks st' = allBanks st
         /\ error st' = Some "Failed to fetch all banks. Please try again."
     end.
Proof.
  unfold fetchAllBanks, finally, catch, setLoading, setError, setAllBanks, call_number,
    await, mbind, M_bind. cbn.
  destruct (get_banks env (calls st)) as [banks|]; cbn; repeat split.
Qed.

End Loop.

End LettersFacts.

(** ** The rules of the outcome fields *)

Module FieldFacts.

Lemma is_char_spec x c : Str.is_char x c = true <-> c = x.
Proof.
  unfold Str.is_char, Str.code. rewrite Nat.eqb_eq. split; [|congruence].
  intros H. rewrite <- (ascii_nat_embedding c), H. apply ascii_nat_embedding.
Qed.

(** [split(' ')] gives one piece more than there are spaces. *)
Lemma split_go_length cur cs :
  length (Str.split_go cur cs) = S (count_occ ascii_dec cs " "%char).
Proof.
  revert cur. induction cs as [|c cs IH]; intros cur; [reflexivity|].
  cbn [Str.split_go count_occ].
  destruct (Str.is_char " " c) eqn:Hc.
  - apply is_char_spec in Hc. subst c. cbn [length]. rewrite IH.
    destruct (ascii_dec " " " "); [reflexivity | congruence].
  - rewrite IH. destruct (ascii_dec c " ") as [->|_]; [|reflexivity].
    assert (Str.is_char " " " " = true) by reflexivity. congruence.
Qed.

Lemma word_count_spaces s :
  Str.word_count s
  = Z.of_nat (S (count_occ ascii_dec (Str.trim (Str.chars s)) " "%char)).
Proof. unfold Str.word_count, Str.split_space. rewrite split_go_length. reflexivity. Qed.

Lemma length_le_iff (n : nat) s :
  (Z.of_nat n <=? Str.length s)%Z = true <-> (n <= String.length s)%nat.
Proof. unfold Str.length. rewrite Z.leb_le. lia. Qed.

Lemma length_ge_iff (n : nat) s :
  (Str.length s <=? Z.of_nat n)%Z = true <-> (String.length s <= n)%nat.
Proof. unfold Str.length. rewrite Z.leb_le. lia. Qed.

Lemma nonempty_not_falsy s : (1 <= String.length s)%nat -> falsy (VString s) = false.
Proof. destruct s; simpl; [lia | reflexivity]. Qed.

Lemma matches_head_spec cls s :
  Str.matches_head cls s = true <-> exists c rest, s = String c rest /\ cls c = true.
Proof.
  unfold Str.matches_head, Str.chars. destruct s as [|c s]; simpl; split.
  - discriminate.
  - intros (c & rest & H & _). discriminate.
  - intros H. exists c, s. split; [reflexivity | exact H].
  - intros (c' & rest & [= -> ->] & H). exact H.
Qed.

Lemma updateAddress_accepted a :
  Schema.issues (Schema.updateAddress (VString a)) = [] <-> address_rule a.
Proof.
  unfold address_rule. cbn [Schema.updateAddress Schema.issues].
  rewrite !app_nil, !check_nil.
  rewrite (length_le_iff 10), (length_ge_iff 200), matches_plus_spec.
  split.
  - intros (H1 & H2 & [_ H3] & H4).
    rewrite (nonempty_not_falsy a) in H4 by lia.
    apply Z.leb_le in H4. rewrite word_count_spaces in H4.
    repeat split; try assumption; lia.
  - intros ([H1 H2] & H3 & H4). repeat split; try assumption.
    + rewrite <- chars_length in H1. destruct (Str.chars a); [simpl in H1; lia | discriminate].
    + rewrite (nonempty_not_falsy a) by lia.
      apply Z.leb_le. rewrite word_count_spaces. lia.
Qed.

Lemma updatedBranchName_accepted b :
  Schema.issues (Schema.updatedBranchName (VString b)) = [] <-> branch_name_rule b.
Proof.
  unfold branch_name_rule. cbn [Schema.updatedBranchName Schema.issues].
  rewrite !app_nil, !check_nil.
  rewrite (length_le_iff 3), (length_ge_iff 100), matches_plus_spec.
  split.
  - intros (H1 & H2 & [_ H3] & H4).
    rewrite (nonempty_not_falsy b) in H4 by lia.
    apply matches_head_spec in H4. repeat split; try assumption.
  - intros ([H1 H2] & H3 & H4). repeat split; try assumption.
    + rewrite <- chars_length in H1. destruct (Str.chars b); [simpl in H1; lia | discriminate].
    + rewrite (nonempty_not_falsy b) by lia. apply matches_head_spec, H4.
Qed.

Lemma phoneNumber_accepted v :
  Schema.issues (Schema.phoneNumber v) = [] ->
  exists s, v = VString s /\ phone_number_rule s.
Proof.
  destruct v as [|s|n]; try discriminate. intros H. exists s. split; [reflexivity|].
  revert H. unfold phone_number_rule. cbn [Schema.phoneNumber Schema.issues].
  rewrite !app_nil, !check_nil, (length_le_iff 10), (length_ge_iff 15),
    matches_plus_spec, negb_true_iff.
  rewrite <- not_true_iff_false, startsWith_zero.
  setoid_rewrite is_digit_spec.
  intros (H1 & H2 & [_ H3] & H4). repeat split; assumption.
Qed.

Lemma phoneResponse_accepted v :
  Schema.issues (Schema.phoneResponse v) = [] ->
  exists p, v = VString p /\ p ∈ Schema.phoneResponse_options.
Proof.
  destruct v as [|p|n]; try discriminate. cbn [Schema.phoneResponse].
  destruct (bool_decide (p ∈ Schema.phoneResponse_options)) eqn:Hp; [|discriminate].
  intros _. exists p. split; [reflexivity | exact (proj1 (bool_decide_eq_true _) Hp)].
Qed.

Lemma response_accepted v :
  Schema.issues (Schema.response v) = [] ->
  v = VUndefined \/ exists r, v = VString r /\ r ∈ Schema.response_options.
Proof.
  destruct v as [|r|n]; try discriminate; [left; reflexivity|]. cbn [Schema.response].
  destruct (bool_decide (r ∈ Schema.response_options)) eqn:Hr; [|discriminate].
  intros _. right. exists r. split; [reflexivity | exact (proj1 (bool_decide_eq_true _) Hr)].
Qed.

Lemma remarks_accepted v :
  Schema.issues (Schema.remarks v) = [] ->
  exists r, Schema.out (Schema.remarks v) = VString r
            /\ (String.length r <= 500)%nat
            /\ (falsy v = true -> r = "").
Proof.
  destruct v as [|s|n]; try discriminate.
  - intros _. exists "". repeat split. simpl. lia.
  - cbn [Schema.remarks Schema.issues Schema.out]. rewrite check_nil, (length_ge_iff 500).
    intros H. destruct (falsy (VString s)) eqn:Hf.
    + exists "". repeat split. simpl. lia.
    + exists s. repeat split; [exact H | discriminate].
Qed.

(** X14: an updated address is accepted exactly when it is absent or follows
    the address rule; words are counted as pieces between single spaces, so
    an address of two words with a double space between them is accepted. *)
Theorem updateAddress_validation :
  (forall v, Schema.issues (Schema.updateAddress v) = []
             <-> v = VUndefined \/ exists a, v = VString a /\ address_rule a)
  /\ Schema.issues (Schema.updateAddress (VString "Pune  411001")) = []
  /\ Schema.issues (Schema.updateAddress (VString "Pune 411001"))
     = ["Address should contain at least 3 words"]
  /\ Schema.issues (Schema.updateAddress (VString ""))
     = ["Address must be at least 10 characters";
        "Address can only contain letters, numbers, spaces, commas, dots, and hyphens"].
Proof.
  split; [|repeat split].
  intros v. destruct v as [|a|n].
  - split; [left; reflexivity | reflexivity].
  - rewrite updateAddress_accepted. split.
    + intros H. right. exists a. split; [reflexivity | exact H].
    + intros [H|(a' & [= <-] & H)]; [discriminate | exact H].
  - split; [discriminate | intros [H|(a & H & _)]; discriminate].
Qed.

(** X15: an updated branch name is accepted exactly when it is absent or
    follows the branch name rule. *)
Theorem updatedBranchName_validation :
  (forall v, Schema.issues (Schema.updatedBranchName v) = []
             <-> v = VUndefined \/ exists b, v = VString b /\ branch_name_rule b)
  /\ Schema.issues (Schema.updatedBranchName (VString "main branch"))
     = ["Branch name should start with a capital letter"]
  /\ Schema.issues (Schema.updatedBranchName (VString "Main Branch-2")) = [].
Proof.
  split; [|repeat split].
  intros v. destruct v as [|b|n].
  - split; [left; reflexivity | reflexivity].
  - rewrite updatedBranchName_accepted. split.
    + intros H. right. exists b. split; [reflexivity | exact H].
    + intros [H|(b' & [= <-] & H)]; [discriminate | exact H].
  - split; [discriminate | intros [H|(b & H & _)]; discriminate].
Qed.

End FieldFacts.

(** ** More on the handlers *)

Section HandlerFacts.
Variable o : Oracle.
Variable u : string.

Lemma includes_spec arr s : includes arr (VString s) = true <-> s ∈ arr.
Proof.
  unfold includes. rewrite existsb_exists. split.
  - intros (x & Hin & Hx). apply bool_decide_eq_true in Hx. injection Hx as ->.
    apply list_elem_of_In, Hin.
  - intros Hin. exists s. split; [apply list_elem_of_In, Hin|].
    apply bool_decide_eq_true. reflexivity.
Qed.

Lemma is_str_spec v s : is_str v s = true <-> v = VString s.
Proof. unfold is_str. apply bool_decide_eq_true. Qed.

Lemma first_violation_None values :
  first_violation values = None ->
  (includes successfulResponses (get values "phoneResponse") = true ->
   falsy (get values "response") = false)
  /\ (get values "response" = VString "address_change" ->
      falsy (get values "updateAddress") = false)
  /\ (get values "response" = VString "branch_name_change" ->
      falsy (get values "updatedBranchName") = false)
  /\ (get values "response" = VString "bank_shift" ->
      falsy (get values "updateAddress") = false).
Proof.
  rewrite first_violation_cases.
  destruct (includes successfulResponses (get values "phoneResponse")) eqn:H1;
    destruct (falsy (get values "response")) eqn:F1; cbn [andb]; try discriminate.
  all: destruct (is_str (get values "response") "address_change") eqn:H2;
    destruct (falsy (get values "updateAddress")) eqn:F2; cbn [andb]; try discriminate.
  all: destruct (is_str (get values "response") "branch_name_change") eqn:H3;
    destruct (falsy (get values "updatedBranchName")) eqn:F3; cbn [andb]; try discriminate.
  all: destruct (is_str (get values "response") "bank_shift") eqn:H4;
    cbn [andb]; try discriminate.
  all: intros _; repeat split; try reflexivity; try discriminate.
  all: intros H; apply is_str_spec in H; congruence.
Qed.

(** What the schema accepted and the conditional rules let through. *)
Lemma accepted_values_valid d values :
  Schema.parse d = inl values ->
  first_violation values = None ->
  outcome_valid values.
Proof.
  intros Hp Hv.
  destruct (SchemaFacts.parse_ok_spec d values Hp) as [Hget _].
  destruct (first_violation_None values Hv) as (C1 & C2 & C3 & C4).
  assert (Hshape : forall k p, (k, p) ∈ Schema.shape ->
                     get values k = Schema.out (p (get d k))
                     /\ Schema.issues (p (get d k)) = []) by exact Hget.
  assert (Haddr : falsy (get values "updateAddress") = false ->
                  exists a, get values "updateAddress" = VString a /\ address_rule a).
  { intros Hf. rewrite (parse_keeps_updateAddress d values Hp) in *.
    destruct (Hshape "updateAddress" Schema.updateAddress) as [_ Hi];
      [in_shape|].
    destruct (get d "updateAddress") as [|a|n]; try discriminate.
    exists a. split; [reflexivity | apply FieldFacts.updateAddress_accepted, Hi]. }
  unfold outcome_valid. split; [|split; [|split; [|split; [|split]]]].
  - destruct (Hshape "phoneNumber" Schema.phoneNumber) as [Ho Hi];
      [in_shape|].
    destruct (FieldFacts.phoneNumber_accepted _ Hi) as (s & Hs & Hrule).
    exists s. rewrite Ho, Hs. split; [reflexivity | exact Hrule].
  - destruct (Hshape "phoneResponse" Schema.phoneResponse) as [_ Hi];
      [in_shape|].
    destruct (FieldFacts.phoneResponse_accepted _ Hi) as (p & Hpv & Hopt).
    rewrite <- (parse_keeps_phoneResponse d values Hp) in Hpv.
    exists p. split; [exact Hpv|]. split; [exact Hopt|].
    intros Hsucc Hundef. rewrite Hpv in C1.
    rewrite (proj2 (includes_spec _ _) Hsucc) in C1. specialize (C1 eq_refl).
    rewrite Hundef in C1. discriminate.
  - destruct (Hshape "response" Schema.response) as [_ Hi];
      [in_shape|].
    rewrite (parse_keeps_response d values Hp). apply FieldFacts.response_accepted, Hi.
  - intros [H|H]; apply Haddr; [apply C2, H | apply C4, H].
  - intros H. specialize (C3 H).
    rewrite (parse_keeps_updatedBranchName d values Hp) in *.
    destruct (Hshape "updatedBranchName" Schema.updatedBranchName) as [_ Hi];
      [in_shape|].
    destruct (get d "updatedBranchName") as [|b|n]; try discriminate.
    exists b. split; [reflexivity | apply FieldFacts.updatedBranchName_accepted, Hi].
  - destruct (Hshape "remarks" Schema.remarks) as [Ho Hi];
      [in_shape|].
    destruct (FieldFacts.remarks_accepted _ Hi) as (r & Hr & Hlen & _).
    exists r. rewrite Ho, Hr. split; [reflexivity | exact Hlen].
Qed.

(** X16: a submission issues an update only for an outcome that satisfies the
    field rules and the conditional requirements: a phone number by the
    rule, a phone response of the list, a response when the call
    succeeded, a valid address for an address change or a bank shift, a
    valid branch name for a branch name change, and remarks that are a
    string of at most 500 characters. *)
Theorem submitted_outcome_valid (bank d : Obj) (w : World) :
  let w' := snd (run o (handleSubmit u (Some bank) d) w) in
  trace w' <> trace w ->
  exists values,
    Schema.parse d = inl values
    /\ trace w' = trace w ++ [PUT (get bank "id") (spread2 bank values)]
    /\ outcome_valid values.
Proof.
  cbv zeta. intros Hne.
  pose proof (submit_outcome o u bank d w) as H. cbv zeta in H.
  destruct (Schema.parse d) as [values|errs] eqn:Hp.
  - destruct (first_violation values) as [reason|] eqn:Hv.
    + destruct H as [H _]. contradiction.
    + exists values. split; [reflexivity|]. split; [exact H|].
      apply (accepted_values_valid d values Hp Hv).
  - rewrite H in Hne. contradiction.
Qed.

(** X17: when the store rejects the update of a submission, nothing is lost:
    the held record and the draft are kept, no next assignment is started,
    and the update failure is reported. *)
Theorem submit_update_rejected (bank d values : Obj) (w : World) :
  Schema.parse d = inl values ->
  first_violation values = None ->
  on_put o (length (trace w)) = Rejected ->
  let '(c, w') := run o (handleSubmit u (Some bank) d) w in
  c = Normal
  /\ trace w' = trace w ++ [PUT (get bank "id") (spread2 bank values)]
  /\ currentBank (comp w') = currentBank (comp w)
  /\ draft (comp w') = draft (comp w)
  /\ pending w' = pending w
  /\ loading (comp w') = false
  /\ error (comp w') = Some "Failed to update bank information. Please try again.".
Proof.
  intros Hp Hv Hput.
  rewrite run_handleSubmit, Hp, run_onSubmit, Hv. cbv zeta.
  cbn [trace upd]. rewrite Hput. repeat split.
Qed.

(** X18: when the store accepts the update of a submission, the record and
    the draft are discarded and the next assignment is started without
    being awaited: the handler ends with the loading flag cleared while
    that call is parked.  Once the parked call is resumed, the state is
    the one a call of [fetchUnassignedBank] ends in, so the record then
    presented, if any, is an unassigned record of the newly fetched list. *)
Theorem submit_then_next_assignment (bank d values : Obj) (w : World) :
  Schema.parse d = inl values ->
  first_violation values = None ->
  on_put o (length (trace w)) = Resolved tt ->
  pending w = [] ->
  let w' := snd (run o (handleSubmit u (Some bank) d) w) in
  let cleared :=
    upd with_form_reset
      (upd (with_currentBank None)
         (log (PUT (get bank "id") (spread2 bank values))
            (upd (with_error None) (upd (with_loading true)
               (upd (with_formErrors []) w))))) in
  currentBank (comp w') = None
  /\ draft (comp w') = defaultValues
  /\ loading (comp w') = false
  /\ length (pending w') = 1%nat
  /\ resume o w' = snd (run o (fetchUnassignedBank u) cleared)
  /\ (currentBank (comp (resume o w')) = None
      \/ exists banks chosen,
           on_get o (S (length (trace w))) = Resolved banks
           /\ chosen ∈ List.filter unassigned banks
           /\ currentBank (comp (resume o w')) = Some chosen).
Proof.
  intros Hp Hv Hput Hpend. cbv zeta.
  set (cleared := upd with_form_reset _).
  assert (Hw' : snd (run o (handleSubmit u (Some bank) d) w)
                = upd (with_loading false)
                    (park (fst (run_sync o (call (fetchUnassignedBank u)) cleared))
                          (snd (run_sync o (call (fetchUnassignedBank u)) cleared)))).
  { rewrite run_handleSubmit, Hp, run_onSubmit, Hv. cbv zeta.
    cbn [trace upd]. rewrite Hput. fold cleared.
    destruct (run_sync o (call (fetchUnassignedBank u)) cleared); reflexivity. }
  assert (Hres : resume o (snd (run o (handleSubmit u (Some bank) d) w))
                 = snd (run o (fetchUnassignedBank u) cleared)).
  { rewrite Hw', run_fetchUnassignedBank. cbv zeta. clear Hw'.
    subst cleared. destruct w as [c t n p]. cbn [pending] in Hpend. subst p.
    unfold fetchUnassignedBank, resume.
    repeat (progress (run_step; cbn [fst snd park pending app])).
    destruct (on_get o _) as [banks|]; [|reflexivity].
    run_step. destruct (0 <? length (List.filter unassigned banks))%nat; [|reflexivity].
    run_step. destruct (F64.array_get _ _) as [rb|]; [|reflexivity].
    run_step.
    repeat first [rewrite length_app | rewrite Nat.add_1_r
                 | progress cbn [length trace upd log drawn]].
    destruct (on_put o (S (S (length t)))); reflexivity. }
  rewrite Hres.
  destruct (fetch_outcome o u cleared) as (_ & _ & _ & Hcur).
  split; [|split; [|split; [|split; [|split; [reflexivity|]]]]].
  - rewrite Hw'. unfold fetchUnassignedBank. reflexivity.
  - rewrite Hw'. unfold fetchUnassignedBank. reflexivity.
  - rewrite Hw'. reflexivity.
  - rewrite Hw'. unfold fetchUnassignedBank. cbn. rewrite Hpend. reflexivity.
  - destruct Hcur as [Hcur|(banks & chosen & Hget & Hin & Hcur)].
    + left. rewrite Hcur. reflexivity.
    + right. exists banks, chosen. repeat split; try assumption.
      rewrite <- Hget. f_equal. subst cleared. cbn [trace upd log].
      rewrite length_app. simpl. lia.
Qed.

(** X19: no handler throws and every handler that starts work ends with the
    loading flag cleared, whatever the store answers. *)
Theorem handlers_settle (bank values : Obj) (w : World) :
  (let '(c, w') := run o (fetchUnassignedBank u) w in
   c = Normal /\ loading (comp w') = false)
  /\ (let '(c, w') := run o (handleCancel u (Some bank)) w in
      c = Normal /\ loading (comp w') = false)
  /\ (let '(c, w') := run o (call (onSubmit u (Some bank) values)) w in
      c = Normal /\ loading (comp w') = false).
Proof.
  split; [|split].
  - pose proof (fetchUnassignedBank_completes o u w) as Hc.
    destruct (fetch_outcome o u w) as (_ & _ & Hl & _).
    destruct (run o (fetchUnassignedBank u) w) as [c w']. split; assumption.
  - rewrite run_handleCancel. cbv zeta.
    destruct (on_put o (length (trace w))); split; reflexivity.
  - rewrite run_onSubmit. cbv zeta.
    destruct (first_violation values); [split; reflexivity|].
    destruct (on_put o (length (trace w))); [|split; reflexivity].
    destruct (run_sync o _ _) as [rest w3]. split; reflexivity.
Qed.

(** X20: when the list cannot be fetched, the selector reports the fetch
    failure and does nothing else: no random draw, no update, and the
    record presented stays as it was. *)
Theorem fetch_failure (w : World) :
  on_get o (length (trace w)) = Rejected ->
  let '(c, w') := run o (fetchUnassignedBank u) w in
  c = Normal
  /\ trace w' = trace w ++ [GET]
  /\ draws w' = draws w
  /\ currentBank (comp w') = currentBank (comp w)
  /\ error (comp w') = Some "Failed to fetch bank details. Please try again."
  /\ loading (comp w') = false.
Proof.
  intros Hget. rewrite run_fetchUnassignedBank, Hget. cbv zeta. repeat split.
Qed.

Lemma fetch_trace (w : World) :
  Forall well_addressed (trace w) ->
  Forall well_addressed (trace (snd (run o (fetchUnassignedBank u) w))).
Proof.
  intros Hw. rewrite run_fetchUnassignedBank. cbv zeta.
  assert (Hget : Forall well_addressed (trace w ++ [GET])).
  { apply Forall_app. split; [exact Hw | repeat constructor]. }
  destruct (on_get o (length (trace w))) as [banks|]; [|exact Hget].
  destruct (0 <? length (List.filter unassigned banks))%nat; [|exact Hget].
  destruct (F64.array_get _ _) as [rb|]; [|exact Hget].
  assert (Hput : Forall well_addressed
                   ((trace w ++ [GET])
                      ++ [PUT (get rb "id") (<["userName" := VString u]> rb)])).
  { apply Forall_app. split; [exact Hget|]. constructor; [|constructor].
    unfold well_addressed, get. rewrite lookup_insert_ne by discriminate. reflexivity. }
  destruct (on_put o (S (length (trace w)))); exact Hput.
Qed.

(** X21: every update a handler issues is sent to the address of the record
    it carries: the [id] of the body is the [id] of the request, for the
    claim, the reset of a cancel and the submission alike. *)
Theorem updates_address_their_record (w : World) :
  Forall well_addressed (trace w) ->
  Forall well_addressed (trace (snd (run o (fetchUnassignedBank u) w)))
  /\ (forall bank,
         Forall well_addressed (trace (snd (run o (handleCancel u (Some bank)) w))))
  /\ (forall bank d,
         Forall well_addressed (trace (snd (run o (handleSubmit u (Some bank) d) w)))).
Proof.
  intros Hw. split; [apply fetch_trace, Hw|]. split.
  - intros bank. rewrite run_handleCancel. cbv zeta.
    assert (Hput : Forall well_addressed
                     (trace w ++ [PUT (get bank "id") (cancel_body bank)])).
    { apply Forall_app. split; [exact Hw|]. constructor; [|constructor].
      unfold well_addressed, get. rewrite cancel_body_lookup.
      rewrite bool_decide_eq_false_2; [reflexivity|].
      unfold reset_fields. rewrite !elem_of_cons, elem_of_nil. intuition discriminate. }
    destruct (on_put o (length (trace w))); [|exact Hput].
    cbn [snd trace upd]. apply fetch_trace. cbn [trace upd log].
    apply Forall_app. split; [exact Hput | repeat constructor].
  - intros bank d. pose proof (submit_outcome o u bank d w) as H. cbv zeta in H.
    destruct (Schema.parse d) as [values|errs] eqn:Hp.
    + destruct (first_violation values).
      * destruct H as [-> _]. exact Hw.
      * rewrite H. apply Forall_app. split; [exact Hw|]. constructor; [|constructor].
        destruct (SchemaFacts.parse_ok_spec d values Hp) as [_ Hdom].
        unfold well_addressed, get, spread2. rewrite lookup_union_r; [reflexivity|].
        apply Hdom. apply (bool_decide_unpack _). vm_compute. exact I.
    + rewrite H. exact Hw.
Qed.

End HandlerFacts.

(** ** Parsing what was parsed *)

Module ParseFacts.
Import Schema.

Lemma parse_fields_lookup fields input :
  NoDup (map fst fields) ->
  forall k p, (k, p) ∈ fields ->
    (parse_fields fields input).1 !! k
    = match out (p (get input k)), input !! k with
      | VUndefined, None => None
      | v, _ => Some v
      end.
Proof.
  induction fields as [|[k0 p0] rest IH]; intros Hnd k p Hin; [inversion Hin|].
  apply NoDup_cons in Hnd as [Hk0 Hnd]. cbn [parse_fields].
  pose proof (SchemaFacts.parse_fields_spec rest input Hnd) as Hspec.
  specialize (IH Hnd).
  destruct (parse_fields rest input) as [data errs]. cbn [fst] in *.
  destruct Hspec as (_ & Hdom & _).
  rewrite SchemaFacts.set_field_lookup.
  apply elem_of_cons in Hin as [[= -> ->]|Hin].
  - rewrite decide_True by reflexivity. rewrite (Hdom k0 Hk0).
    destruct (out (p0 (get input k0))), (input !! k0); reflexivity.
  - assert (k0 <> k).
    { intros ->. apply Hk0. apply (list_elem_of_fmap_2 fst) in Hin. exact Hin. }
    rewrite decide_False by assumption. apply IH, Hin.
Qed.

(** Each field parser accepts its own output and returns it unchanged. *)
Lemma field_parsers_idempotent k p v :
  (k, p) ∈ shape ->
  issues (p v) = [] ->
  issues (p (out (p v))) = [] /\ out (p (out (p v))) = out (p v).
Proof.
  unfold shape. rewrite !elem_of_cons, elem_of_nil.
  intros [[= -> ->]|[[= -> ->]|[[= -> ->]|[[= -> ->]|[[= -> ->]|[[= -> ->]|[]]]]]]] Hi.
  - destruct v; try discriminate. split; [exact Hi | reflexivity].
  - destruct v as [|s|n]; try discriminate. cbn [phoneResponse] in *.
    destruct (bool_decide (s ∈ phoneResponse_options)) eqn:Hs; [|discriminate].
    cbn [out ok phoneResponse]. rewrite Hs. split; reflexivity.
  - destruct v as [|s|n]; try discriminate; [split; reflexivity|]. cbn [response] in *.
    destruct (bool_decide (s ∈ response_options)) eqn:Hs; [|discriminate].
    cbn [out ok response]. rewrite Hs. split; reflexivity.
  - destruct v; try discriminate; split; try exact Hi; reflexivity.
  - destruct v; try discriminate; split; try exact Hi; reflexivity.
  - destruct v as [|s|n]; try discriminate; [split; reflexivity|].
    cbn [remarks out issues] in *. destruct (falsy (VString s)) eqn:Hf.
    + split; reflexivity.
    + cbn [remarks out issues]. rewrite Hf. split; [exact Hi | reflexivity].
Qed.

Lemma concat_map_nil {A B : Type} (f : A -> list B) (l : list A) :
  Forall (fun x => f x = []) l -> concat (map f l) = [].
Proof.
  induction 1 as [|x l Hx _ IH]; [reflexivity|].
  cbn [map concat]. rewrite Hx, IH. reflexivity.
Qed.

(** X22: parsing is idempotent: the data parsed from an accepted draft is
    itself accepted, and parses to itself. *)
Theorem parse_idempotent (d values : Obj) :
  parse d = inl values -> parse values = inl values.
Proof.
  intros Hp.
  destruct (SchemaFacts.parse_ok_spec d values Hp) as [Hget Hdom].
  pose proof (parse_fields_lookup shape d SchemaFacts.shape_NoDup) as Hlook.
  pose proof (parse_fields_lookup shape values SchemaFacts.shape_NoDup) as Hlook'.
  pose proof (SchemaFacts.parse_fields_spec shape values SchemaFacts.shape_NoDup) as Hspec'.
  unfold parse in *.
  destruct (parse_fields shape d) as [data errs] eqn:Hd.
  destruct errs as [|e errs]; [|discriminate]. injection Hp as ->.
  destruct (parse_fields shape values) as [data' errs'] eqn:Hd'.
  destruct Hspec' as (_ & Hdom' & Herrs'). cbn [fst] in *.
  assert (Hnil : errs' = []).
  { rewrite Herrs'. apply concat_map_nil.
    apply Forall_forall. intros [k p] Hin. cbn [fst snd].
    destruct (Hget k p Hin) as [-> Hi].
    rewrite (proj1 (field_parsers_idempotent k p _ Hin Hi)). reflexivity. }
  rewrite Hnil. f_equal. apply map_eq. intros k.
  destruct (decide (k ∈ form_fields)) as [Hk|Hk].
  - unfold form_fields in Hk. apply list_elem_of_fmap in Hk as ([k' p] & -> & Hin).
    cbn [fst]. rewrite (Hlook' k' p Hin), (Hlook k' p Hin).
    destruct (Hget k' p Hin) as [Hv Hi]. rewrite Hv.
    destruct (field_parsers_idempotent k' p _ Hin Hi) as [_ ->].
    destruct (out (p (get d k'))), (d !! k'); reflexivity.
  - rewrite (Hdom' k Hk), (Hdom k Hk). reflexivity.
Qed.

End ParseFacts.

(** ** A valid draft goes through *)

Section Completeness.
Variable o : Oracle.
Variable u : string.

Lemma phoneNumber_complete s :
  phone_number_rule s -> Schema.issues (Schema.phoneNumber (VString s)) = [].
Proof.
  intros ([Hlo Hhi] & Hdigits & Hzero). cbn [Schema.phoneNumber Schema.issues].
  assert (H1 : (10 <=? Str.length s)%Z = true)
    by (apply (FieldFacts.length_le_iff 10), Hlo).
  assert (H2 : (Str.length s <=? 15)%Z = true)
    by (apply (FieldFacts.length_ge_iff 15), Hhi).
  assert (H3 : Str.matches_plus Str.is_digit s = true).
  { apply matches_plus_spec. split.
    - intros Hnil. apply (f_equal (@length _)) in Hnil.
      rewrite chars_length in Hnil. simpl in Hnil. lia.
    - eapply Forall_impl; [exact Hdigits|]. intros c Hc. apply is_digit_spec, Hc. }
  assert (H4 : Str.startsWith s "0" = false).
  { destruct (Str.startsWith s "0") eqn:E; [|reflexivity].
    apply startsWith_zero in E. contradiction. }
  rewrite H1, H2, H3, H4. reflexivity.
Qed.

Lemma option_complete (opts : list string) (s : string) :
  s ∈ opts -> bool_decide (s ∈ opts) = true.
Proof. intros H. apply bool_decide_eq_true, H. Qed.

Lemma option_not_falsy (opts : list string) (s : string) :
  s ∈ opts -> "" ∉ opts -> falsy (VString s) = false.
Proof.
  intros H Hno. simpl. apply bool_decide_eq_false. intros ->. contradiction.
Qed.

Lemma address_not_falsy a : address_rule a -> falsy (VString a) = false.
Proof. intros ([H _] & _). apply FieldFacts.nonempty_not_falsy. lia. Qed.

Lemma branch_name_not_falsy b : branch_name_rule b -> falsy (VString b) = false.
Proof. intros ([H _] & _). apply FieldFacts.nonempty_not_falsy. lia. Qed.

Lemma draft_valid_issues d :
  draft_valid d ->
  Forall (fun kp => map (pair (fst kp)) (Schema.issues (snd kp (get d (fst kp)))) = [])
    Schema.shape.
Proof.
  intros ((s & Hs & Hphone) & (p & Hp & Hopt & _) & Hresp & Haddr & Hname & Hrem & _).
  unfold Schema.shape. repeat constructor; cbn [fst snd].
  - rewrite Hs, phoneNumber_complete by exact Hphone. reflexivity.
  - rewrite Hp. cbn [Schema.phoneResponse].
    rewrite option_complete by exact Hopt. reflexivity.
  - destruct Hresp as [->|(r & -> & Hr)]; [reflexivity|].
    cbn [Schema.response]. rewrite option_complete by exact Hr. reflexivity.
  - destruct Haddr as [->|(a & -> & Ha)]; [reflexivity|].
    apply FieldFacts.updateAddress_accepted in Ha. rewrite Ha. reflexivity.
  - destruct Hname as [->|(b & -> & Hb)]; [reflexivity|].
    apply FieldFacts.updatedBranchName_accepted in Hb. rewrite Hb. reflexivity.
  - destruct Hrem as [->|(r & -> & Hr)]; [reflexivity|].
    cbn [Schema.remarks Schema.issues].
    assert (H : (Str.length r <=? 500)%Z = true)
      by (apply (FieldFacts.length_ge_iff 500), Hr).
    rewrite H. reflexivity.
Qed.

Lemma draft_valid_parse d :
  draft_valid d -> Schema.parse d = inl (Schema.parse_fields Schema.shape d).1.
Proof.
  intros Hv. unfold Schema.parse.
  pose proof (SchemaFacts.parse_fields_spec Schema.shape d SchemaFacts.shape_NoDup) as H.
  destruct (Schema.parse_fields Schema.shape d) as [data errs].
  destruct H as (_ & _ & ->).
  rewrite (ParseFacts.concat_map_nil _ _ (draft_valid_issues d Hv)). reflexivity.
Qed.

Lemma draft_valid_first_violation d values :
  draft_valid d ->
  Schema.parse d = inl values ->
  first_violation values = None.
Proof.
  intros (_ & (p & Hp & Hopt & Hsucc) & Hresp & Haddr & Hname & _ & Hneed1 & Hneed2) Hparse.
  rewrite first_violation_cases.
  rewrite (parse_keeps_phoneResponse d values Hparse),
          (parse_keeps_response d values Hparse),
          (parse_keeps_updateAddress d values Hparse),
          (parse_keeps_updatedBranchName d values Hparse).
  assert (Ha : get d "response" = VString "address_change"
               \/ get d "response" = VString "bank_shift" ->
               falsy (get d "updateAddress") = false).
  { intros H. destruct Haddr as [Hu|(a & -> & Ha)]; [destruct (Hneed1 H Hu)|].
    apply address_not_falsy, Ha. }
  assert (Hb : get d "response" = VString "branch_name_change" ->
               falsy (get d "updatedBranchName") = false).
  { intros H. destruct Hname as [Hu|(b & -> & Hb)]; [destruct (Hneed2 H Hu)|].
    apply branch_name_not_falsy, Hb. }
  assert (Hr : includes successfulResponses (get d "phoneResponse") = true ->
               falsy (get d "response") = false).
  { rewrite Hp. intros H. apply includes_spec in H.
    destruct Hresp as [Hu|(r & Hr & Hin)]; [destruct (Hsucc H Hu)|].
    rewrite Hr. apply (option_not_falsy Schema.response_options); [exact Hin|].
    apply (bool_decide_unpack _). vm_compute. exact I. }
  assert (C1 : includes successfulResponses (get d "phoneResponse")
               && falsy (get d "response") = false).
  { destruct (includes successfulResponses (get d "phoneResponse")) eqn:E; [|reflexivity].
    rewrite (Hr eq_refl). reflexivity. }
  assert (C2 : is_str (get d "response") "address_change"
               && falsy (get d "updateAddress") = false).
  { destruct (is_str (get d "response") "address_change") eqn:E; [|reflexivity].
    apply is_str_spec in E. rewrite (Ha (or_introl E)). reflexivity. }
  assert (C3 : is_str (get d "response") "branch_name_change"
               && falsy (get d "updatedBranchName") = false).
  { destruct (is_str (get d "response") "branch_name_change") eqn:E; [|reflexivity].
    apply is_str_spec in E. rewrite (Hb E). reflexivity. }
  assert (C4 : is_str (get d "response") "bank_shift"
               && falsy (get d "updateAddress") = false).
  { destruct (is_str (get d "response") "bank_shift") eqn:E; [|reflexivity].
    apply is_str_spec in E. rewrite (Ha (or_intror E)). reflexivity. }
  rewrite C1, C2, C3, C4. reflexivity.
Qed.

(** X23: a draft that follows the field rules and the conditional
    requirements always goes through: the schema accepts it, no
    conditional check stops it, and the update is issued with the outcome
    fields as the caller entered them, whatever the store then answers. *)
Theorem valid_draft_submitted (bank d : Obj) (w : World) :
  draft_valid d ->
  let w' := snd (run o (handleSubmit u (Some bank) d) w) in
  exists values,
    Schema.parse d = inl values
    /\ first_violation values = None
    /\ trace w' = trace w ++ [PUT (get bank "id") (spread2 bank values)]
    /\ get values "phoneNumber" = get d "phoneNumber"
    /\ get values "phoneResponse" = get d "phoneResponse"
    /\ get values "response" = get d "response"
    /\ get values "updateAddress" = get d "updateAddress"
    /\ get values "updatedBranchName" = get d "updatedBranchName".
Proof.
  intros Hv. cbv zeta.
  pose proof (draft_valid_parse d Hv) as Hparse.
  set (values := (Schema.parse_fields Schema.shape d).1) in *.
  pose proof (draft_valid_first_violation d values Hv Hparse) as Hfirst.
  exists values. split; [exact Hparse|]. split; [exact Hfirst|].
  split.
  { pose proof (submit_outcome o u bank d w) as H. cbv zeta in H.
    rewrite Hparse, Hfirst in H. exact H. }
  split.
  { destruct Hv as ((s & Hs & _) & _).
    destruct (SchemaFacts.parse_ok_spec d values Hparse) as [Hget _].
    destruct (Hget "phoneNumber" Schema.phoneNumber ltac:(in_shape)) as [-> _].
    rewrite Hs. reflexivity. }
  split; [apply (parse_keeps_phoneResponse d values Hparse)|].
  split; [apply (parse_keeps_response d values Hparse)|].
  split; [apply (parse_keeps_updateAddress d values Hparse)|].
  apply (parse_keeps_updatedBranchName d values Hparse).
Qed.

End Completeness.

(** ** The first revision of the form *)

Module V1Facts.
Import V1.

Lemma v1_shape_NoDup : NoDup (map fst shape).
Proof. apply (bool_decide_unpack _). vm_compute. exact I. Qed.

Lemma v1_parse_ok_spec d values :
  parse d = inl values ->
  forall k p, (k, p) ∈ shape ->
    get values k = Schema.out (p (get d k)) /\ Schema.issues (p (get d k)) = [].
Proof.
  unfold parse. pose proof (SchemaFacts.parse_fields_spec shape d v1_shape_NoDup) as H.
  destruct (Schema.parse_fields shape d) as [data errs].
  destruct H as (Hget & _ & Herrs).
  destruct errs as [|e errs]; [|discriminate]. intros [= <-] k p Hin.
  split; [apply Hget, Hin|].
  symmetry in Herrs.
  assert (Hall : Forall (fun l => l = [])
            (map (fun kp => map (pair (fst kp))
                              (Schema.issues (snd kp (get d (fst kp))))) shape)).
  { apply Forall_forall. intros l Hl.
    destruct l as [|x l]; [reflexivity|exfalso].
    apply list_elem_of_In, in_split in Hl as (l1 & l2 & Hl). rewrite Hl in Herrs.
    rewrite concat_app in Herrs. apply app_eq_nil in Herrs as [_ Herrs]. discriminate. }
  rewrite Forall_forall in Hall.
  apply (list_elem_of_fmap_2
           (fun kp => map (pair (fst kp)) (Schema.issues (snd kp (get d (fst kp)))))) in Hin.
  apply Hall in Hin. cbn [fst snd] in Hin.
  destruct (Schema.issues (p (get d k))); [reflexivity | discriminate].
Qed.

Lemma filled_spec v : (exists s, v = VString s) -> falsy v = false -> filled v.
Proof.
  intros [s ->] Hf. exists s. split; [reflexivity|].
  simpl in Hf. apply bool_decide_eq_false in Hf. exact Hf.
Qed.

Section Revision.
Variable o : Oracle.
Variable u : string.

Lemma v1_run_onSubmit bank values w :
  run o (call (onSubmit u (Some bank) values)) w =
  let w1 := upd (with_error None) (upd (with_loading true) w) in
  let rejected := fun reason =>
    (Normal, upd (with_loading false) (upd (with_error (Some reason)) w1)) in
  if is_str (get values "response") "address_change"
     && falsy (get values "updateAddress")
  then rejected "Updated address is required for address change"
  else if is_str (get values "response") "name_change"
          && falsy (get values "updatedBranchName")
  then rejected "Updated branch name is required for name change"
  else if is_str (get values "response") "name_and_address_change"
          && (falsy (get values "updateAddress") || falsy (get values "updatedBranchName"))
  then rejected "Both updated address and branch name are required"
  else
    let w2 := log (PUT (get bank "id") (spread2 bank values)) w1 in
    match on_put o (length (trace w)) with
    | Resolved _ =>
        let '(rest, w3) :=
          run_sync o (call (fetchUnassignedBank u))
            (upd with_form_reset (upd (with_currentBank None) w2)) in
        (Normal, upd (with_loading false) (park rest w3))
    | Rejected =>
        (Normal, upd (with_loading false)
                   (upd (with_error
                           (Some "Failed to update bank information. Please try again."))
                      w2))
    end.
Proof.
  unfold onSubmit. cbv zeta. run_step.
  destruct (is_str (get values "response") "address_change"
            && falsy (get values "updateAddress")); [reflexivity|].
  run_step.
  destruct (is_str (get values "response") "name_change"
            && falsy (get values "updatedBranchName")); [reflexivity|].
  run_step.
  destruct (is_str (get values "response") "name_and_address_change"
            && (falsy (get values "updateAddress")
                || falsy (get values "updatedBranchName"))); [reflexivity|].
  run_step.
  destruct (on_put o (length (trace w))); [|reflexivity].
  run_step. destruct (run_sync o _ _) as [rest w3]. destruct rest; reflexivity.
Qed.

(** X24: the first revision issues an update only for an outcome that keeps
    the conditional outcome invariant: a response of its list, an updated
    address for an address change, an updated branch name for a name
    change, and both for a combined change; otherwise nothing is sent. *)
Theorem submitted_outcome_invariant (bank d : Obj) (w : World) :
  let w' := snd (run o (handleSubmit u (Some bank) d) w) in
  (trace w' = trace w
   \/ exists values,
        parse d = inl values
        /\ trace w' = trace w ++ [PUT (get bank "id") (spread2 bank values)]
        /\ outcome_invariant values
        /\ filled (get values "remarks")).
Proof.
  cbv zeta. unfold handleSubmit.
  destruct (parse d) as [values|errs] eqn:Hp; [|left; reflexivity].
  cbn [run]. rewrite v1_run_onSubmit. cbv zeta.
  pose proof (v1_parse_ok_spec d values Hp) as Hshape.
  assert (Hstr : forall k, (k, optional_string) ∈ shape ->
                           falsy (get values k) = false -> filled (get values k)).
  { intros k Hin Hf. apply filled_spec; [|exact Hf].
    destruct (Hshape k optional_string Hin) as [Ho Hi]. rewrite Ho in *.
    destruct (get d k) as [|s|n]; try discriminate. exists s. reflexivity. }
  assert (Haddr := Hstr "updateAddress" ltac:(in_shape)).
  assert (Hname := Hstr "updatedBranchName" ltac:(in_shape)).
  destruct (is_str (get values "response") "address_change"
            && falsy (get values "updateAddress")) eqn:C1; [left; reflexivity|].
  destruct (is_str (get values "response") "name_change"
            && falsy (get values "updatedBranchName")) eqn:C2; [left; reflexivity|].
  destruct (is_str (get values "response") "name_and_address_change"
            && (falsy (get values "updateAddress")
                || falsy (get values "updatedBranchName"))) eqn:C3; [left; reflexivity|].
  right. exists values. split; [reflexivity|]. split.
  { destruct (on_put o _) as [[]|]; [|reflexivity].
    match goal with |- context [run_sync o ?p ?w0] =>
      pose proof (run_sync_trace o p w0) as Htr;
      destruct (run_sync o p w0) as [rest w3] end.
    simpl in Htr |- *. rewrite park_trace. exact Htr. }
  split.
  - unfold outcome_invariant. split; [|split; [|split]].
    + destruct (Hshape "response" response ltac:(in_shape)) as [Ho Hi].
      destruct (get d "response") as [|r|n]; try discriminate.
      cbn [response] in *.
      destruct (bool_decide (r ∈ response_options)) eqn:Hr; [|discriminate].
      exists r. split; [exact Ho | exact (proj1 (bool_decide_eq_true _) Hr)].
    + intros H. apply Haddr. rewrite H in C1. cbn in C1. exact C1.
    + intros H. apply Hname. rewrite H in C2. cbn in C2. exact C2.
    + intros H. rewrite H in C3. cbn in C3. apply orb_false_iff in C3 as [F1 F2].
      split; [apply Haddr, F1 | apply Hname, F2].
  - destruct (Hshape "remarks" remarks ltac:(in_shape)) as [Ho Hi].
    destruct (get d "remarks") as [|r|n]; try discriminate.
    cbn [remarks Schema.issues Schema.out] in *. apply check_nil, Z.leb_le in Hi.
    exists r. split; [exact Ho|]. intros ->. simpl in Hi. unfold Str.length in Hi.
    simpl in Hi. lia.
Qed.

End Revision.

End V1Facts.

(** ** Instances *)

Lemma handleNameSubmit_stores_trimmed_witness :
  let st' := Identity.handleNameSubmit "  Alice " (Identity.init ∅) in
  Identity.userName st' = "Alice"
  /\ Identity.localStorage st' !! "userName" = Some "Alice"
  /\ Identity.userName st' <> ""
  /\ Identity.trimmed (Identity.userName st')
  /\ (forall k, k <> "userName" -> Identity.localStorage st' !! k = (∅ : gmap string string) !! k)
  /\ Identity.init (Identity.localStorage st') = st'.
Proof.
  assert (H : Identity.trim "  Alice " <> "") by (vm_compute; discriminate).
  exact (IdentityFacts.handleNameSubmit_stores_trimmed "  Alice " (Identity.init ∅) H).
Defined.

Lemma blank_name_rejected_witness :
  Identity.handleNameSubmit "   " (Identity.init ∅) = Identity.init ∅
  /\ Identity.name_form_submit (Some "   ") (Identity.init ∅) = Identity.init ∅
  /\ Identity.handleNameChange (Some "   ") (Identity.init ∅) = Identity.init ∅
  /\ Identity.handleNameChange None (Identity.init ∅) = Identity.init ∅
  /\ Identity.name_form_submit None (Identity.init ∅) = Identity.init ∅.
Proof.
  assert (H : Identity.trim "   " = "") by (vm_compute; reflexivity).
  exact (IdentityFacts.blank_name_rejected "   " (Identity.init ∅) H).
Defined.

Lemma generateQRCodeData_injective_witness :
  Cases.instant = Cases.instant
  /\ forall k, k ∈ QR.payload_fields ->
       QR.to_text (get Examples.bank1 k) = QR.to_text (get Cases.bank1_held k).
Proof.
  assert (H1 : QR.generateQRCodeData Examples.bank1 Cases.instant = Some Cases.payload1)
    by (vm_compute; reflexivity).
  assert (H2 : QR.generateQRCodeData Cases.bank1_held Cases.instant = Some Cases.payload1)
    by (vm_compute; reflexivity).
  exact (QRFacts.generateQRCodeData_injective Examples.bank1 Cases.bank1_held
           Cases.instant Cases.instant Cases.payload1 H1 H2).
Defined.

Lemma libraries_ok_encode k data :
  exists url, Letters.toDataURL Cases.libraries_ok k data = Resolved url /\ url <> "".
Proof. eexists. split; [reflexivity | discriminate]. Defined.

Lemma handleGenerateAllPDFs_complete_witness :
  let '(r, st') :=
    Letters.handleGenerateAllPDFs Cases.libraries_ok
      [Examples.bank1; Cases.bank_no_ufi; Examples.bank2] Letters.mounted in
  r = Resolved tt
  /\ Letters.downloads st' =
     Letters.downloads Letters.mounted
     ++ omap Letters.bulk_fileName
          (List.filter Letters.has_payload [Examples.bank1; Cases.bank_no_ufi; Examples.bank2])
  /\ Letters.error st' = Letters.error Letters.mounted
  /\ Letters.generatingPDFs st' = false.
Proof.
  assert (H2 : forall k b url, Letters.toBlob Cases.libraries_ok k b url = Resolved tt)
    by reflexivity.
  assert (H3 : Forall (fun bank => Letters.has_payload bank = true ->
                                   is_Some (Letters.bulk_fileName bank))
                 [Examples.bank1; Cases.bank_no_ufi; Examples.bank2]).
  { repeat constructor; intros _; eexists; vm_compute; reflexivity. }
  exact (LettersFacts.handleGenerateAllPDFs_complete Cases.libraries_ok
           [Examples.bank1; Cases.bank_no_ufi; Examples.bank2] Letters.mounted
           libraries_ok_encode H2 H3).
Defined.

Lemma handleGenerateAllPDFs_aborts_witness :
  let '(r, st') :=
    Letters.handleGenerateAllPDFs Cases.libraries_ok
      ([Examples.bank1] ++ Cases.bank_no_names :: [Examples.bank2]) Letters.mounted in
  r = Resolved tt
  /\ Letters.downloads st' =
     Letters.downloads Letters.mounted
     ++ omap Letters.bulk_fileName (List.filter Letters.has_payload [Examples.bank1])
  /\ Letters.error st' = Some "Failed to generate PDFs. Please try again."
  /\ Letters.generatingPDFs st' = false.
Proof.
  assert (H2 : forall k b url, Letters.toBlob Cases.libraries_ok k b url = Resolved tt)
    by reflexivity.
  assert (H3 : Forall (fun bank => Letters.has_payload bank = true ->
                                   is_Some (Letters.bulk_fileName bank))
                 [Examples.bank1]).
  { repeat constructor; intros _; eexists; vm_compute; reflexivity. }
  assert (H4 : Letters.has_payload Cases.bank_no_names = true) by (vm_compute; reflexivity).
  assert (H5 : Letters.bulk_fileName Cases.bank_no_names = None) by (vm_compute; reflexivity).
  exact (LettersFacts.handleGenerateAllPDFs_aborts Cases.libraries_ok
           [Examples.bank1] [Examples.bank2] Cases.bank_no_names Letters.mounted
           libraries_ok_encode H2 H3 H4 H5).
Defined.

Lemma handleGenerateAllPDFs_swallows_witness :
  let '(r, st') :=
    Letters.handleGenerateAllPDFs Cases.encoder_fails
      [Examples.bank1; Examples.bank2] Letters.mounted in
  r = Resolved tt
  /\ Letters.downloads st' = Letters.downloads Letters.mounted
  /\ Letters.error st' = Letters.error Letters.mounted
  /\ Letters.waited st' = Letters.waited Letters.mounted
  /\ Letters.generatingPDFs st' = false.
Proof.
  assert (H : forall k data,
             Letters.toDataURL Cases.encoder_fails k data = Rejected
             \/ Letters.toDataURL Cases.encoder_fails k data = Resolved "")
    by (intros k data; left; reflexivity).
  exact (LettersFacts.handleGenerateAllPDFs_swallows Cases.encoder_fails
           [Examples.bank1; Examples.bank2] Letters.mounted H).
Defined.

Lemma submitted_outcome_valid_witness :
  exists values,
    Schema.parse Examples.draft_address_change = inl values
    /\ trace (snd (run Examples.store_ok
                     (handleSubmit "Alice" (Some Examples.bank1) Examples.draft_address_change)
                     (idle (Some Examples.bank1))))
       = trace (idle (Some Examples.bank1))
         ++ [PUT (get Examples.bank1 "id") (spread2 Examples.bank1 values)]
    /\ outcome_valid values.
Proof.
  assert (H : trace (snd (run Examples.store_ok
                            (handleSubmit "Alice" (Some Examples.bank1)
                               Examples.draft_address_change)
                            (idle (Some Examples.bank1))))
              <> trace (idle (Some Examples.bank1)))
    by (vm_compute; discriminate).
  exact (submitted_outcome_valid Examples.store_ok "Alice" Examples.bank1
           Examples.draft_address_change (idle (Some Examples.bank1)) H).
Defined.

Lemma submit_update_rejected_witness :
  let '(c, w') :=
    run Examples.store_put_fails
      (handleSubmit "Alice" (Some Examples.bank1) Examples.draft_address_change)
      (idle (Some Examples.bank1)) in
  c = Normal
  /\ trace w' = trace (idle (Some Examples.bank1))
                ++ [PUT (get Examples.bank1 "id")
                      (spread2 Examples.bank1 Examples.values_address_change)]
  /\ currentBank (comp w') = currentBank (comp (idle (Some Examples.bank1)))
  /\ draft (comp w') = draft (comp (idle (Some Examples.bank1)))
  /\ pending w' = pending (idle (Some Examples.bank1))
  /\ loading (comp w') = false
  /\ error (comp w') = Some "Failed to update bank information. Please try again.".
Proof.
  assert (H1 : Schema.parse Examples.draft_address_change
               = inl Examples.values_address_change) by (vm_compute; reflexivity).
  assert (H2 : first_violation Examples.values_address_change = None)
    by (vm_compute; reflexivity).
  assert (H3 : on_put Examples.store_put_fails
                 (length (trace (idle (Some Examples.bank1)))) = Rejected)
    by reflexivity.
  exact (submit_update_rejected Examples.store_put_fails "Alice" Examples.bank1
           Examples.draft_address_change Examples.values_address_change
           (idle (Some Examples.bank1)) H1 H2 H3).
Defined.

Lemma submit_then_next_assignment_witness :
  let w := idle (Some Examples.bank1) in
  let w' := snd (run Examples.store_ok
                   (handleSubmit "Alice" (Some Examples.bank1) Examples.draft_address_change)
                   w) in
  let cleared :=
    upd with_form_reset
      (upd (with_currentBank None)
         (log (PUT (get Examples.bank1 "id")
                 (spread2 Examples.bank1 Examples.values_address_change))
            (upd (with_error None) (upd (with_loading true)
               (upd (with_formErrors []) w))))) in
  currentBank (comp w') = None
  /\ draft (comp w') = defaultValues
  /\ loading (comp w') = false
  /\ length (pending w') = 1%nat
  /\ resume Examples.store_ok w'
     = snd (run Examples.store_ok (fetchUnassignedBank "Alice") cleared)
  /\ (currentBank (comp (resume Examples.store_ok w')) = None
      \/ exists banks chosen,
           on_get Examples.store_ok (S (length (trace w))) = Resolved banks
           /\ chosen ∈ List.filter unassigned banks
           /\ currentBank (comp (resume Examples.store_ok w')) = Some chosen).
Proof.
  assert (H1 : Schema.parse Examples.draft_address_change
               = inl Examples.values_address_change) by (vm_compute; reflexivity).
  assert (H2 : first_violation Examples.values_address_change = None)
    by (vm_compute; reflexivity).
  assert (H3 : on_put Examples.store_ok
                 (length (trace (idle (Some Examples.bank1)))) = Resolved tt)
    by reflexivity.
  assert (H4 : pending (idle (Some Examples.bank1)) = []) by reflexivity.
  exact (submit_then_next_assignment Examples.store_ok "Alice" Examples.bank1
           Examples.draft_address_change Examples.values_address_change
           (idle (Some Examples.bank1)) H1 H2 H3 H4).
Defined.

Lemma fetch_failure_witness :
  let '(c, w') := run Cases.store_get_fails (fetchUnassignedBank "Alice") (idle None) in
  c = Normal
  /\ trace w' = trace (idle None) ++ [GET]
  /\ draws w' = draws (idle None)
  /\ currentBank (comp w') = currentBank (comp (idle None))
  /\ error (comp w') = Some "Failed to fetch bank details. Please try again."
  /\ loading (comp w') = false.
Proof.
  assert (H : on_get Cases.store_get_fails (length (trace (idle None))) = Rejected)
    by reflexivity.
  exact (fetch_failure Cases.store_get_fails "Alice" (idle None) H).
Defined.

Lemma updates_address_their_record_witness :
  Forall well_addressed
    (trace (snd (run Examples.store_ok (fetchUnassignedBank "Alice") (idle None))))
  /\ (forall bank,
         Forall well_addressed
           (trace (snd (run Examples.store_ok (handleCancel "Alice" (Some bank)) (idle None)))))
  /\ (forall bank d,
         Forall well_addressed
           (trace (snd (run Examples.store_ok (handleSubmit "Alice" (Some bank) d)
                          (idle None))))).
Proof.
  assert (H : Forall well_addressed (trace (idle None))) by constructor.
  exact (updates_address_their_record Examples.store_ok "Alice" (idle None) H).
Defined.

Lemma parse_idempotent_witness :
  Schema.parse Examples.values_address_change = inl Examples.values_address_change.
Proof.
  assert (H : Schema.parse Examples.draft_address_change
              = inl Examples.values_address_change) by (vm_compute; reflexivity).
  exact (ParseFacts.parse_idempotent Examples.draft_address_change
           Examples.values_address_change H).
Defined.

Lemma valid_draft_submitted_witness :
  exists values,
    Schema.parse Examples.draft_address_change = inl values
    /\ first_violation values = None
    /\ trace (snd (run Examples.store_put_fails
                     (handleSubmit "Alice" (Some Examples.bank1) Examples.draft_address_change)
                     (idle (Some Examples.bank1))))
       = trace (idle (Some Examples.bank1))
         ++ [PUT (get Examples.bank1 "id") (spread2 Examples.bank1 values)]
    /\ get values "phoneNumber" = get Examples.draft_address_change "phoneNumber"
    /\ get values "phoneResponse" = get Examples.draft_address_change "phoneResponse"
    /\ get values "response" = get Examples.draft_address_change "response"
    /\ get values "updateAddress" = get Examples.draft_address_change "updateAddress"
    /\ get values "updatedBranchName" = get Examples.draft_address_change "updatedBranchName".
Proof.
  assert (H : draft_valid Examples.draft_address_change).
  { unfold draft_valid.
    split.
    { exists "9876543210". split; [vm_compute; reflexivity|].
      split; [simpl; lia|]. split.
      - apply (bool_decide_unpack _). vm_compute. exact I.
      - intros [rest Hrest]. discriminate. }
    split.
    { exists "toll_free". split; [vm_compute; reflexivity|].
      split; [in_shape|]. intros _. vm_compute. discriminate. }
    split.
    { right. exists "address_change". split; [vm_compute; reflexivity | in_shape]. }
    split.
    { right. exists "12 Main Road, Pune". split; [vm_compute; reflexivity|].
      split; [simpl; lia|]. split.
      - apply (bool_decide_unpack _). vm_compute. exact I.
      - vm_compute. lia. }
    split; [left; vm_compute; reflexivity|].
    split.
    { right. exists "called twice". split; [vm_compute; reflexivity | simpl; lia]. }
    split; [intros _; vm_compute; discriminate|].
    intros Hr. vm_compute in Hr. discriminate. }
  exact (valid_draft_submitted Examples.store_put_fails "Alice" Examples.bank1
           Examples.draft_address_change (idle (Some Examples.bank1)) H).
Defined.
